(** * Crypto ETL pipeline: a shallow embedding of the ingestion core

    The development follows the Python sources module by module:
    - [core/config.py]            the retry and rate-limit settings,
    - [ingestion/sources/*.py]    the fetchers and their shared retry loop,
    - [schemas/*.py]              the raw and unified schemas,
    - [ingestion/transformer.py]  the per-source mappings and batch loops,
    - [core/database.py]          the tables,
    - [core/checkpoints.py]       the checkpoint manager,
    - [ingestion/loader.py]       the raw loaders and the unified upsert,
    - [etl_pipeline.py]           the orchestrator.

    Conventions.  A Python [int] is a [Z], a [float] is a rational [Q]
    (the only float operations of the modelled code are doubling, [min]
    and a difference of two clock readings), a [datetime] is a [Z] (a point
    on the time line), [str] is [string] and [Optional[T]] is [option T].
    A call that may raise returns a [result]; code that also reads or writes
    the database or the log runs in the monad [M]. *)

From Stdlib Require Import List String ZArith QArith Qpower Qminmax Lia Lqa Bool.
Import ListNotations.
Local Open Scope string_scope.
Local Open Scope Z_scope.
Local Open Scope list_scope.

(** ** Python prelude: exceptions and results *)

(** The two handlers of the sources are [except RequestException] (the retry
    loop) and [except Exception] (everywhere else), so an exception is
    either a [requests] exception or some other [Exception]; both carry the
    text that [str(e)] returns. *)
Inductive exn : Type :=
| RequestException (msg : string)
| Exception (msg : string).

Definition str (e : exn) : string :=
  match e with
  | RequestException msg => msg
  | Exception msg => msg
  end.

Inductive result (A : Type) : Type :=
| Ok (a : A)
| Raise (e : exn).
Arguments Ok {A} a.
Arguments Raise {A} e.

Definition raises {A : Type} (r : result A) : bool :=
  match r with
  | Ok _ => false
  | Raise _ => true
  end.

(** ** core/config.py *)

Record Settings : Type := {
  max_retries : Z;
  initial_retry_delay : Q;
  max_retry_delay : Q;
  rate_limit_delay : Q
}.

(** The defaults of the [Field(...)] declarations. *)
Definition default_settings : Settings :=
  {| max_retries := 3;
     initial_retry_delay := 1;
     max_retry_delay := 60;
     rate_limit_delay := 1 # 2 |}.

(** ** ingestion/sources: the shared retry loop *)

(** What [self.session.get(url, params=params, timeout=30)] does on one call:
    it raises, or it returns a response with a status code whose [json()]
    either decodes to a payload or raises. *)
Record Response (J : Type) : Type := {
  status_code : Z;
  json : result J
}.
Arguments status_code {J} r.
Arguments json {J} r.

Inductive GetOutcome (J : Type) : Type :=
| GetRaises (e : exn)
| GetReturns (r : Response J).
Arguments GetRaises {J} e.
Arguments GetReturns {J} r.

(** [response.raise_for_status()]: an [HTTPError], which is a
    [RequestException], for every 4xx and 5xx status. *)
Definition raise_for_status {J : Type} (r : Response J) : result unit :=
  if (400 <=? status_code r) && (status_code r <? 600)
  then Raise (RequestException "HTTPError")
  else Ok tt.

(** The observable effects of a request: the calls of [session.get] and the
    calls of [time.sleep] that return, told apart by the place that makes
    them (the back-off before a retry, the pause after a successful
    request).  The log lines of the fetchers are left out. *)
Inductive event : Type :=
| EvGet (attempt : nat)
| EvBackoff (d : Q)
| EvRateLimitDelay (d : Q).

(** [time.sleep(secs)]: a [ValueError] for a negative length, which is no
    request exception, so that no handler of the loop catches it. *)
Definition time_sleep (secs : Q) : result unit :=
  if Qle_bool 0 secs then Ok tt
  else Raise (Exception "sleep length must be non-negative").

Section MakeRequest.
Context {J : Type}.
Variable settings : Settings.
(** The network: the outcome of the [attempt]-th call of [session.get]. *)
Variable session_get : nat -> GetOutcome J.

(** [delay = min(delay * 2, settings.max_retry_delay)] *)
Definition next_delay (delay : Q) : Q :=
  Qmin (delay * 2) (max_retry_delay settings).

(** The three ways the [try] block of one iteration ends. *)
Inductive attempt_outcome : Type :=
| Returned (j : J)
| RateLimited
| Failed (e : exn).

(** The [try] block of one iteration, up to (not including) the back-off
    of its 429 branch. *)
Definition try_block (attempt : nat) : attempt_outcome * list event :=
  match session_get attempt with
  | GetRaises e => (Failed e, [EvGet attempt])
  | GetReturns response =>
      if status_code response =? 429 then (RateLimited, [EvGet attempt])
      else
        match raise_for_status response with
        | Raise e => (Failed e, [EvGet attempt])
        | Ok _ =>
            match time_sleep (rate_limit_delay settings) with
            | Raise e => (Failed e, [EvGet attempt])
            | Ok _ =>
                match json response with
                | Ok j =>
                    (Returned j,
                     [EvGet attempt;
                      EvRateLimitDelay (rate_limit_delay settings)])
                | Raise e =>
                    (Failed e,
                     [EvGet attempt;
                      EvRateLimitDelay (rate_limit_delay settings)])
                end
            end
        end
  end.

(** [for attempt in range(settings.max_retries)], with [remaining]
    iterations left; falling out of the loop raises
    [Exception("Max retries exceeded")].  The exception of a
    [time.sleep(delay)] that refuses its argument leaves the loop, from the
    429 branch of the [try] block as from the handler. *)
Fixpoint attempts (remaining attempt : nat) (delay : Q)
  : result J * list event :=
  match remaining with
  | O => (Raise (Exception "Max retries exceeded"), [])
  | S remaining' =>
      let sleep_and_retry (evs : list event) :=
        match time_sleep delay with
        | Raise e => (Raise e, evs)
        | Ok _ =>
            let '(r, tr) :=
              attempts remaining' (S attempt) (next_delay delay) in
            (r, evs ++ EvBackoff delay :: tr)
        end in
      match try_block attempt with
      | (Returned j, evs) => (Ok j, evs)
      | (RateLimited, evs) => sleep_and_retry evs
      | (Failed (RequestException msg), evs) =>
          if Z.of_nat attempt =? max_retries settings - 1
          then (Raise (RequestException msg), evs)
          else sleep_and_retry evs
      | (Failed (Exception msg), evs) => (Raise (Exception msg), evs)
      end
  end.

Definition _make_request : result J * list event :=
  attempts (Z.to_nat (max_retries settings)) 0 (initial_retry_delay settings).

(** The back-off-and-retry path of one iteration, written out: the events of
    the [try] block, a [time.sleep(delay)] that returns, then the remaining
    iterations with the next delay. *)
Definition backoff_and_retry (remaining attempt : nat) (delay : Q)
  : result J * list event :=
  (fst (attempts remaining (S attempt) (next_delay delay)),
   snd (try_block attempt) ++ EvBackoff delay
     :: snd (attempts remaining (S attempt) (next_delay delay))).
End MakeRequest.

(** The delays slept before retries, and the number of requests sent. *)
Fixpoint backoff_delays (tr : list event) : list Q :=
  match tr with
  | [] => []
  | EvBackoff d :: tr' => d :: backoff_delays tr'
  | _ :: tr' => backoff_delays tr'
  end.

Fixpoint requests_sent (tr : list event) : nat :=
  match tr with
  | [] => O
  | EvGet _ :: tr' => S (requests_sent tr')
  | _ :: tr' => requests_sent tr'
  end.

(** ** schemas/raw_data.py and schemas/unified.py *)

(** Attribute values of Python objects are not statically typed: an object
    that reaches the transformer may carry [None] or a value of another type
    in any attribute. *)
Inductive value : Type :=
| VNone
| VStr (s : string)
| VFloat (x : Q)
| VInt (n : Z)
| VDatetime (t : Z).

(** Truthiness, as used by [raw_data.name or ""]. *)
Definition truthy (v : value) : bool :=
  match v with
  | VNone => false
  | VStr s => negb (s =? "")%string
  | VFloat x => negb (Qeq_bool x 0)
  | VInt n => negb (n =? 0)
  | VDatetime _ => true
  end.

Definition py_or (a b : value) : value := if truthy a then a else b.

Module RawCoinPaprikaSchema.
Record t : Type := {
  coin_id : value;
  name : value;
  symbol : value;
  rank : value;
  price_usd : value;
  market_cap : value;
  volume_24h : value;
  circulating_supply : value;
  total_supply : value;
  max_supply : value;
  percent_change_24h : value;
  raw_json : value;
  ingested_at : value
}.
End RawCoinPaprikaSchema.

Module RawCoinGeckoSchema.
Record t : Type := {
  coin_id : value;
  name : value;
  symbol : value;
  current_price : value;
  market_cap : value;
  total_volume : value;
  price_change_24h : value;
  price_change_percentage_24h : value;
  market_cap_rank : value;
  raw_json : value;
  ingested_at : value
}.
End RawCoinGeckoSchema.

Module RawCSVSchema.
Record t : Type := {
  coin_id : value;
  name : value;
  symbol : value;
  price_usd : value;
  market_cap : value;
  volume_24h : value;
  ingested_at : value
}.
End RawCSVSchema.

(** The field validators of pydantic, a library outside the repository: what
    a [str], an [Optional[float]] and a [datetime] field make of a value
    ([None] of the result: the value is rejected).  The development holds
    for every such behaviour. *)
Class Pydantic : Type := {
  validate_str : value -> option string;
  validate_optional_float : value -> option (option Q);
  validate_datetime : value -> option Z
}.

(** The validators on values that already have the declared type, rejecting
    every other value: the instance used on concrete inputs. *)
Definition exact_types : Pydantic :=
  {| validate_str := fun v =>
       match v with VStr s => Some s | _ => None end;
     validate_optional_float := fun v =>
       match v with
       | VNone => Some None
       | VFloat x => Some (Some x)
       | _ => None
       end;
     validate_datetime := fun v =>
       match v with VDatetime t => Some t | _ => None end |}.

Module UnifiedCryptoDataSchema.
Record t : Type := {
  coin_id : string;
  name : string;
  symbol : string;
  price_usd : option Q;
  market_cap : option Q;
  volume_24h : option Q;
  source : string;
  ingested_at : Z
}.

(** [source: Literal["coinpaprika", "coingecko", "csv"]] *)
Definition validate_source (s : string) : option string :=
  if ((s =? "coinpaprika") || (s =? "coingecko") || (s =? "csv"))%string
  then Some s else None.

(** The constructor call [UnifiedCryptoDataSchema(coin_id=..., ...)]: every
    field is validated and a [ValidationError] is raised when one of them
    is rejected (its text is abridged to a fixed string). *)
Definition init `{Pydantic}
    (coin_id name symbol price_usd market_cap volume_24h : value)
    (source : string) (ingested_at : value) : result t :=
  match validate_str coin_id, validate_str name, validate_str symbol,
        validate_optional_float price_usd,
        validate_optional_float market_cap,
        validate_optional_float volume_24h,
        validate_source source, validate_datetime ingested_at with
  | Some c, Some n, Some s, Some p, Some m, Some v, Some src, Some i =>
      Ok {| coin_id := c; name := n; symbol := s; price_usd := p;
            market_cap := m; volume_24h := v; source := src;
            ingested_at := i |}
  | _, _, _, _, _, _, _, _ =>
      Raise (Exception "validation error for UnifiedCryptoDataSchema")
  end.
End UnifiedCryptoDataSchema.

(** ** ingestion/sources: the three fetchers *)

(** The inner loop of every fetcher: build one schema object per item, and
    [continue] past an item whose construction raises. *)
Fixpoint parse_items {Item Raw : Type} (parse : Item -> result Raw)
    (items : list Item) : list Raw :=
  match items with
  | [] => []
  | item :: rest =>
      match parse item with
      | Ok schema => schema :: parse_items parse rest
      | Raise _ => parse_items parse rest
      end
  end.

(** What a fetcher of an HTTP provider depends on: the settings, the
    provider's answers, and the construction of a schema object from one
    element of the decoded array (which stamps [ingested_at]). *)
Record Provider (Item Raw : Type) : Type := {
  settings : Settings;
  session_get : nat -> GetOutcome (list Item);
  parse_item : Item -> result Raw
}.
Arguments settings {Item Raw} p.
Arguments session_get {Item Raw} p.
Arguments parse_item {Item Raw} p.

(** [CoinPaprikaSource.fetch_top_coins]: the outer [except Exception] logs
    and returns the empty list. *)
Definition fetch_top_coins {Item : Type}
    (api : Provider Item RawCoinPaprikaSchema.t) (limit : Z)
  : result (list RawCoinPaprikaSchema.t) * list event :=
  match _make_request (settings api) (session_get api) with
  | (Ok tickers, tr) => (Ok (parse_items (parse_item api) tickers), tr)
  | (Raise e, tr) => (Ok [], tr)
  end.

(** [CoinGeckoSource.fetch_markets_data], of the same shape. *)
Definition fetch_markets_data {Item : Type}
    (api : Provider Item RawCoinGeckoSchema.t) (per_page : Z)
  : result (list RawCoinGeckoSchema.t) * list event :=
  match _make_request (settings api) (session_get api) with
  | (Ok data, tr) => (Ok (parse_items (parse_item api) data), tr)
  | (Raise e, tr) => (Ok [], tr)
  end.

(** The file behind [CSVSource]: absent, failing while it is opened or read,
    or read to the end as a list of rows. *)
Inductive CsvFile (Row : Type) : Type :=
| NotFound
| ReadRaises (e : exn)
| Rows (rows : list Row).
Arguments NotFound {Row}.
Arguments ReadRaises {Row} e.
Arguments Rows {Row} rows.

(** [CSVSource.fetch_data]: no request and no retry; a missing file and a
    failed read both give the empty list. *)
Definition fetch_data {Row : Type} (file : CsvFile Row)
    (parse_row : Row -> result RawCSVSchema.t)
  : result (list RawCSVSchema.t) :=
  match file with
  | NotFound => Ok []
  | ReadRaises e => Ok []
  | Rows rows => Ok (parse_items parse_row rows)
  end.


(** ** core/database.py: the tables *)

Module Checkpoint.
Record t : Type := {
  source : string;
  last_run_timestamp : Z;
  status : string;
  records_processed : Z;
  duration_seconds : option Q;
  error_message : option string
}.
End Checkpoint.

(** One list of rows per table, oldest row first.  A raw row copies every
    field of its schema object and a unified row every field of the unified
    schema, so the rows are the schema records; the surrogate [id] columns
    are not modelled. *)
#[projections(primitive)]
Record DB : Type := {
  raw_coinpaprika : list RawCoinPaprikaSchema.t;
  raw_coingecko : list RawCoinGeckoSchema.t;
  raw_csv : list RawCSVSchema.t;
  unified_crypto_data : list UnifiedCryptoDataSchema.t;
  checkpoints : list Checkpoint.t
}.

Definition empty_db : DB :=
  {| raw_coinpaprika := []; raw_coingecko := []; raw_csv := [];
     unified_crypto_data := []; checkpoints := [] |}.

Definition on_raw_coinpaprika
    (f : list RawCoinPaprikaSchema.t -> list RawCoinPaprikaSchema.t)
    (d : DB) : DB :=
  {| raw_coinpaprika := f (raw_coinpaprika d);
     raw_coingecko := raw_coingecko d;
     raw_csv := raw_csv d;
     unified_crypto_data := unified_crypto_data d;
     checkpoints := checkpoints d |}.

Definition on_raw_coingecko
    (f : list RawCoinGeckoSchema.t -> list RawCoinGeckoSchema.t)
    (d : DB) : DB :=
  {| raw_coinpaprika := raw_coinpaprika d;
     raw_coingecko := f (raw_coingecko d);
     raw_csv := raw_csv d;
     unified_crypto_data := unified_crypto_data d;
     checkpoints := checkpoints d |}.

Definition on_raw_csv
    (f : list RawCSVSchema.t -> list RawCSVSchema.t) (d : DB) : DB :=
  {| raw_coinpaprika := raw_coinpaprika d;
     raw_coingecko := raw_coingecko d;
     raw_csv := f (raw_csv d);
     unified_crypto_data := unified_crypto_data d;
     checkpoints := checkpoints d |}.

Definition on_unified_crypto_data
    (f : list UnifiedCryptoDataSchema.t -> list UnifiedCryptoDataSchema.t)
    (d : DB) : DB :=
  {| raw_coinpaprika := raw_coinpaprika d;
     raw_coingecko := raw_coingecko d;
     raw_csv := raw_csv d;
     unified_crypto_data := f (unified_crypto_data d);
     checkpoints := checkpoints d |}.

Definition on_checkpoints
    (f : list Checkpoint.t -> list Checkpoint.t) (d : DB) : DB :=
  {| raw_coinpaprika := raw_coinpaprika d;
     raw_coingecko := raw_coingecko d;
     raw_csv := raw_csv d;
     unified_crypto_data := unified_crypto_data d;
     checkpoints := f (checkpoints d) |}.

(** ** The log *)

Inductive level : Type := INFO | WARNING | ERROR.

(** One constructor per [logger] call of the modelled code, carrying the
    values its f-string interpolates. *)
Inductive message : Type :=
| StartedRun (source : string)
| NoCheckpointFound (source : string)
| CompletedRun (source : string) (success : bool)
    (records_processed : Z) (duration_seconds : Q)
| LoadedRaw (provider : string) (count : Z)
| FailedLoadRaw (provider : string) (error : string)
| LoadedUnified (count : Z)
| FailedLoadUnified (error : string)
| FailedTransform (provider : string) (error : string)
| StartingETL (source_name : string)
| AlreadyRunning (source_name : string)
| NoDataFetched (source_name : string)
| CompletedETL (source_name : string) (unified_count : Z) (duration : Q)
| FailedETL (source_name : string) (error_msg : string)
| StartingAll
| CompletedAll
| ErrorFetchingStats (error : string)
| HealthCheckFailed (error : string).

(** ** The monad of code that uses the database session and the logger *)

#[projections(primitive)]
Record World : Type := {
  db : DB;
  log : list (level * message)
}.

(** A computation ends with a value or with a raised exception; the writes
    made before the exception stay. *)
Definition M (A : Type) : Type := World -> result A * World.

Definition ret {A : Type} (a : A) : M A := fun w => (Ok a, w).

Definition bind {A B : Type} (m : M A) (k : A -> M B) : M B :=
  fun w =>
    match m w with
    | (Ok a, w') => k a w'
    | (Raise e, w') => (Raise e, w')
    end.

Definition raise {A : Type} (e : exn) : M A := fun w => (Raise e, w).

Definition lift {A : Type} (r : result A) : M A := fun w => (r, w).

(** [try: body / except Exception as e: handler e] *)
Definition try_except {A : Type} (body : M A) (handler : exn -> M A) : M A :=
  fun w =>
    match body w with
    | (Ok a, w') => (Ok a, w')
    | (Raise e, w') => handler e w'
    end.

Declare Scope monad_scope.
Delimit Scope monad_scope with monad.
Notation "x <- m ;; k" := (bind m (fun x => k))
  (at level 61, m at next level, right associativity) : monad_scope.
Notation "m ;; k" := (bind m (fun _ => k))
  (at level 61, right associativity) : monad_scope.
Local Open Scope monad_scope.

Definition logger (l : level) (m : message) : M unit :=
  fun w => (Ok tt, {| db := db w; log := log w ++ [(l, m)] |}).

Definition query {A : Type} (f : DB -> A) : M A :=
  fun w => (Ok (f (db w)), w).

(** The storage may refuse an operation: [faults i] is the exception that
    the [i]-th storage operation of a call raises, if it raises. *)
Definition DbFaults : Type := nat -> option exn.

Definition no_faults : DbFaults := fun _ => None.

(** A query that the storage may refuse: it then raises and nothing is
    read. *)
Definition execute {A : Type} (fault : option exn) (m : M A) : M A :=
  match fault with
  | Some e => raise e
  | None => m
  end.

Definition write (fault : option exn) (f : DB -> DB) : M unit :=
  fun w =>
    match fault with
    | Some e => (Raise e, w)
    | None => (Ok tt, {| db := f (db w); log := log w |})
    end.

Definition commit (fault : option exn) : M unit :=
  match fault with
  | Some e => raise e
  | None => ret tt
  end.

(** [self.db.rollback()].  Every operation of the managers ends with a
    commit or a rollback, so the session holds no uncommitted work when a
    loader is entered and rolling back restores the tables as they were on
    entry. *)
Definition rollback (on_entry : DB) : M unit :=
  fun w => (Ok tt, {| db := on_entry; log := log w |}).

Definition len {A : Type} (l : list A) : Z := Z.of_nat (List.length l).

(** ** core/checkpoints.py *)

(** [start_run] and [complete_run] query the row of their source and commit
    what they assign to it; the storage may refuse either: [faults 0] is the
    fault of the query, [faults 1] that of the commit.  A refused commit
    leaves the stored rows as they were. *)

Definition for_source (source : string) (c : Checkpoint.t) : bool :=
  (Checkpoint.source c =? source)%string.

(** [self.db.query(Checkpoint).filter(Checkpoint.source == source).first()] *)
Definition get_checkpoint (source : string) : M (option Checkpoint.t) :=
  query (fun d => find (for_source source) (checkpoints d)).

(** Assigning to the attributes of the object that [get_checkpoint] returned
    and committing rewrites that row. *)
Fixpoint save_row (source : string) (c' : Checkpoint.t)
    (rows : list Checkpoint.t) : list Checkpoint.t :=
  match rows with
  | [] => []
  | c :: rest =>
      if for_source source c then c' :: rest
      else c :: save_row source c' rest
  end.

Definition start_run (source : string) (utcnow : Z) (faults : DbFaults)
  : M Checkpoint.t :=
  checkpoint <- execute (faults 0%nat) (get_checkpoint source) ;;
  checkpoint <-
    match checkpoint with
    | Some c =>
        let c' :=
          {| Checkpoint.source := Checkpoint.source c;
             Checkpoint.last_run_timestamp := utcnow;
             Checkpoint.status := "running";
             Checkpoint.records_processed := Checkpoint.records_processed c;
             Checkpoint.duration_seconds := Checkpoint.duration_seconds c;
             Checkpoint.error_message := None |} in
        write (faults 1%nat) (on_checkpoints (save_row source c')) ;;
        ret c'
    | None =>
        let c :=
          {| Checkpoint.source := source;
             Checkpoint.last_run_timestamp := utcnow;
             Checkpoint.status := "running";
             Checkpoint.records_processed := 0;
             Checkpoint.duration_seconds := None;
             Checkpoint.error_message := None |} in
        write (faults 1%nat) (on_checkpoints (fun rows => rows ++ [c])) ;;
        ret c
    end ;;
  logger INFO (StartedRun source) ;;
  ret checkpoint.

Definition complete_run (source : string) (records_processed : Z)
    (duration_seconds : Q) (success : bool) (error_message : option string)
    (faults : DbFaults) : M unit :=
  checkpoint <- execute (faults 0%nat) (get_checkpoint source) ;;
  match checkpoint with
  | None => logger ERROR (NoCheckpointFound source)
  | Some c =>
      let c' :=
        {| Checkpoint.source := Checkpoint.source c;
           Checkpoint.last_run_timestamp := Checkpoint.last_run_timestamp c;
           Checkpoint.status := if success then "success" else "failure";
           Checkpoint.records_processed := records_processed;
           Checkpoint.duration_seconds := Some duration_seconds;
           Checkpoint.error_message := error_message |} in
      write (faults 1%nat) (on_checkpoints (save_row source c')) ;;
      logger INFO
        (CompletedRun source success records_processed duration_seconds)
  end.

Definition is_source_running (source : string) : M bool :=
  checkpoint <- get_checkpoint source ;;
  ret match checkpoint with
      | Some c => (Checkpoint.status c =? "running")%string
      | None => false
      end.

(** ** ingestion/loader.py *)

(** The three raw loaders differ in the table they write and in the name
    they log. *)
Section LoadRaw.
Context {Raw : Type}.
Variable provider : string.
Variable bulk_save_objects : list Raw -> DB -> DB.

Definition load_raw (data_list : list Raw) (faults : DbFaults) : M Z :=
  match data_list with
  | [] => ret 0
  | _ :: _ =>
      on_entry <- query (fun d => d) ;;
      try_except
        (let records := data_list in
         write (faults 0%nat) (bulk_save_objects records) ;;
         commit (faults 1%nat) ;;
         logger INFO (LoadedRaw provider (len records)) ;;
         ret (len records))
        (fun e =>
           rollback on_entry ;;
           logger ERROR (FailedLoadRaw provider (str e)) ;;
           raise e)
  end.
End LoadRaw.

Definition load_raw_coinpaprika
  : list RawCoinPaprikaSchema.t -> DbFaults -> M Z :=
  load_raw "CoinPaprika"
    (fun records => on_raw_coinpaprika (fun rows => rows ++ records)).

Definition load_raw_coingecko
  : list RawCoinGeckoSchema.t -> DbFaults -> M Z :=
  load_raw "CoinGecko"
    (fun records => on_raw_coingecko (fun rows => rows ++ records)).

Definition load_raw_csv : list RawCSVSchema.t -> DbFaults -> M Z :=
  load_raw "CSV" (fun records => on_raw_csv (fun rows => rows ++ records)).

(** The conflict target [index_elements=['coin_id', 'source', 'ingested_at']]. *)
Definition same_key (a b : UnifiedCryptoDataSchema.t) : bool :=
  (UnifiedCryptoDataSchema.coin_id a =? UnifiedCryptoDataSchema.coin_id b)%string
  && (UnifiedCryptoDataSchema.source a =? UnifiedCryptoDataSchema.source b)%string
  && (UnifiedCryptoDataSchema.ingested_at a =? UnifiedCryptoDataSchema.ingested_at b).

(** The [set_] of the conflict clause: the five listed columns come from the
    excluded (incoming) row, the key columns stay. *)
Definition do_update (excluded row : UnifiedCryptoDataSchema.t)
  : UnifiedCryptoDataSchema.t :=
  {| UnifiedCryptoDataSchema.coin_id := UnifiedCryptoDataSchema.coin_id row;
     UnifiedCryptoDataSchema.name := UnifiedCryptoDataSchema.name excluded;
     UnifiedCryptoDataSchema.symbol := UnifiedCryptoDataSchema.symbol excluded;
     UnifiedCryptoDataSchema.price_usd :=
       UnifiedCryptoDataSchema.price_usd excluded;
     UnifiedCryptoDataSchema.market_cap :=
       UnifiedCryptoDataSchema.market_cap excluded;
     UnifiedCryptoDataSchema.volume_24h :=
       UnifiedCryptoDataSchema.volume_24h excluded;
     UnifiedCryptoDataSchema.source := UnifiedCryptoDataSchema.source row;
     UnifiedCryptoDataSchema.ingested_at :=
       UnifiedCryptoDataSchema.ingested_at row |}.

(** [INSERT ... ON CONFLICT (coin_id, source, ingested_at) DO UPDATE SET ...]
    on the rows of [unified_crypto_data]. *)
Definition insert_on_conflict_do_update (data : UnifiedCryptoDataSchema.t)
    (rows : list UnifiedCryptoDataSchema.t) : list UnifiedCryptoDataSchema.t :=
  if existsb (same_key data) rows
  then map (fun row => if same_key data row then do_update data row else row)
           rows
  else rows ++ [data].

(** [for data in data_list: ... self.db.execute(stmt)], the [i]-th statement
    of the call first. *)
Fixpoint execute_all (data_list : list UnifiedCryptoDataSchema.t) (i : nat)
    (faults : DbFaults) : M unit :=
  match data_list with
  | [] => ret tt
  | data :: rest =>
      write (faults i)
        (on_unified_crypto_data (insert_on_conflict_do_update data)) ;;
      execute_all rest (S i) faults
  end.

Definition load_unified_data (data_list : list UnifiedCryptoDataSchema.t)
    (faults : DbFaults) : M Z :=
  match data_list with
  | [] => ret 0
  | _ :: _ =>
      on_entry <- query (fun d => d) ;;
      try_except
        (execute_all data_list 0 faults ;;
         commit (faults (List.length data_list)) ;;
         logger INFO (LoadedUnified (len data_list)) ;;
         ret (len data_list))
        (fun e =>
           rollback on_entry ;;
           logger ERROR (FailedLoadUnified (str e)) ;;
           raise e)
  end.

(** ** ingestion/transformer.py *)

Section Transformer.
Context `{Pydantic}.

Definition transform_coinpaprika (raw_data : RawCoinPaprikaSchema.t)
  : result UnifiedCryptoDataSchema.t :=
  UnifiedCryptoDataSchema.init
    (RawCoinPaprikaSchema.coin_id raw_data)
    (py_or (RawCoinPaprikaSchema.name raw_data) (VStr ""))
    (py_or (RawCoinPaprikaSchema.symbol raw_data) (VStr ""))
    (RawCoinPaprikaSchema.price_usd raw_data)
    (RawCoinPaprikaSchema.market_cap raw_data)
    (RawCoinPaprikaSchema.volume_24h raw_data)
    "coinpaprika"
    (RawCoinPaprikaSchema.ingested_at raw_data).

Definition transform_coingecko (raw_data : RawCoinGeckoSchema.t)
  : result UnifiedCryptoDataSchema.t :=
  UnifiedCryptoDataSchema.init
    (RawCoinGeckoSchema.coin_id raw_data)
    (py_or (RawCoinGeckoSchema.name raw_data) (VStr ""))
    (py_or (RawCoinGeckoSchema.symbol raw_data) (VStr ""))
    (RawCoinGeckoSchema.current_price raw_data)
    (RawCoinGeckoSchema.market_cap raw_data)
    (RawCoinGeckoSchema.total_volume raw_data)
    "coingecko"
    (RawCoinGeckoSchema.ingested_at raw_data).

Definition transform_csv (raw_data : RawCSVSchema.t)
  : result UnifiedCryptoDataSchema.t :=
  UnifiedCryptoDataSchema.init
    (RawCSVSchema.coin_id raw_data)
    (RawCSVSchema.name raw_data)
    (RawCSVSchema.symbol raw_data)
    (RawCSVSchema.price_usd raw_data)
    (RawCSVSchema.market_cap raw_data)
    (RawCSVSchema.volume_24h raw_data)
    "csv"
    (RawCSVSchema.ingested_at raw_data).
End Transformer.

(** The three batch functions are one loop over different mappings:
    [results = []], then per item either [results.append(unified)] or the
    logged failure. *)
Section TransformBatch.
Context {Raw : Type}.
Variable provider : string.
Variable transform : Raw -> result UnifiedCryptoDataSchema.t.

Fixpoint transform_loop (raw_data_list : list Raw)
    (results : list UnifiedCryptoDataSchema.t)
  : M (list UnifiedCryptoDataSchema.t) :=
  match raw_data_list with
  | [] => ret results
  | raw_data :: rest =>
      results <-
        try_except
          (unified <- lift (transform raw_data) ;;
           ret (results ++ [unified]))
          (fun e =>
             logger ERROR (FailedTransform provider (str e)) ;;
             ret results) ;;
      transform_loop rest results
  end.

Definition transform_batch (raw_data_list : list Raw)
  : M (list UnifiedCryptoDataSchema.t) :=
  transform_loop raw_data_list [].
End TransformBatch.

Definition transform_batch_coinpaprika `{Pydantic}
  : list RawCoinPaprikaSchema.t -> M (list UnifiedCryptoDataSchema.t) :=
  transform_batch "CoinPaprika" transform_coinpaprika.

Definition transform_batch_coingecko `{Pydantic}
  : list RawCoinGeckoSchema.t -> M (list UnifiedCryptoDataSchema.t) :=
  transform_batch "CoinGecko" transform_coingecko.

Definition transform_batch_csv `{Pydantic}
  : list RawCSVSchema.t -> M (list UnifiedCryptoDataSchema.t) :=
  transform_batch "CSV" transform_csv.

(** ** etl_pipeline.py *)

(** What one run reads from outside the database: [datetime.utcnow()] in
    [start_run], [time.time()] on entry and at the end, the faults of the
    storage during the two loads, and its faults during the calls of the
    checkpoint manager, in the order of the calls: that of the query of the
    guard ([checkpoint_faults 0]), those of [start_run] ([1] and [2]), of
    the [complete_run] of the [try] block ([3] and [4]) and of the
    [complete_run] of the handler ([5] and [6]). *)
Record Surroundings : Type := {
  utcnow : Z;
  time_start : Q;
  time_end : Q;
  raw_faults : DbFaults;
  unified_faults : DbFaults;
  checkpoint_faults : DbFaults
}.

(** [run_coinpaprika], [run_coingecko] and [run_csv] are the same text up to
    the source name, the fetch call, the raw loader and the batch
    transformer. *)
Section RunSource.
Context {Raw : Type}.
Variable source_name : string.
Variable load_raw_data : list Raw -> DbFaults -> M Z.
Variable transform_batch_data : list Raw -> M (list UnifiedCryptoDataSchema.t).

(** The body of the [try] statement; [fetched] is what the fetch call
    returned or raised. *)
Definition run_try (fetched : result (list Raw)) (env : Surroundings)
  : M unit :=
  let start_time := time_start env in
  logger INFO (StartingETL source_name) ;;
  running <-
    execute (checkpoint_faults env 0%nat) (is_source_running source_name) ;;
  if running : bool then
    logger WARNING (AlreadyRunning source_name)
  else
    start_run source_name (utcnow env)
      (fun i => checkpoint_faults env (1 + i)%nat) ;;
    raw_data <- lift fetched ;;
    match raw_data with
    | [] =>
        logger WARNING (NoDataFetched source_name) ;;
        let duration := (time_end env - start_time)%Q in
        complete_run source_name 0 duration true None
          (fun i => checkpoint_faults env (3 + i)%nat)
    | _ :: _ =>
        raw_count <- load_raw_data raw_data (raw_faults env) ;;
        unified_data <- transform_batch_data raw_data ;;
        unified_count <- load_unified_data unified_data (unified_faults env) ;;
        let duration := (time_end env - start_time)%Q in
        complete_run source_name unified_count duration true None
          (fun i => checkpoint_faults env (3 + i)%nat) ;;
        logger INFO (CompletedETL source_name unified_count duration)
    end.

Definition run_source (fetched : result (list Raw)) (env : Surroundings)
  : M unit :=
  let start_time := time_start env in
  try_except
    (run_try fetched env)
    (fun e =>
       let duration := (time_end env - start_time)%Q in
       let error_msg := str e in
       logger ERROR (FailedETL source_name error_msg) ;;
       complete_run source_name 0 duration false (Some error_msg)
         (fun i => checkpoint_faults env (5 + i)%nat)).
End RunSource.

Definition run_coinpaprika `{Pydantic} {Item : Type}
    (api : Provider Item RawCoinPaprikaSchema.t) (env : Surroundings)
  : M unit :=
  run_source "coinpaprika" load_raw_coinpaprika transform_batch_coinpaprika
    (fst (fetch_top_coins api 10)) env.

Definition run_coingecko `{Pydantic} {Item : Type}
    (api : Provider Item RawCoinGeckoSchema.t) (env : Surroundings)
  : M unit :=
  run_source "coingecko" load_raw_coingecko transform_batch_coingecko
    (fst (fetch_markets_data api 10)) env.

Definition run_csv `{Pydantic} {Row : Type}
    (file : CsvFile Row) (parse_row : Row -> result RawCSVSchema.t)
    (env : Surroundings) : M unit :=
  run_source "csv" load_raw_csv transform_batch_csv
    (fetch_data file parse_row) env.

(** Everything outside the database that one [run_all] depends on. *)
Record Outside (I1 I2 Row : Type) : Type := {
  coinpaprika_api : Provider I1 RawCoinPaprikaSchema.t;
  coinpaprika_env : Surroundings;
  coingecko_api : Provider I2 RawCoinGeckoSchema.t;
  coingecko_env : Surroundings;
  csv_file : CsvFile Row;
  csv_parse_row : Row -> result RawCSVSchema.t;
  csv_env : Surroundings
}.
Arguments coinpaprika_api {I1 I2 Row} o.
Arguments coinpaprika_env {I1 I2 Row} o.
Arguments coingecko_api {I1 I2 Row} o.
Arguments coingecko_env {I1 I2 Row} o.
Arguments csv_file {I1 I2 Row} o.
Arguments csv_parse_row {I1 I2 Row} o.
Arguments csv_env {I1 I2 Row} o.

Definition run_all `{Pydantic} {I1 I2 Row : Type} (o : Outside I1 I2 Row)
  : M unit :=
  logger INFO StartingAll ;;
  run_coinpaprika (coinpaprika_api o) (coinpaprika_env o) ;;
  run_coingecko (coingecko_api o) (coingecko_env o) ;;
  run_csv (csv_file o) (csv_parse_row o) (csv_env o) ;;
  logger INFO CompletedAll.

(** ** ingestion/sources: the single-item fetchers *)

(** [CoinPaprikaSource.fetch_ticker_data]: one request for the ticker of
    [coin_id]; the schema object is built from the decoded answer (with
    [coin_id] as the default of its identifier), and any exception gives
    [None]. *)
Definition fetch_ticker_data {Item : Type} (cfg : Settings)
    (session_get : nat -> GetOutcome Item)
    (parse : string -> Item -> result RawCoinPaprikaSchema.t)
    (coin_id : string)
  : result (option RawCoinPaprikaSchema.t) * list event :=
  match _make_request cfg session_get with
  | (Ok data, tr) =>
      match parse coin_id data with
      | Ok schema => (Ok (Some schema), tr)
      | Raise e => (Ok None, tr)
      end
  | (Raise e, tr) => (Ok None, tr)
  end.

(** [CoinGeckoSource.fetch_coin_data], of the same shape. *)
Definition fetch_coin_data {Item : Type} (cfg : Settings)
    (session_get : nat -> GetOutcome Item)
    (parse : string -> Item -> result RawCoinGeckoSchema.t)
    (coin_id : string)
  : result (option RawCoinGeckoSchema.t) * list event :=
  match _make_request cfg session_get with
  | (Ok data, tr) =>
      match parse coin_id data with
      | Ok schema => (Ok (Some schema), tr)
      | Raise e => (Ok None, tr)
      end
  | (Raise e, tr) => (Ok None, tr)
  end.

(** ** core/checkpoints.py: the other queries *)

(** [CheckpointManager.get_last_successful_run] *)
Definition get_last_successful_run (source : string) : M (option Z) :=
  checkpoint <- get_checkpoint source ;;
  match checkpoint with
  | Some c =>
      if (Checkpoint.status c =? "success")%string
      then ret (Some (Checkpoint.last_run_timestamp c))
      else ret None
  | None => ret None
  end.

(** [CheckpointManager.get_all_checkpoints] *)
Definition get_all_checkpoints : M (list Checkpoint.t) :=
  query (fun d => checkpoints d).

(** ** schemas/unified.py and api/routes/data.py: the statistics and the
    health check *)

Module StatsResponse.
Record t : Type := {
  source : string;
  records_processed : Z;
  duration_seconds : option Q;
  last_success_timestamp : option Z;
  last_failure_timestamp : option Z;
  status : string
}.
End StatsResponse.

Module ETLStatsResponse.
Record t : Type := {
  sources : list StatsResponse.t;
  total_records : Z;
  request_id : string;
  api_latency_ms : Q
}.
End ETLStatsResponse.

(** What a request handler reads outside the database: the identifier that
    [uuid.uuid4()] draws, the rounded latency that the two readings of
    [time.time()] give, the answer of [check_db_connection()] (which catches
    its own exceptions), the clock and [datetime.isoformat]. *)
Record Request : Type := {
  uuid4 : string;
  latency_ms : Q;
  db_connected : bool;
  now : Z;
  isoformat : Z -> string
}.

(** The loop of [get_stats] over the checkpoints, with its two
    accumulators. *)
Fixpoint stats_loop (checkpoints : list Checkpoint.t)
    (stats_list : list StatsResponse.t) (total_records : Z)
  : list StatsResponse.t * Z :=
  match checkpoints with
  | [] => (stats_list, total_records)
  | checkpoint :: rest =>
      let last_success :=
        if (Checkpoint.status checkpoint =? "success")%string
        then Some (Checkpoint.last_run_timestamp checkpoint)
        else None in
      let last_failure :=
        if (Checkpoint.status checkpoint =? "success")%string then None
        else if (Checkpoint.status checkpoint =? "failure")%string
        then Some (Checkpoint.last_run_timestamp checkpoint)
        else None in
      stats_loop rest
        (stats_list ++
         [{| StatsResponse.source := Checkpoint.source checkpoint;
             StatsResponse.records_processed :=
               Checkpoint.records_processed checkpoint;
             StatsResponse.duration_seconds :=
               Checkpoint.duration_seconds checkpoint;
             StatsResponse.last_success_timestamp := last_success;
             StatsResponse.last_failure_timestamp := last_failure;
             StatsResponse.status := Checkpoint.status checkpoint |}])
        (total_records + Checkpoint.records_processed checkpoint)
  end.

(** [get_stats]: the query of the checkpoints may be refused by the storage
    ([fault]); the handler of the [try] then logs the exception and raises
    [HTTPException(status_code=500, detail="Internal server error")], an
    exception that is no request exception. *)
Definition get_stats (request : Request) (fault : option exn)
  : M ETLStatsResponse.t :=
  try_except
    (checkpoints <- execute fault get_all_checkpoints ;;
     let '(stats_list, total_records) := stats_loop checkpoints [] 0 in
     ret {| ETLStatsResponse.sources := stats_list;
            ETLStatsResponse.total_records := total_records;
            ETLStatsResponse.request_id := uuid4 request;
            ETLStatsResponse.api_latency_ms := latency_ms request |})
    (fun e =>
       logger ERROR (ErrorFetchingStats (str e)) ;;
       raise (Exception "Internal server error")).

Module LastRun.
Record t : Type := {
  source : string;
  timestamp : string;
  status : string;
  records_processed : Z
}.
End LastRun.

Module HealthResponse.
Record t : Type := {
  status : string;
  database_connected : bool;
  etl_last_run : option LastRun.t;
  timestamp : Z
}.
End HealthResponse.

(** [max(checkpoints, key=lambda x: x.last_run_timestamp)] on a list that
    starts with [best]: the first of the items with the greatest key. *)
Fixpoint max_by_last_run (best : Checkpoint.t) (rest : list Checkpoint.t)
  : Checkpoint.t :=
  match rest with
  | [] => best
  | x :: rest' =>
      max_by_last_run
        (if Checkpoint.last_run_timestamp best
            <? Checkpoint.last_run_timestamp x
         then x else best)
        rest'
  end.

(** [health_check]: the query of the checkpoints may be refused by the
    storage ([fault]); the handler of the [try] then logs the exception and
    answers that the service is unhealthy. *)
Definition health_check (request : Request) (fault : option exn)
  : M HealthResponse.t :=
  try_except
    (let db_connected := db_connected request in
     checkpoints <- execute fault get_all_checkpoints ;;
     let etl_last_run :=
       match checkpoints with
       | [] => None
       | first :: rest =>
           let latest := max_by_last_run first rest in
           Some {| LastRun.source := Checkpoint.source latest;
                   LastRun.timestamp :=
                     isoformat request (Checkpoint.last_run_timestamp latest);
                   LastRun.status := Checkpoint.status latest;
                   LastRun.records_processed :=
                     Checkpoint.records_processed latest |}
       end in
     let status := if db_connected then "healthy" else "unhealthy" in
     ret {| HealthResponse.status := status;
            HealthResponse.database_connected := db_connected;
            HealthResponse.etl_last_run := etl_last_run;
            HealthResponse.timestamp := now request |})
    (fun e =>
       logger ERROR (HealthCheckFailed (str e)) ;;
       ret {| HealthResponse.status := "unhealthy";
              HealthResponse.database_connected := false;
              HealthResponse.etl_last_run := None;
              HealthResponse.timestamp := now request |}).

(** ** Functions used to state the properties *)

(** The items of a batch that the mapping accepts, in order, and the log
    lines of those it rejects. *)
Fixpoint successes {Raw : Type}
    (transform : Raw -> result UnifiedCryptoDataSchema.t)
    (raw_data_list : list Raw) : list UnifiedCryptoDataSchema.t :=
  match raw_data_list with
  | [] => []
  | raw_data :: rest =>
      match transform raw_data with
      | Ok unified => unified :: successes transform rest
      | Raise _ => successes transform rest
      end
  end.

Fixpoint failures {Raw : Type} (provider : string)
    (transform : Raw -> result UnifiedCryptoDataSchema.t)
    (raw_data_list : list Raw) : list (level * message) :=
  match raw_data_list with
  | [] => []
  | raw_data :: rest =>
      match transform raw_data with
      | Ok _ => failures provider transform rest
      | Raise e =>
          (ERROR, FailedTransform provider (str e))
          :: failures provider transform rest
      end
  end.

(** The first fault among the storage operations [i], ..., [i + n - 1]. *)
Fixpoint first_fault (faults : DbFaults) (i n : nat) : option exn :=
  match n with
  | O => None
  | S n' =>
      match faults i with
      | Some e => Some e
      | None => first_fault faults (S i) n'
      end
  end.

(** The rows after the statements of a whole list have been executed. *)
Definition upsert_all (data_list : list UnifiedCryptoDataSchema.t)
    (rows : list UnifiedCryptoDataSchema.t) : list UnifiedCryptoDataSchema.t :=
  fold_left (fun rows data => insert_on_conflict_do_update data rows)
    data_list rows.

(** The stored rows that carry the natural key of [data]. *)
Definition rows_with_key (data : UnifiedCryptoDataSchema.t)
    (rows : list UnifiedCryptoDataSchema.t) : list UnifiedCryptoDataSchema.t :=
  filter (same_key data) rows.

(** The checkpoint row of a source, as [get_checkpoint] finds it. *)
Definition checkpoint_of (source : string) (w : World) : option Checkpoint.t :=
  find (for_source source) (checkpoints (db w)).

(** Two worlds that hold the same raw and unified records. *)
Definition same_records (w w' : World) : Prop :=
  raw_coinpaprika (db w') = raw_coinpaprika (db w)
  /\ raw_coingecko (db w') = raw_coingecko (db w)
  /\ raw_csv (db w') = raw_csv (db w)
  /\ unified_crypto_data (db w') = unified_crypto_data (db w).

(** An outcome of [session.get] after which the loop goes on to the next
    attempt (if one is left): a request exception, a 429, another 4xx or 5xx
    status, or a body that fails to decode with a request exception. *)
Definition retriable {J : Type} (o : GetOutcome J) : bool :=
  match o with
  | GetRaises (RequestException _) => true
  | GetRaises (Exception _) => false
  | GetReturns r =>
      (status_code r =? 429)
      || raises (raise_for_status r)
      || match json r with
         | Raise (RequestException _) => true
         | _ => false
         end
  end.

(** The row that [start_run] leaves for its source. *)
Definition started (previous : option Checkpoint.t) (s : string) (utcnow : Z)
  : Checkpoint.t :=
  match previous with
  | Some c =>
      {| Checkpoint.source := Checkpoint.source c;
         Checkpoint.last_run_timestamp := utcnow;
         Checkpoint.status := "running";
         Checkpoint.records_processed := Checkpoint.records_processed c;
         Checkpoint.duration_seconds := Checkpoint.duration_seconds c;
         Checkpoint.error_message := None |}
  | None =>
      {| Checkpoint.source := s;
         Checkpoint.last_run_timestamp := utcnow;
         Checkpoint.status := "running";
         Checkpoint.records_processed := 0;
         Checkpoint.duration_seconds := None;
         Checkpoint.error_message := None |}
  end.

(** The row that [complete_run] leaves when it finds the row [c]. *)
Definition completed (c : Checkpoint.t) (success : bool) (n : Z) (d : Q)
    (err : option string) : Checkpoint.t :=
  {| Checkpoint.source := Checkpoint.source c;
     Checkpoint.last_run_timestamp := Checkpoint.last_run_timestamp c;
     Checkpoint.status := if success then "success" else "failure";
     Checkpoint.records_processed := n;
     Checkpoint.duration_seconds := Some d;
     Checkpoint.error_message := err |}.

(** What happens between [start_run] and [complete_run]: the count that is
    reported or the exception that reaches the handler, and the effect on
    the raw and unified tables. *)
Definition steps {Raw : Type} (bulk : list Raw -> DB -> DB)
    (transform : Raw -> result UnifiedCryptoDataSchema.t)
    (fetched : result (list Raw)) (env : Surroundings)
  : result Z * (DB -> DB) :=
  match fetched with
  | Raise e => (Raise e, fun d => d)
  | Ok [] => (Ok 0, fun d => d)
  | Ok ((_ :: _) as l) =>
      match first_fault (raw_faults env) 0 2 with
      | Some e => (Raise e, fun d => d)
      | None =>
          match successes transform l with
          | [] => (Ok 0, bulk l)
          | (_ :: _) as unified =>
              match first_fault (unified_faults env) 0
                      (S (List.length unified)) with
              | Some e => (Raise e, bulk l)
              | None =>
                  (Ok (len unified),
                   fun d => on_unified_crypto_data (upsert_all unified)
                              (bulk l d))
              end
          end
      end
  end.

(** The row that a run leaves for its source. *)
Definition final_checkpoint (previous : option Checkpoint.t) (s : string)
    (env : Surroundings) (outcome : result Z) : Checkpoint.t :=
  let c := started previous s (utcnow env) in
  let duration := (time_end env - time_start env)%Q in
  match outcome with
  | Ok n => completed c true n duration None
  | Raise e => completed c false 0 duration (Some (str e))
  end.

Definition not_running (s : string) (w : World) : Prop :=
  fst (is_source_running s w) = Ok false.

(** The unique constraint [uq_coin_source_time] on a list of rows. *)
Definition uq_coin_source_time (rows : list UnifiedCryptoDataSchema.t) : Prop :=
  forall k, (List.length (rows_with_key k rows) <= 1)%nat.

(** The checkpoint that [get_checkpoint] returns for [source] has the given
    status, count and error message. *)
Definition reports (source status : string) (n : Z) (err : option string)
    (w : World) : Prop :=
  exists c,
    fst (get_checkpoint source w) = Ok (Some c)
    /\ Checkpoint.status c = status
    /\ Checkpoint.records_processed c = n
    /\ Checkpoint.error_message c = err.

(** The storage answers every call of the checkpoint manager in a run: the
    query of the guard and the queries and the commits of [start_run] and
    [complete_run]. *)
Definition checkpoints_answer (env : Surroundings) : Prop :=
  forall i, checkpoint_faults env i = None.

(** No delay of the settings is negative, so that no [time.sleep] of the
    retry loop refuses its argument. *)
Definition nonnegative_delays (cfg : Settings) : Prop :=
  (0 <= initial_retry_delay cfg)%Q
  /\ (0 <= max_retry_delay cfg)%Q
  /\ (0 <= rate_limit_delay cfg)%Q.

(** The [try] blocks of the three runs. *)
Definition try_coinpaprika `{Pydantic} {Item : Type}
    (api : Provider Item RawCoinPaprikaSchema.t) (env : Surroundings)
  : M unit :=
  run_try "coinpaprika" load_raw_coinpaprika transform_batch_coinpaprika
    (fst (fetch_top_coins api 10)) env.

Definition try_coingecko `{Pydantic} {Item : Type}
    (api : Provider Item RawCoinGeckoSchema.t) (env : Surroundings)
  : M unit :=
  run_try "coingecko" load_raw_coingecko transform_batch_coingecko
    (fst (fetch_markets_data api 10)) env.

Definition try_csv `{Pydantic} {Row : Type}
    (file : CsvFile Row) (parse_row : Row -> result RawCSVSchema.t)
    (env : Surroundings) : M unit :=
  run_try "csv" load_raw_csv transform_batch_csv
    (fetch_data file parse_row) env.

(** The [k] delays that the loop sleeps when it retries [k] times from
    [delay]. *)
Fixpoint delays_from (cfg : Settings) (k : nat) (delay : Q) : list Q :=
  match k with
  | O => []
  | S k' => delay :: delays_from cfg k' (next_delay cfg delay)
  end.

(** The total of a list of delays. *)
Definition total_delay (delays : list Q) : Q := fold_right Qplus 0%Q delays.

(** Validators that accept the values of the declared type as they are (as
    pydantic does, whatever it makes of other values). *)
Definition accepts_declared_types (P : Pydantic) : Prop :=
  (forall s, validate_str (VStr s) = Some s)
  /\ validate_optional_float VNone = Some None
  /\ (forall x, validate_optional_float (VFloat x) = Some (Some x))
  /\ (forall t, validate_datetime (VDatetime t) = Some t).

(** The attributes of a raw object, read as the declared types say. *)
Definition is_str (v : value) : bool :=
  match v with VStr _ => true | _ => false end.

Definition is_optional_str (v : value) : bool :=
  match v with VNone | VStr _ => true | _ => false end.

Definition is_optional_float (v : value) : bool :=
  match v with VNone | VFloat _ => true | _ => false end.

Definition is_datetime (v : value) : bool :=
  match v with VDatetime _ => true | _ => false end.

Definition str_of (v : value) : string :=
  match v with VStr s => s | _ => "" end.

Definition float_of (v : value) : option Q :=
  match v with VFloat x => Some x | _ => None end.

Definition datetime_of (v : value) : Z :=
  match v with VDatetime t => t | _ => 0 end.

(** The attributes that the mappings read have their declared types (as they
    have on every object that its schema class has validated). *)
Definition declared_coinpaprika (raw : RawCoinPaprikaSchema.t) : bool :=
  is_str (RawCoinPaprikaSchema.coin_id raw)
  && is_optional_str (RawCoinPaprikaSchema.name raw)
  && is_optional_str (RawCoinPaprikaSchema.symbol raw)
  && is_optional_float (RawCoinPaprikaSchema.price_usd raw)
  && is_optional_float (RawCoinPaprikaSchema.market_cap raw)
  && is_optional_float (RawCoinPaprikaSchema.volume_24h raw)
  && is_datetime (RawCoinPaprikaSchema.ingested_at raw).

Definition declared_coingecko (raw : RawCoinGeckoSchema.t) : bool :=
  is_str (RawCoinGeckoSchema.coin_id raw)
  && is_optional_str (RawCoinGeckoSchema.name raw)
  && is_optional_str (RawCoinGeckoSchema.symbol raw)
  && is_optional_float (RawCoinGeckoSchema.current_price raw)
  && is_optional_float (RawCoinGeckoSchema.market_cap raw)
  && is_optional_float (RawCoinGeckoSchema.total_volume raw)
  && is_datetime (RawCoinGeckoSchema.ingested_at raw).

Definition declared_csv (raw : RawCSVSchema.t) : bool :=
  is_str (RawCSVSchema.coin_id raw)
  && is_str (RawCSVSchema.name raw)
  && is_str (RawCSVSchema.symbol raw)
  && is_optional_float (RawCSVSchema.price_usd raw)
  && is_optional_float (RawCSVSchema.market_cap raw)
  && is_optional_float (RawCSVSchema.volume_24h raw)
  && is_datetime (RawCSVSchema.ingested_at raw).

(** The unified record of a raw object with the declared types. *)
Definition unified_of_coinpaprika (raw : RawCoinPaprikaSchema.t)
  : UnifiedCryptoDataSchema.t :=
  {| UnifiedCryptoDataSchema.coin_id := str_of (RawCoinPaprikaSchema.coin_id raw);
     UnifiedCryptoDataSchema.name := str_of (RawCoinPaprikaSchema.name raw);
     UnifiedCryptoDataSchema.symbol := str_of (RawCoinPaprikaSchema.symbol raw);
     UnifiedCryptoDataSchema.price_usd :=
       float_of (RawCoinPaprikaSchema.price_usd raw);
     UnifiedCryptoDataSchema.market_cap :=
       float_of (RawCoinPaprikaSchema.market_cap raw);
     UnifiedCryptoDataSchema.volume_24h :=
       float_of (RawCoinPaprikaSchema.volume_24h raw);
     UnifiedCryptoDataSchema.source := "coinpaprika";
     UnifiedCryptoDataSchema.ingested_at :=
       datetime_of (RawCoinPaprikaSchema.ingested_at raw) |}.

Definition unified_of_coingecko (raw : RawCoinGeckoSchema.t)
  : UnifiedCryptoDataSchema.t :=
  {| UnifiedCryptoDataSchema.coin_id := str_of (RawCoinGeckoSchema.coin_id raw);
     UnifiedCryptoDataSchema.name := str_of (RawCoinGeckoSchema.name raw);
     UnifiedCryptoDataSchema.symbol := str_of (RawCoinGeckoSchema.symbol raw);
     UnifiedCryptoDataSchema.price_usd :=
       float_of (RawCoinGeckoSchema.current_price raw);
     UnifiedCryptoDataSchema.market_cap :=
       float_of (RawCoinGeckoSchema.market_cap raw);
     UnifiedCryptoDataSchema.volume_24h :=
       float_of (RawCoinGeckoSchema.total_volume raw);
     UnifiedCryptoDataSchema.source := "coingecko";
     UnifiedCryptoDataSchema.ingested_at :=
       datetime_of (RawCoinGeckoSchema.ingested_at raw) |}.

Definition unified_of_csv (raw : RawCSVSchema.t) : UnifiedCryptoDataSchema.t :=
  {| UnifiedCryptoDataSchema.coin_id := str_of (RawCSVSchema.coin_id raw);
     UnifiedCryptoDataSchema.name := str_of (RawCSVSchema.name raw);
     UnifiedCryptoDataSchema.symbol := str_of (RawCSVSchema.symbol raw);
     UnifiedCryptoDataSchema.price_usd := float_of (RawCSVSchema.price_usd raw);
     UnifiedCryptoDataSchema.market_cap :=
       float_of (RawCSVSchema.market_cap raw);
     UnifiedCryptoDataSchema.volume_24h :=
       float_of (RawCSVSchema.volume_24h raw);
     UnifiedCryptoDataSchema.source := "csv";
     UnifiedCryptoDataSchema.ingested_at :=
       datetime_of (RawCSVSchema.ingested_at raw) |}.

(** The sources that have a checkpoint, in the order of the rows. *)
Definition sources (d : DB) : list string :=
  map Checkpoint.source (checkpoints d).

(** A computation whose effect on the database is within the relation [R],
    from every world. *)
Definition within {A : Type} (R : DB -> DB -> Prop) (m : M A) : Prop :=
  forall w, R (db w) (db (snd (m w))).

(** The keys of the unified rows, in the order of the rows. *)
Definition natural_key (row : UnifiedCryptoDataSchema.t)
  : string * string * Z :=
  (UnifiedCryptoDataSchema.coin_id row, UnifiedCryptoDataSchema.source row,
   UnifiedCryptoDataSchema.ingested_at row).

(** Nothing is deleted from [d] on the way to [d']: each raw table of [d']
    starts with the rows of [d], and the unified table of [d'] starts with
    rows of the same keys. *)
Definition nothing_deleted (d d' : DB) : Prop :=
  (exists l, raw_coinpaprika d' = raw_coinpaprika d ++ l)
  /\ (exists l, raw_coingecko d' = raw_coingecko d ++ l)
  /\ (exists l, raw_csv d' = raw_csv d ++ l)
  /\ (exists l,
         map natural_key (unified_crypto_data d')
         = map natural_key (unified_crypto_data d) ++ l).

Definition terminal (c : Checkpoint.t) : Prop :=
  Checkpoint.status c = "success" \/ Checkpoint.status c = "failure".

(** The row of every item of the list that has the key of [row], one after
    the other, written over [row]. *)
Definition refreshed (data_list : list UnifiedCryptoDataSchema.t)
    (row : UnifiedCryptoDataSchema.t) : UnifiedCryptoDataSchema.t :=
  fold_left (fun row data => if same_key data row then do_update data row else row)
    data_list row.

(** The checkpoint of [s] in [w'] tells what a run that fetched [l] has
    stored on the way from [w] to [w']: a success, with the whole batch in
    the raw table, the accepted records upserted and their number reported;
    or a failure, with no unified row written and a count of 0. *)
Definition stored_as_reported {Raw : Type} (s : string)
    (table : DB -> list Raw)
    (transform : Raw -> result UnifiedCryptoDataSchema.t) (l : list Raw)
    (w w' : World) : Prop :=
  exists c,
    fst (get_checkpoint s w') = Ok (Some c)
    /\ ((Checkpoint.status c = "success"
         /\ Checkpoint.error_message c = None
         /\ Checkpoint.records_processed c = len (successes transform l)
         /\ table (db w') = table (db w) ++ l
         /\ unified_crypto_data (db w')
            = upsert_all (successes transform l) (unified_crypto_data (db w)))
        \/ (Checkpoint.status c = "failure"
            /\ Checkpoint.error_message c <> None
            /\ Checkpoint.records_processed c = 0
            /\ l <> []
            /\ unified_crypto_data (db w') = unified_crypto_data (db w)
            /\ (table (db w') = table (db w)
                \/ table (db w') = table (db w) ++ l))).

(** The checkpoint of [s] in [w'] carries the clock readings of the run. *)
Definition stamped (s : string) (env : Surroundings) (w' : World) : Prop :=
  exists c,
    fst (get_checkpoint s w') = Ok (Some c)
    /\ Checkpoint.last_run_timestamp c = utcnow env
    /\ Checkpoint.duration_seconds c = Some (time_end env - time_start env)%Q
    /\ fst (get_last_successful_run s w')
       = Ok (if (Checkpoint.status c =? "success")%string
             then Some (utcnow env) else None).

(** The second of two runs, from [w] to [w1] and from [w1] to [w2], leaves
    the unified rows of the first and appends the same raw rows again. *)
Definition repeated {Raw : Type} (table : DB -> list Raw) (w w1 w2 : World)
  : Prop :=
  unified_crypto_data (db w2) = unified_crypto_data (db w1)
  /\ exists l,
       table (db w1) = table (db w) ++ l
       /\ table (db w2) = table (db w1) ++ l.

(** The sum of the counts of a list of checkpoints. *)
Definition sum_records (rows : list Checkpoint.t) : Z :=
  fold_right Z.add 0 (map Checkpoint.records_processed rows).

(** ** Inputs used in the examples *)

(** A provider that answers every request with status 429. *)
Definition rate_limited_forever : nat -> GetOutcome (list unit) :=
  fun _ => GetReturns {| status_code := 429; json := Ok [] |}.

(** A provider that cannot be reached. *)
Definition unreachable : nat -> GetOutcome (list unit) :=
  fun _ => GetRaises (RequestException "connection refused").

Definition eight_attempts : Settings :=
  {| max_retries := 8;
     initial_retry_delay := 1;
     max_retry_delay := 60;
     rate_limit_delay := 1 # 2 |}.

(** Settings whose first delay is above the cap. *)
Definition long_first_delay : Settings :=
  {| max_retries := 3;
     initial_retry_delay := 100;
     max_retry_delay := 60;
     rate_limit_delay := 1 # 2 |}.

Definition quiet : Surroundings :=
  {| utcnow := 1000;
     time_start := 10;
     time_end := 12;
     raw_faults := no_faults;
     unified_faults := no_faults;
     checkpoint_faults := no_faults |}.

Definition empty_world : World := {| db := empty_db; log := [] |}.

(** A record of the store, for the key (btc, csv, T). *)
Definition btc (T : Z) (price : Q) : UnifiedCryptoDataSchema.t :=
  {| UnifiedCryptoDataSchema.coin_id := "btc";
     UnifiedCryptoDataSchema.name := "Bitcoin";
     UnifiedCryptoDataSchema.symbol := "BTC";
     UnifiedCryptoDataSchema.price_usd := Some price;
     UnifiedCryptoDataSchema.market_cap := None;
     UnifiedCryptoDataSchema.volume_24h := None;
     UnifiedCryptoDataSchema.source := "csv";
     UnifiedCryptoDataSchema.ingested_at := T |}.

(** A world in which the CSV source is marked as running. *)
Definition csv_running : World :=
  snd (start_run "csv" 1000 no_faults empty_world).

(** Nothing outside answers: both providers are unreachable and the file is
    missing. *)
Definition nothing_outside : Outside unit unit unit :=
  {| coinpaprika_api :=
       {| settings := default_settings;
          session_get := unreachable;
          parse_item := fun _ => Raise (Exception "no item") |};
     coinpaprika_env := quiet;
     coingecko_api :=
       {| settings := default_settings;
          session_get := unreachable;
          parse_item := fun _ => Raise (Exception "no item") |};
     coingecko_env := quiet;
     csv_file := NotFound;
     csv_parse_row := fun _ => Raise (Exception "no row");
     csv_env := quiet |}.

(** A world whose checkpoint for "x" reports a finished run of 5 records. *)
Definition x_succeeded : World :=
  snd (complete_run "x" 5 2 true None no_faults
         (snd (start_run "x" 1000 no_faults empty_world))).

(** Row [i] of an example file; row 1 carries no coin identifier. *)
Definition csv_row (i : nat) : RawCSVSchema.t :=
  {| RawCSVSchema.coin_id := if (i =? 1)%nat then VNone else VStr "btc-bitcoin";
     RawCSVSchema.name := VStr "Bitcoin";
     RawCSVSchema.symbol := VStr "BTC";
     RawCSVSchema.price_usd := VFloat 45000;
     RawCSVSchema.market_cap := VNone;
     RawCSVSchema.volume_24h := VNone;
     RawCSVSchema.ingested_at := VDatetime (1000 + Z.of_nat i) |}.

(** A file of three rows behind the CSV source, the providers unreachable. *)
Definition three_rows (env : Surroundings) : Outside unit unit nat :=
  {| coinpaprika_api := coinpaprika_api nothing_outside;
     coinpaprika_env := quiet;
     coingecko_api := coingecko_api nothing_outside;
     coingecko_env := quiet;
     csv_file := Rows [0; 1; 2]%nat;
     csv_parse_row := fun i => Ok (csv_row i);
     csv_env := env |}.

(** The storage fails on the first statement of the unified load. *)
Definition unified_load_fails : Surroundings :=
  {| utcnow := 1000;
     time_start := 10;
     time_end := 12;
     raw_faults := no_faults;
     unified_faults := fun i =>
       if (i =? 0)%nat then Some (Exception "connection lost") else None;
     checkpoint_faults := no_faults |}.

(** One ticker as the CoinPaprika fetcher builds it. *)
Definition ticker : RawCoinPaprikaSchema.t :=
  {| RawCoinPaprikaSchema.coin_id := VStr "btc-bitcoin";
     RawCoinPaprikaSchema.name := VStr "Bitcoin";
     RawCoinPaprikaSchema.symbol := VStr "BTC";
     RawCoinPaprikaSchema.rank := VInt 1;
     RawCoinPaprikaSchema.price_usd := VFloat 45000;
     RawCoinPaprikaSchema.market_cap := VNone;
     RawCoinPaprikaSchema.volume_24h := VNone;
     RawCoinPaprikaSchema.circulating_supply := VNone;
     RawCoinPaprikaSchema.total_supply := VNone;
     RawCoinPaprikaSchema.max_supply := VNone;
     RawCoinPaprikaSchema.percent_change_24h := VNone;
     RawCoinPaprikaSchema.raw_json := VStr "{}";
     RawCoinPaprikaSchema.ingested_at := VDatetime 1000 |}.

(** The storage refuses the raw batch. *)
Definition raw_load_fails : Surroundings :=
  {| utcnow := 1000;
     time_start := 10;
     time_end := 12;
     raw_faults := fun i =>
       if (i =? 0)%nat then Some (Exception "disk full") else None;
     unified_faults := no_faults;
     checkpoint_faults := no_faults |}.

(** CoinPaprika answers with one ticker and the storage refuses its raw
    batch; CoinGecko is unreachable; the file has three rows. *)
Definition first_source_fails : Outside unit unit nat :=
  {| coinpaprika_api :=
       {| settings := default_settings;
          session_get := fun _ =>
            GetReturns {| status_code := 200; json := Ok [tt] |};
          parse_item := fun _ => Ok ticker |};
     coinpaprika_env := raw_load_fails;
     coingecko_api := coingecko_api nothing_outside;
     coingecko_env := quiet;
     csv_file := Rows [0; 1; 2]%nat;
     csv_parse_row := fun i => Ok (csv_row i);
     csv_env := quiet |}.

(** The storage is lost once [start_run] has committed: it refuses the raw
    batch and every later statement of the checkpoint manager. *)
Definition storage_lost_after_start : Surroundings :=
  {| utcnow := 1000;
     time_start := 10;
     time_end := 12;
     raw_faults := fun _ => Some (Exception "connection lost");
     unified_faults := fun _ => Some (Exception "connection lost");
     checkpoint_faults := fun i =>
       if (i <? 3)%nat then None else Some (Exception "connection lost") |}.

(** CoinPaprika answers with one ticker and the storage is lost during its
    run; the file has three rows. *)
Definition storage_lost_in_first_run : Outside unit unit nat :=
  {| coinpaprika_api := coinpaprika_api first_source_fails;
     coinpaprika_env := storage_lost_after_start;
     coingecko_api := coingecko_api nothing_outside;
     coingecko_env := quiet;
     csv_file := Rows [0; 1; 2]%nat;
     csv_parse_row := fun i => Ok (csv_row i);
     csv_env := quiet |}.

(** The world that [run_all] leaves then, started on an empty database. *)
Definition after_storage_loss : World :=
  snd (@run_all exact_types unit unit nat storage_lost_in_first_run
         empty_world).

Definition answers_second_time : nat -> GetOutcome (list unit) :=
  fun attempt =>
    match attempt with
    | O => GetReturns {| status_code := 429; json := Ok [] |}
    | S _ => GetReturns {| status_code := 200; json := Ok [tt] |}
    end.

(** A provider that times out once and then answers with a body that is no
    JSON. *)
Definition fails_then_breaks : nat -> GetOutcome (list unit) :=
  fun attempt =>
    match attempt with
    | O => GetRaises (RequestException "timed out")
    | S _ => GetRaises (Exception "invalid json")
    end.

(** A request for the statistics or the health of the service. *)
Definition probe : Request :=
  {| uuid4 := "00000000-0000-4000-8000-000000000000";
     latency_ms := 3 # 2;
     db_connected := true;
     now := 2000;
     isoformat := fun _ => "1970-01-01T00:16:40" |}.

(** * Properties *)

(** ** The retry loop *)

Lemma backoff_delays_app (tr1 tr2 : list event) :
  backoff_delays (tr1 ++ tr2) = backoff_delays tr1 ++ backoff_delays tr2.
Proof.
  induction tr1 as [|[a|d|d] tr1 IH]; simpl; rewrite ?IH; reflexivity.
Qed.

Lemma requests_sent_app (tr1 tr2 : list event) :
  requests_sent (tr1 ++ tr2) = (requests_sent tr1 + requests_sent tr2)%nat.
Proof.
  induction tr1 as [|[a|d|d] tr1 IH]; simpl; rewrite ?IH; reflexivity.
Qed.

Lemma time_sleep_returns (secs : Q) :
  (0 <= secs)%Q -> time_sleep secs = Ok tt.
Proof.
  intros Hle. unfold time_sleep.
  rewrite (proj2 (Qle_bool_iff 0 secs) Hle). reflexivity.
Qed.

Lemma time_sleep_raises (secs : Q) :
  (secs < 0)%Q ->
  time_sleep secs = Raise (Exception "sleep length must be non-negative").
Proof.
  intros Hlt. unfold time_sleep.
  destruct (Qle_bool 0 secs) eqn:E; [|reflexivity].
  apply Qle_bool_iff in E. lra.
Qed.

Section RetryLoop.
Context {J : Type}.
Variable cfg : Settings.
Variable net : nat -> GetOutcome J.

(** The [try] block sends one request and never backs off by itself. *)
Lemma try_block_events (attempt : nat) :
  backoff_delays (snd (try_block cfg net attempt)) = []
  /\ requests_sent (snd (try_block cfg net attempt)) = 1%nat.
Proof.
  unfold try_block.
  destruct (net attempt) as [e|r]; simpl; auto.
  destruct (status_code r =? 429); simpl; auto.
  destruct (raise_for_status r); simpl; auto.
  destruct (time_sleep (rate_limit_delay cfg)); simpl; auto.
  destruct (json r); simpl; auto.
Qed.

(** An iteration takes the back-off-and-retry path or ends the loop with the
    events of its [try] block. *)
Lemma attempts_cases (remaining attempt : nat) (delay : Q) :
  attempts cfg net (S remaining) attempt delay
  = backoff_and_retry cfg net remaining attempt delay
  \/ snd (attempts cfg net (S remaining) attempt delay)
     = snd (try_block cfg net attempt).
Proof.
  unfold backoff_and_retry. simpl.
  destruct (try_block cfg net attempt) as [[j| |[msg|msg]] evs]; simpl; auto.
  - destruct (time_sleep delay); [|right; reflexivity].
    left. destruct (attempts cfg net _ _ _); reflexivity.
  - destruct (Z.of_nat attempt =? max_retries cfg - 1); auto.
    destruct (time_sleep delay); [|right; reflexivity].
    left. destruct (attempts cfg net _ _ _); reflexivity.
Qed.

Lemma attempts_backoff_nth (remaining : nat) :
  forall (attempt : nat) (delay : Q) (k : nat) (d : Q),
    nth_error (backoff_delays (snd (attempts cfg net remaining attempt delay))) k
    = Some d ->
    d = Nat.iter k (next_delay cfg) delay.
Proof.
  induction remaining as [|remaining IH]; intros attempt delay k d Hk.
  - destruct k; discriminate.
  - destruct (attempts_cases remaining attempt delay) as [E|E];
      rewrite E in Hk.
    + unfold backoff_and_retry in Hk. cbn [snd] in Hk.
      rewrite backoff_delays_app, (proj1 (try_block_events attempt)) in Hk.
      cbn [app backoff_delays] in Hk.
      destruct k as [|k]; cbn [nth_error] in Hk.
      * injection Hk as <-. reflexivity.
      * apply IH in Hk. rewrite Hk. symmetry. apply Nat.iter_succ_r.
    + rewrite (proj1 (try_block_events attempt)) in Hk.
      destruct k; discriminate.
Qed.

Lemma attempts_requests_sent (remaining : nat) :
  forall (attempt : nat) (delay : Q),
    (requests_sent (snd (attempts cfg net remaining attempt delay))
     <= remaining)%nat.
Proof.
  induction remaining as [|remaining IH]; intros attempt delay.
  - simpl. lia.
  - destruct (attempts_cases remaining attempt delay) as [E|E]; rewrite E.
    + unfold backoff_and_retry. cbn [snd]. rewrite requests_sent_app.
      rewrite (proj2 (try_block_events attempt)). cbn [requests_sent].
      specialize (IH (S attempt) (next_delay cfg delay)). lia.
    + rewrite (proj2 (try_block_events attempt)). lia.
Qed.

(** A 429 answer on any iteration backs off and retries. *)
Lemma attempts_rate_limited (remaining attempt : nat) (delay : Q)
    (r : Response J) :
  (0 <= delay)%Q ->
  net attempt = GetReturns r -> status_code r = 429 ->
  attempts cfg net (S remaining) attempt delay
  = backoff_and_retry cfg net remaining attempt delay.
Proof.
  intros Hdelay Hget H429. unfold backoff_and_retry. simpl.
  unfold try_block. rewrite Hget, H429. simpl.
  rewrite time_sleep_returns by exact Hdelay.
  destruct (attempts cfg net _ _ _); reflexivity.
Qed.

(** A failed request retries in the same way, except on the last attempt. *)
Lemma attempts_request_failed (remaining attempt : nat) (delay : Q)
    (msg : string) :
  (0 <= delay)%Q ->
  net attempt = GetRaises (RequestException msg) ->
  Z.of_nat attempt <> max_retries cfg - 1 ->
  attempts cfg net (S remaining) attempt delay
  = backoff_and_retry cfg net remaining attempt delay.
Proof.
  intros Hdelay Hget Hlast. unfold backoff_and_retry. simpl.
  unfold try_block. rewrite Hget. simpl.
  destruct (Z.eqb_spec (Z.of_nat attempt) (max_retries cfg - 1));
    [contradiction|].
  rewrite time_sleep_returns by exact Hdelay.
  destruct (attempts cfg net _ _ _); reflexivity.
Qed.

(** On the last attempt a failed request is re-raised at once. *)
Lemma attempts_request_failed_last (remaining attempt : nat) (delay : Q)
    (msg : string) :
  net attempt = GetRaises (RequestException msg) ->
  Z.of_nat attempt = max_retries cfg - 1 ->
  attempts cfg net (S remaining) attempt delay
  = (Raise (RequestException msg), [EvGet attempt]).
Proof.
  intros Hget Hlast. simpl. unfold try_block. rewrite Hget.
  rewrite (proj2 (Z.eqb_eq _ _) Hlast). reflexivity.
Qed.

(** A negative delay ends the loop at the first back-off. *)
Lemma attempts_refused_sleep (remaining attempt : nat) (delay : Q) :
  (delay < 0)%Q ->
  fst (try_block cfg net attempt) = RateLimited ->
  attempts cfg net (S remaining) attempt delay
  = (Raise (Exception "sleep length must be non-negative"),
     snd (try_block cfg net attempt)).
Proof.
  intros Hdelay Htry. simpl.
  destruct (try_block cfg net attempt) as [out evs]. cbn [fst snd] in *.
  subst out. rewrite time_sleep_raises by exact Hdelay. reflexivity.
Qed.

Lemma next_delay_nonnegative (delay : Q) :
  (0 <= max_retry_delay cfg)%Q -> (0 <= delay)%Q ->
  (0 <= next_delay cfg delay)%Q.
Proof.
  intros Hmax Hdelay. unfold next_delay.
  destruct (Q.min_spec (delay * 2) (max_retry_delay cfg)) as [[_ E]|[_ E]];
    rewrite E; lra.
Qed.

Lemma iter_next_delay_nonnegative (k : nat) (delay : Q) :
  (0 <= max_retry_delay cfg)%Q -> (0 <= delay)%Q ->
  (0 <= Nat.iter k (next_delay cfg) delay)%Q.
Proof.
  intros Hmax Hdelay. induction k as [|k IH]; [exact Hdelay|].
  cbn [Nat.iter nat_rect]. apply next_delay_nonnegative; assumption.
Qed.
End RetryLoop.

Lemma pow2_ge_1 (k : nat) : (1 <= 2 ^ Z.of_nat k)%Q.
Proof.
  induction k as [|k IH].
  - simpl. lra.
  - rewrite Nat2Z.inj_succ, <- Z.add_1_r, Qpower_plus by (intro E; discriminate E).
    change (2 ^ 1)%Q with 2%Q. lra.
Qed.

Lemma iter_next_delay (s : Settings) (k : nat) :
  (initial_retry_delay s <= max_retry_delay s)%Q ->
  (Nat.iter k (next_delay s) (initial_retry_delay s)
   == Qmin (initial_retry_delay s * 2 ^ Z.of_nat k) (max_retry_delay s))%Q.
Proof.
  intros Hle. induction k as [|k IH].
  - simpl. rewrite Qmult_1_r. symmetry. apply Q.min_l. exact Hle.
  - simpl Nat.iter. unfold next_delay at 1.
    rewrite IH.
    rewrite Nat2Z.inj_succ, <- Z.add_1_r, Qpower_plus by (intro E; discriminate E).
    change (2 ^ 1)%Q with 2%Q.
    pose proof (pow2_ge_1 k) as Hp.
    set (p := (2 ^ Z.of_nat k)%Q) in *.
    set (i := initial_retry_delay s) in *. set (m := max_retry_delay s) in *.
    assert (Hq : (m < 0 -> i * p <= m)%Q) by (intro; nra).
    assert (E : (i * (p * 2) == i * p * 2)%Q) by ring.
    rewrite E. clearbody p i m. 
    set (q := (i * p)%Q) in *. clearbody q.
    destruct (Q.min_spec q m) as [[H1 H2]|[H1 H2]];
    destruct (Q.min_spec (Qmin q m * 2) m) as [[H3 H4]|[H3 H4]];
    destruct (Q.min_spec (q * 2) m) as [[H5 H6]|[H5 H6]];
    rewrite H4, H6; rewrite H2 in *; try lra.
    all: destruct (Qlt_le_dec m 0) as [Hm|Hm]; [specialize (Hq Hm)|]; lra.
Qed.

(** ** Checkpoint rows *)

Lemma for_source_true (s : string) (c : Checkpoint.t) :
  for_source s c = true <-> Checkpoint.source c = s.
Proof. unfold for_source. apply String.eqb_eq. Qed.

Lemma find_save_row_same (s : string) (c' : Checkpoint.t) (rows : list Checkpoint.t) :
  Checkpoint.source c' = s ->
  find (for_source s) rows <> None ->
  find (for_source s) (save_row s c' rows) = Some c'.
Proof.
  intros Hs. apply for_source_true in Hs.
  induction rows as [|c rows IH]; simpl; intros Hfound.
  - congruence.
  - destruct (for_source s c) eqn:E; simpl.
    + rewrite Hs. reflexivity.
    + rewrite E. auto.
Qed.

Lemma find_save_row_other (s s' : string) (c' : Checkpoint.t) (rows : list Checkpoint.t) :
  Checkpoint.source c' = s -> s' <> s ->
  find (for_source s') (save_row s c' rows) = find (for_source s') rows.
Proof.
  intros Hs Hne.
  assert (Hc' : for_source s' c' = false).
  { destruct (for_source s' c') eqn:E; [|reflexivity].
    apply for_source_true in E. congruence. }
  induction rows as [|c rows IH]; simpl.
  - reflexivity.
  - destruct (for_source s c) eqn:E; simpl.
    + rewrite Hc'. apply for_source_true in E.
      destruct (for_source s' c) eqn:E'; [|reflexivity].
      apply for_source_true in E'. congruence.
    + rewrite IH. reflexivity.
Qed.

Lemma find_app_new (s : string) (c : Checkpoint.t) (rows : list Checkpoint.t) :
  Checkpoint.source c = s ->
  find (for_source s) rows = None ->
  find (for_source s) (rows ++ [c]) = Some c.
Proof.
  intros Hs. apply for_source_true in Hs.
  induction rows as [|c0 rows IH]; simpl; intros Hnone.
  - rewrite Hs. reflexivity.
  - destruct (for_source s c0); [discriminate|auto].
Qed.

Lemma find_app_other (s s' : string) (c : Checkpoint.t) (rows : list Checkpoint.t) :
  Checkpoint.source c = s -> s' <> s ->
  find (for_source s') (rows ++ [c]) = find (for_source s') rows.
Proof.
  intros Hs Hne.
  induction rows as [|c0 rows IH]; simpl.
  - destruct (for_source s' c) eqn:E; [|reflexivity].
    apply for_source_true in E. congruence.
  - rewrite IH. reflexivity.
Qed.

(** ** The checkpoint manager, operation by operation *)

Lemma get_checkpoint_eq (s : string) (w : World) :
  get_checkpoint s w = (Ok (checkpoint_of s w), w).
Proof. reflexivity. Qed.

Lemma is_source_running_eq (s : string) (w : World) :
  is_source_running s w
  = (Ok match checkpoint_of s w with
        | Some c => (Checkpoint.status c =? "running")%string
        | None => false
        end, w).
Proof. reflexivity. Qed.

Lemma world_eta (w : World) : {| db := db w; log := log w |} = w.
Proof. reflexivity. Qed.

(** ** The loaders and the batch transformer, as equations *)

Lemma first_fault_last (faults : DbFaults) (n : nat) :
  forall i,
    first_fault faults i (S n)
    = match first_fault faults i n with
      | Some e => Some e
      | None => faults (i + n)%nat
      end.
Proof.
  induction n as [|n IH]; intros i.
  - simpl. rewrite Nat.add_0_r. destruct (faults i); reflexivity.
  - change (first_fault faults i (S (S n)))
      with (match faults i with
            | Some e => Some e
            | None => first_fault faults (S i) (S n)
            end).
    rewrite IH. simpl. rewrite Nat.add_succ_r.
    destruct (faults i); reflexivity.
Qed.

Lemma load_raw_eq {Raw : Type} (provider : string)
    (bulk : list Raw -> DB -> DB) (l : list Raw) (faults : DbFaults)
    (w : World) :
  load_raw provider bulk l faults w
  = match l with
    | [] => (Ok 0, w)
    | _ :: _ =>
        match first_fault faults 0 2 with
        | None =>
            (Ok (len l),
             {| db := bulk l (db w);
                log := log w ++ [(INFO, LoadedRaw provider (len l))] |})
        | Some e =>
            (Raise e,
             {| db := db w;
                log := log w ++ [(ERROR, FailedLoadRaw provider (str e))] |})
        end
    end.
Proof.
  destruct l as [|x l]; [reflexivity|].
  unfold load_raw, bind, try_except, query, write, commit. simpl.
  destruct (faults 0%nat); [reflexivity|].
  destruct (faults 1%nat); reflexivity.
Qed.

Lemma execute_all_eq (l : list UnifiedCryptoDataSchema.t) (faults : DbFaults) :
  forall (i : nat) (w : World),
    match first_fault faults i (List.length l) with
    | None =>
        execute_all l i faults w
        = (Ok tt,
           {| db := on_unified_crypto_data (upsert_all l) (db w);
              log := log w |})
    | Some e =>
        fst (execute_all l i faults w) = Raise e
        /\ log (snd (execute_all l i faults w)) = log w
    end.
Proof.
  induction l as [|data l IH]; intros i w.
  - reflexivity.
  - simpl. unfold bind, write.
    destruct (faults i) as [e|]; [split; reflexivity|].
    specialize (IH (S i)
      {| db := on_unified_crypto_data (insert_on_conflict_do_update data) (db w);
         log := log w |}).
    destruct (first_fault faults (S i) (List.length l)); exact IH.
Qed.

Lemma load_unified_data_eq (l : list UnifiedCryptoDataSchema.t)
    (faults : DbFaults) (w : World) :
  load_unified_data l faults w
  = match l with
    | [] => (Ok 0, w)
    | _ :: _ =>
        match first_fault faults 0 (S (List.length l)) with
        | None =>
            (Ok (len l),
             {| db := on_unified_crypto_data (upsert_all l) (db w);
                log := log w ++ [(INFO, LoadedUnified (len l))] |})
        | Some e =>
            (Raise e,
             {| db := db w;
                log := log w ++ [(ERROR, FailedLoadUnified (str e))] |})
        end
    end.
Proof.
  destruct l as [|x l]; [reflexivity|].
  rewrite first_fault_last.
  unfold load_unified_data, bind at 1, query, try_except.
  unfold bind at 1.
  pose proof (execute_all_eq (x :: l) faults 0 w) as Hexec.
  destruct (first_fault faults 0 (List.length (x :: l))) as [e|].
  - destruct Hexec as [Hr Hlog].
    destruct (execute_all (x :: l) 0 faults w) as [r w'].
    simpl in Hr, Hlog. subst r. unfold bind, rollback, logger, raise. simpl.
    rewrite Hlog. reflexivity.
  - rewrite Hexec. simpl. unfold bind, commit.
    destruct (faults (S (List.length l))); reflexivity.
Qed.

Lemma transform_loop_eq {Raw : Type} (provider : string)
    (transform : Raw -> result UnifiedCryptoDataSchema.t) (l : list Raw) :
  forall (results : list UnifiedCryptoDataSchema.t) (w : World),
    transform_loop provider transform l results w
    = (Ok (results ++ successes transform l),
       {| db := db w; log := log w ++ failures provider transform l |}).
Proof.
  induction l as [|raw l IH]; intros results w; simpl.
  - rewrite !app_nil_r. reflexivity.
  - unfold bind, try_except, lift. 
    destruct (transform raw) as [u|e]; simpl.
    + rewrite IH, <- app_assoc. reflexivity.
    + rewrite IH. simpl. rewrite <- app_assoc. reflexivity.
Qed.

Lemma transform_batch_eq {Raw : Type} (provider : string)
    (transform : Raw -> result UnifiedCryptoDataSchema.t) (l : list Raw)
    (w : World) :
  transform_batch provider transform l w
  = (Ok (successes transform l),
     {| db := db w; log := log w ++ failures provider transform l |}).
Proof. unfold transform_batch. rewrite transform_loop_eq. reflexivity. Qed.

(** ** One run of one source *)

(** What the two operations do when the storage accepts their query and
    their commit. *)
Lemma complete_run_found (s : string) (n : Z) (d : Q) (success : bool)
    (err : option string) (faults : DbFaults) (w : World) (c : Checkpoint.t) :
  faults 0%nat = None -> faults 1%nat = None ->
  checkpoint_of s w = Some c ->
  exists f,
    complete_run s n d success err faults w
    = (Ok tt, {| db := on_checkpoints f (db w);
                 log := log w ++ [(INFO, CompletedRun s success n d)] |})
    /\ find (for_source s) (f (checkpoints (db w)))
       = Some (completed c success n d err)
    /\ (forall s', s' <> s ->
          find (for_source s') (f (checkpoints (db w)))
          = find (for_source s') (checkpoints (db w))).
Proof.
  intros Hq Hw Hc. unfold complete_run, bind, execute.
  rewrite Hq, Hw, get_checkpoint_eq, Hc.
  assert (Hs : Checkpoint.source c = s)
    by (apply for_source_true; eapply find_some; eauto).
  eexists. split; [reflexivity|]. split.
  - apply find_save_row_same; [assumption|]. unfold checkpoint_of in Hc. congruence.
  - intros s' Hne. apply find_save_row_other; assumption.
Qed.

Lemma complete_run_missing (s : string) (n : Z) (d : Q) (success : bool)
    (err : option string) (faults : DbFaults) (w : World) :
  faults 0%nat = None ->
  checkpoint_of s w = None ->
  complete_run s n d success err faults w
  = (Ok tt, {| db := db w; log := log w ++ [(ERROR, NoCheckpointFound s)] |}).
Proof.
  intros Hq Hc. unfold complete_run, bind, execute.
  rewrite Hq, get_checkpoint_eq, Hc. reflexivity.
Qed.

Lemma start_run_found (s : string) (utcnow : Z) (faults : DbFaults)
    (w : World) :
  faults 0%nat = None -> faults 1%nat = None ->
  exists f,
    start_run s utcnow faults w
    = (Ok (started (checkpoint_of s w) s utcnow),
       {| db := on_checkpoints f (db w);
          log := log w ++ [(INFO, StartedRun s)] |})
    /\ find (for_source s) (f (checkpoints (db w)))
       = Some (started (checkpoint_of s w) s utcnow)
    /\ (forall s', s' <> s ->
          find (for_source s') (f (checkpoints (db w)))
          = find (for_source s') (checkpoints (db w))).
Proof.
  intros Hq Hw. unfold start_run, bind, execute.
  rewrite Hq, Hw, get_checkpoint_eq.
  unfold checkpoint_of.
  destruct (find (for_source s) (checkpoints (db w))) as [c|] eqn:E.
  - assert (Hc : Checkpoint.source c = s)
      by (apply for_source_true; eapply find_some; eauto).
    eexists. split; [reflexivity|]. split.
    + apply find_save_row_same; [assumption|congruence].
    + intros s' Hne. apply find_save_row_other; assumption.
  - eexists. split; [reflexivity|]. split.
    + apply find_app_new; [reflexivity|assumption].
    + intros s' Hne. apply find_app_other with (s := s); [reflexivity|assumption].
Qed.

(** A refused query or commit: the exception leaves the call and the
    database is as it was. *)
Lemma start_run_refused (s : string) (utcnow : Z) (faults : DbFaults)
    (w : World) (e : exn) :
  first_fault faults 0 2 = Some e ->
  start_run s utcnow faults w = (Raise e, w).
Proof.
  unfold start_run, bind, execute. cbn [first_fault].
  destruct (faults 0%nat) as [e0|]; [intros E; injection E as ->; reflexivity|].
  rewrite get_checkpoint_eq.
  destruct (faults 1%nat) as [e1|]; [|discriminate].
  intros E. injection E as ->.
  destruct (checkpoint_of s w); reflexivity.
Qed.

Lemma complete_run_refused (s : string) (n : Z) (d : Q) (success : bool)
    (err : option string) (faults : DbFaults) (w : World) (e : exn) :
  faults 0%nat = Some e
  \/ (faults 0%nat = None /\ faults 1%nat = Some e
      /\ checkpoint_of s w <> None) ->
  complete_run s n d success err faults w = (Raise e, w).
Proof.
  unfold complete_run, bind, execute.
  intros [E|(E0 & E1 & Hc)].
  - rewrite E. reflexivity.
  - rewrite E0, E1, get_checkpoint_eq.
    destruct (checkpoint_of s w); [reflexivity|contradiction].
Qed.

(** Both operations change the checkpoints only. *)
Lemma start_run_db (s : string) (utcnow : Z) (faults : DbFaults) (w : World) :
  exists f,
    db (snd (start_run s utcnow faults w)) = on_checkpoints f (db w).
Proof.
  destruct (first_fault faults 0 2) as [e|] eqn:E.
  - rewrite (start_run_refused s utcnow faults w e E).
    exists (fun rows => rows). reflexivity.
  - cbn [first_fault] in E.
    destruct (faults 0%nat) eqn:E0; [discriminate|].
    destruct (faults 1%nat) eqn:E1; [discriminate|].
    destruct (start_run_found s utcnow faults w E0 E1) as (f & -> & _).
    exists f. reflexivity.
Qed.

Lemma complete_run_db (s : string) (n : Z) (d : Q) (success : bool)
    (err : option string) (faults : DbFaults) (w : World) :
  exists f,
    db (snd (complete_run s n d success err faults w))
    = on_checkpoints f (db w).
Proof.
  destruct (faults 0%nat) as [e|] eqn:E0.
  - rewrite (complete_run_refused s n d success err faults w e)
      by (left; exact E0).
    exists (fun rows => rows). reflexivity.
  - destruct (checkpoint_of s w) as [c|] eqn:Ec.
    + destruct (faults 1%nat) as [e|] eqn:E1.
      * rewrite (complete_run_refused s n d success err faults w e)
          by (right; rewrite Ec; repeat split; congruence).
        exists (fun rows => rows). reflexivity.
      * destruct (complete_run_found s n d success err faults w c E0 E1 Ec)
          as (f & -> & _).
        exists f. reflexivity.
    + rewrite complete_run_missing by assumption.
      exists (fun rows => rows). reflexivity.
Qed.



Section RunFacts.
Context {Raw : Type}.
Variables source_name provider provider' : string.
Variable bulk : list Raw -> DB -> DB.
Variable transform : Raw -> result UnifiedCryptoDataSchema.t.
Hypothesis bulk_checkpoints :
  forall l d, checkpoints (bulk l d) = checkpoints d.
Hypothesis bulk_commutes :
  forall l f d, bulk l (on_checkpoints f d) = on_checkpoints f (bulk l d).

Local Abbreviation run :=
  (run_source source_name (load_raw provider bulk)
     (transform_batch provider' transform)).
Local Abbreviation try_body :=
  (run_try source_name (load_raw provider bulk)
     (transform_batch provider' transform)).

Lemma run_when_running (fetched : result (list Raw)) (env : Surroundings)
    (w : World) :
  checkpoint_faults env 0%nat = None ->
  fst (is_source_running source_name w) = Ok true ->
  run fetched env w
  = (Ok tt,
     {| db := db w;
        log := log w ++ [(INFO, StartingETL source_name);
                         (WARNING, AlreadyRunning source_name)] |}).
Proof.
  rewrite is_source_running_eq. simpl. intros Hq Hrun.
  unfold run_source, try_except, run_try, bind, execute. rewrite Hq.
  unfold logger at 1. rewrite is_source_running_eq.
  change (checkpoint_of source_name _) with (checkpoint_of source_name w).
  destruct (checkpoint_of source_name w) as [c|]; [|discriminate].
  injection Hrun as ->. unfold logger. simpl. rewrite <- app_assoc.
  reflexivity.
Qed.

Lemma steps_checkpoints (fetched : result (list Raw)) (env : Surroundings)
    (d : DB) :
  checkpoints (snd (steps bulk transform fetched env) d) = checkpoints d.
Proof.
  unfold steps. destruct fetched as [[|x l]|e]; try reflexivity.
  destruct (first_fault (raw_faults env) 0 2); try reflexivity.
  destruct (successes transform (x :: l)); cbn [snd];
    [apply bulk_checkpoints|].
  destruct (first_fault (unified_faults env) _ _); cbn [snd];
    apply bulk_checkpoints.
Qed.

Lemma steps_commutes (fetched : result (list Raw)) (env : Surroundings)
    (f : list Checkpoint.t -> list Checkpoint.t) (d : DB) :
  snd (steps bulk transform fetched env) (on_checkpoints f d)
  = on_checkpoints f (snd (steps bulk transform fetched env) d).
Proof.
  unfold steps. destruct fetched as [[|x l]|e]; try reflexivity.
  destruct (first_fault (raw_faults env) 0 2); try reflexivity.
  destruct (successes transform (x :: l)); cbn [snd];
    [apply bulk_commutes|].
  destruct (first_fault (unified_faults env) _ _); cbn [snd];
    rewrite bulk_commutes; reflexivity.
Qed.

Lemma run_try_not_running (fetched : result (list Raw)) (env : Surroundings)
    (w : World) :
  not_running source_name w ->
  checkpoints_answer env ->
  let outcome := steps bulk transform fetched env in
  let c := started (checkpoint_of source_name w) source_name (utcnow env) in
  exists f lg,
    try_body fetched env w
    = (match fst outcome with Ok _ => Ok tt | Raise e => Raise e end,
       {| db := on_checkpoints f (snd outcome (db w)); log := lg |})
    /\ find (for_source source_name) (f (checkpoints (db w)))
       = Some match fst outcome with
              | Ok n =>
                  completed c true n (time_end env - time_start env)%Q None
              | Raise _ => c
              end
    /\ (forall s', s' <> source_name ->
          find (for_source s') (f (checkpoints (db w)))
          = find (for_source s') (checkpoints (db w))).
Proof.
  unfold not_running. rewrite is_source_running_eq. simpl. intros Hrun Hcp.
  assert (Hguard : match checkpoint_of source_name w with
                   | Some c => (Checkpoint.status c =? "running")%string
                   | None => false
                   end = false) by congruence.
  clear Hrun.
  cbv [run_try bind logger lift execute]. rewrite (Hcp 0%nat).
  rewrite is_source_running_eq.
  change (checkpoint_of source_name _) with (checkpoint_of source_name w).
  rewrite Hguard.
  destruct (start_run_found source_name (utcnow env)
              (fun i => checkpoint_faults env (1 + i)%nat)
              {| db := db w; log := log w ++ [(INFO, StartingETL source_name)] |}
              (Hcp 1%nat) (Hcp 2%nat))
    as (f1 & -> & Hf1 & Hframe1).
  change (checkpoint_of source_name _) with (checkpoint_of source_name w) in *.
  cbn [db log] in *.
  set (w1 := {| db := on_checkpoints f1 (db w); log := _ |}).
  assert (Hw1 : checkpoint_of source_name w1
                = Some (started (checkpoint_of source_name w) source_name
                          (utcnow env))) by exact Hf1.
  destruct fetched as [[|x l]|e].
  - (* nothing fetched *)
    cbn [steps fst snd].
    destruct (complete_run_found source_name 0
                (time_end env - time_start env)%Q true None
                (fun i => checkpoint_faults env (3 + i)%nat)
                {| db := db w1;
                   log := log w1 ++ [(WARNING, NoDataFetched source_name)] |}
                _ (Hcp 3%nat) (Hcp 4%nat) Hw1) as (f2 & -> & Hf2 & Hframe2).
    exists (fun rows => f2 (f1 rows)). eexists.
    split; [reflexivity|]. split; [exact Hf2|].
    intros s' Hne. cbn [db checkpoints on_checkpoints w1] in Hframe2.
    rewrite Hframe2 by assumption. auto.
  - (* a batch was fetched *)
    rewrite load_raw_eq. unfold steps.
    destruct (first_fault (raw_faults env) 0 2) as [e|].
    { exists f1. eexists. cbn [fst snd]. repeat split; assumption. }
    rewrite transform_batch_eq, load_unified_data_eq.
    cbn [db log].
    destruct (successes transform (x :: l)) as [|u us].
    + cbn [fst snd].
      match goal with
      | |- context [complete_run _ _ _ _ _ _ ?w2] =>
          destruct (complete_run_found source_name 0
                      (time_end env - time_start env)%Q true None
                      (fun i => checkpoint_faults env (3 + i)%nat) w2
                      (started (checkpoint_of source_name w) source_name
                         (utcnow env)) (Hcp 3%nat) (Hcp 4%nat))
            as (f2 & -> & Hf2 & Hframe2)
      end.
      { unfold checkpoint_of. cbn [db]. rewrite bulk_checkpoints. exact Hf1. }
      cbn [db log checkpoints on_checkpoints w1] in *.
      rewrite bulk_checkpoints in Hf2, Hframe2.
      exists (fun rows => f2 (f1 rows)). eexists.
      split; [|split; [exact Hf2|]].
      * rewrite bulk_commutes. reflexivity.
      * intros s' Hne. rewrite Hframe2 by assumption. auto.
    + destruct (first_fault (unified_faults env) 0 (S (List.length (u :: us))))
        as [e|].
      { exists f1. eexists. cbn [fst snd]. unfold w1. cbn [db].
        split; [|split; assumption].
        rewrite bulk_commutes. reflexivity. }
      cbn [fst snd].
      match goal with
      | |- context [complete_run _ _ _ _ _ _ ?w2] =>
          destruct (complete_run_found source_name (len (u :: us))
                      (time_end env - time_start env)%Q true None
                      (fun i => checkpoint_faults env (3 + i)%nat) w2
                      (started (checkpoint_of source_name w) source_name
                         (utcnow env)) (Hcp 3%nat) (Hcp 4%nat))
            as (f2 & -> & Hf2 & Hframe2)
      end.
      { unfold checkpoint_of. cbn [db on_unified_crypto_data checkpoints].
        rewrite bulk_checkpoints. exact Hf1. }
      cbn [db log checkpoints on_checkpoints on_unified_crypto_data w1] in *.
      rewrite bulk_checkpoints in Hf2, Hframe2.
      exists (fun rows => f2 (f1 rows)). eexists.
      split; [|split; [exact Hf2|]].
      * rewrite bulk_commutes. reflexivity.
      * intros s' Hne. rewrite Hframe2 by assumption. auto.
  - (* the fetch raised *)
    exists f1. eexists. cbn [steps fst snd]. repeat split; assumption.
Qed.

Lemma run_when_not_running (fetched : result (list Raw)) (env : Surroundings)
    (w : World) :
  not_running source_name w ->
  checkpoints_answer env ->
  let outcome := steps bulk transform fetched env in
  exists f,
    fst (run fetched env w) = Ok tt
    /\ db (snd (run fetched env w)) = on_checkpoints f (snd outcome (db w))
    /\ find (for_source source_name) (f (checkpoints (db w)))
       = Some (final_checkpoint (checkpoint_of source_name w) source_name env
                 (fst outcome))
    /\ (forall s', s' <> source_name ->
          find (for_source s') (f (checkpoints (db w)))
          = find (for_source s') (checkpoints (db w)))
    /\ fst (try_body fetched env w)
       = match fst outcome with Ok _ => Ok tt | Raise e => Raise e end.
Proof.
  intros Hguard Hcp outcome.
  destruct (run_try_not_running fetched env w Hguard Hcp)
    as (f & lg & E & Hf & Hframe).
  fold outcome in E, Hf.
  unfold run_source, try_except. rewrite E.
  destruct (fst outcome) as [n|e] eqn:Hout.
  - exists f. cbn [fst snd db]. unfold final_checkpoint. rewrite ?Hout. auto.
  - cbv [bind logger]. cbn [db log].
    match goal with
    | |- context [complete_run _ _ _ _ _ _ ?w2] =>
        destruct (complete_run_found source_name 0
                    (time_end env - time_start env)%Q false (Some (str e))
                    (fun i => checkpoint_faults env (5 + i)%nat) w2
                    (started (checkpoint_of source_name w) source_name
                       (utcnow env)) (Hcp 5%nat) (Hcp 6%nat))
          as (f2 & -> & Hf2 & Hframe2)
    end.
    { unfold checkpoint_of. cbn [db on_checkpoints checkpoints].
      unfold outcome. rewrite steps_checkpoints. exact Hf. }
    cbn [db log checkpoints on_checkpoints] in *.
    unfold outcome in Hf2, Hframe2. rewrite steps_checkpoints in Hf2, Hframe2.
    exists (fun rows => f2 (f rows)). cbn [fst snd db].
    unfold final_checkpoint. rewrite ?Hout.
    repeat split; try assumption.
    intros s' Hne. rewrite Hframe2 by assumption. auto.
Qed.

Lemma run_returns (fetched : result (list Raw)) (env : Surroundings)
    (w : World) :
  checkpoints_answer env ->
  fst (run fetched env w) = Ok tt.
Proof.
  intros Hcp.
  destruct (fst (is_source_running source_name w)) as [[|]|e] eqn:E.
  - rewrite run_when_running by (try exact (Hcp 0%nat); assumption).
    reflexivity.
  - destruct (run_when_not_running fetched env w E Hcp) as (f & H & _).
    exact H.
  - rewrite is_source_running_eq in E. discriminate.
Qed.
End RunFacts.

Section RunReports.
Context {Raw : Type}.
Variables source_name provider provider' : string.
Variable bulk : list Raw -> DB -> DB.
Variable transform : Raw -> result UnifiedCryptoDataSchema.t.
Hypothesis bulk_checkpoints :
  forall l d, checkpoints (bulk l d) = checkpoints d.
Hypothesis bulk_commutes :
  forall l f d, bulk l (on_checkpoints f d) = on_checkpoints f (bulk l d).

Local Abbreviation run :=
  (run_source source_name (load_raw provider bulk)
     (transform_batch provider' transform)).
Local Abbreviation try_body :=
  (run_try source_name (load_raw provider bulk)
     (transform_batch provider' transform)).

Lemma run_reports (fetched : result (list Raw)) (env : Surroundings)
    (w : World) :
  not_running source_name w ->
  checkpoints_answer env ->
  reports source_name
    (if raises (fst (steps bulk transform fetched env))
     then "failure" else "success")
    match fst (steps bulk transform fetched env) with
    | Ok n => n
    | Raise _ => 0
    end
    match fst (steps bulk transform fetched env) with
    | Ok _ => None
    | Raise e => Some (str e)
    end
    (snd (run fetched env w)).
Proof.
  intros Hguard Hcp.
  destruct (run_when_not_running source_name provider provider' bulk transform
              bulk_checkpoints bulk_commutes fetched env w Hguard Hcp)
    as (f & _ & Hdb & Hf & _).
  eexists. split.
  - rewrite get_checkpoint_eq. cbn [fst]. unfold checkpoint_of.
    rewrite Hdb. cbn [on_checkpoints checkpoints].
    rewrite steps_checkpoints by assumption. rewrite Hf. reflexivity.
  - unfold final_checkpoint.
    destruct (fst (steps bulk transform fetched env)); simpl; auto.
Qed.

Lemma run_tables (fetched : result (list Raw)) (env : Surroundings)
    (w : World) :
  not_running source_name w ->
  checkpoints_answer env ->
  exists f,
    db (snd (run fetched env w))
    = on_checkpoints f (snd (steps bulk transform fetched env) (db w)).
Proof.
  intros Hguard Hcp.
  destruct (run_when_not_running source_name provider provider' bulk transform
              bulk_checkpoints bulk_commutes fetched env w Hguard Hcp)
    as (f & _ & Hdb & _).
  exists f. exact Hdb.
Qed.

Lemma run_try_raises (fetched : result (list Raw)) (env : Surroundings)
    (w : World) (e : exn) :
  not_running source_name w ->
  checkpoints_answer env ->
  fst (try_body fetched env w) = Raise e ->
  fst (steps bulk transform fetched env) = Raise e.
Proof.
  intros Hguard Hcp Hraise.
  destruct (run_when_not_running source_name provider provider' bulk transform
              bulk_checkpoints bulk_commutes fetched env w Hguard Hcp)
    as (f & _ & _ & _ & _ & Htry).
  rewrite Htry in Hraise.
  destruct (fst (steps bulk transform fetched env)); congruence.
Qed.

(** The [try] block cannot raise when the guard stops the run. *)
Lemma run_try_running (fetched : result (list Raw)) (env : Surroundings)
    (w : World) :
  checkpoint_faults env 0%nat = None ->
  fst (is_source_running source_name w) = Ok true ->
  fst (try_body fetched env w) = Ok tt.
Proof.
  rewrite is_source_running_eq. cbn [fst]. intros Hq Hrun.
  cbv [run_try bind logger execute]. rewrite Hq, is_source_running_eq.
  change (checkpoint_of source_name _) with (checkpoint_of source_name w).
  destruct (checkpoint_of source_name w); [|discriminate].
  injection Hrun as ->. reflexivity.
Qed.

(** When the storage answers the checkpoint manager, a raised exception
    ends as a recorded failure. *)
Lemma run_failure_recorded (fetched : result (list Raw)) (env : Surroundings)
    (w : World) (e : exn) :
  checkpoints_answer env ->
  fst (try_body fetched env w) = Raise e ->
  reports source_name "failure" 0 (Some (str e)) (snd (run fetched env w)).
Proof.
  intros Hcp Hraise.
  destruct (fst (is_source_running source_name w)) as [[|]|e'] eqn:E.
  - rewrite run_try_running in Hraise
      by (try exact (Hcp 0%nat); assumption).
    discriminate.
  - pose proof (run_try_raises fetched env w e E Hcp Hraise) as Hsteps.
    pose proof (run_reports fetched env w E Hcp) as Hrep.
    rewrite Hsteps in Hrep. exact Hrep.
  - rewrite is_source_running_eq in E. discriminate.
Qed.
End RunReports.

(** ** Effects of the operations, compositionally *)

Section Within.
Variable R : DB -> DB -> Prop.
Hypothesis R_refl : forall d, R d d.
Hypothesis R_trans : forall d1 d2 d3, R d1 d2 -> R d2 d3 -> R d1 d3.

Lemma within_same {A : Type} (m : M A) :
  (forall w, db (snd (m w)) = db w) -> within R m.
Proof. intros Hsame w. rewrite Hsame. apply R_refl. Qed.

Lemma within_bind {A B : Type} (m : M A) (k : A -> M B) :
  within R m -> (forall a, within R (k a)) -> within R (bind m k).
Proof.
  intros Hm Hk w. unfold bind. specialize (Hm w).
  destruct (m w) as [[a|e] w']; cbn [snd] in *; [|exact Hm].
  eapply R_trans; [exact Hm|apply Hk].
Qed.

Lemma within_try_except {A : Type} (body : M A) (handler : exn -> M A) :
  within R body -> (forall e, within R (handler e)) ->
  within R (try_except body handler).
Proof.
  intros Hb Hh w. unfold try_except. specialize (Hb w).
  destruct (body w) as [[a|e] w']; cbn [snd] in *; [exact Hb|].
  eapply R_trans; [exact Hb|apply Hh].
Qed.

Lemma within_logger (l : level) (m : message) : within R (logger l m).
Proof. apply within_same. reflexivity. Qed.

Lemma within_is_source_running (s : string) : within R (is_source_running s).
Proof. apply within_same. reflexivity. Qed.

Lemma within_lift {A : Type} (r : result A) : within R (lift r).
Proof. apply within_same. reflexivity. Qed.

Lemma within_execute {A : Type} (fault : option exn) (m : M A) :
  within R m -> within R (execute fault m).
Proof.
  intros Hm. destruct fault as [e|]; [|exact Hm].
  apply within_same. reflexivity.
Qed.

Lemma within_transform_batch {Raw : Type} (provider : string)
    (transform : Raw -> result UnifiedCryptoDataSchema.t) (l : list Raw) :
  within R (transform_batch provider transform l).
Proof. apply within_same. intros w. rewrite transform_batch_eq. reflexivity. Qed.

Lemma within_load_raw {Raw : Type} (provider : string)
    (bulk : list Raw -> DB -> DB) (l : list Raw) (faults : DbFaults) :
  (forall d, R d (bulk l d)) -> within R (load_raw provider bulk l faults).
Proof.
  intros Hbulk w. rewrite load_raw_eq.
  destruct l as [|x l]; [apply R_refl|].
  destruct (first_fault faults 0 2); cbn [snd db]; [apply R_refl|apply Hbulk].
Qed.

Lemma within_load_unified_data (l : list UnifiedCryptoDataSchema.t)
    (faults : DbFaults) :
  (forall d, R d (on_unified_crypto_data (upsert_all l) d)) ->
  within R (load_unified_data l faults).
Proof.
  intros Hup w. rewrite load_unified_data_eq.
  destruct l as [|x l]; [apply R_refl|].
  destruct (first_fault faults 0 _); cbn [snd db]; [apply R_refl|apply Hup].
Qed.

(** The checkpoint manager rewrites the checkpoint table and nothing else,
    also when the storage refuses a statement. *)
Lemma within_start_run (s : string) (utcnow : Z) (faults : DbFaults) :
  (forall f d, R d (on_checkpoints f d)) ->
  within R (start_run s utcnow faults).
Proof.
  intros HR w. destruct (start_run_db s utcnow faults w) as (f & ->).
  apply HR.
Qed.

Lemma within_complete_run (s : string) (n : Z) (d : Q) (success : bool)
    (err : option string) (faults : DbFaults) :
  (forall f d, R d (on_checkpoints f d)) ->
  within R (complete_run s n d success err faults).
Proof.
  intros HR w.
  destruct (complete_run_db s n d success err faults w) as (f & ->).
  apply HR.
Qed.

(** A run stays within [R] when its steps do. *)
Lemma within_run_source {Raw : Type} (source_name provider provider' : string)
    (bulk : list Raw -> DB -> DB)
    (transform : Raw -> result UnifiedCryptoDataSchema.t)
    (fetched : result (list Raw)) (env : Surroundings) :
  (forall utcnow faults, within R (start_run source_name utcnow faults)) ->
  (forall n d success err faults,
      within R (complete_run source_name n d success err faults)) ->
  (forall l d, R d (bulk l d)) ->
  (forall l d, R d (on_unified_crypto_data (upsert_all l) d)) ->
  within R (run_source source_name (load_raw provider bulk)
              (transform_batch provider' transform) fetched env).
Proof.
  intros Hstart Hcomplete Hbulk Hup.
  unfold run_source, run_try.
  apply within_try_except.
  - apply within_bind; [apply within_logger|intros _].
    apply within_bind;
      [apply within_execute, within_is_source_running|intros [|]].
    + apply within_logger.
    + apply within_bind; [apply Hstart|intros _].
      apply within_bind; [apply within_lift|intros [|x l]].
      * apply within_bind; [apply within_logger|intros _]. apply Hcomplete.
      * apply within_bind;
          [apply within_load_raw; intros d; apply Hbulk|intros _].
        apply within_bind; [apply within_transform_batch|intros us].
        apply within_bind;
          [apply within_load_unified_data; intros d; apply Hup|intros n].
        apply within_bind; [apply Hcomplete|intros _]. apply within_logger.
  - intros e. apply within_bind; [apply within_logger|intros _].
    apply Hcomplete.
Qed.

(** [run_all] stays within [R] when the steps of its three runs do. *)
Lemma within_run_all `{Pydantic} {I1 I2 Row : Type} (o : Outside I1 I2 Row) :
  (forall s utcnow faults, within R (start_run s utcnow faults)) ->
  (forall s n d success err faults,
      within R (complete_run s n d success err faults)) ->
  (forall l d, R d (on_raw_coinpaprika (fun rows => rows ++ l) d)) ->
  (forall l d, R d (on_raw_coingecko (fun rows => rows ++ l) d)) ->
  (forall l d, R d (on_raw_csv (fun rows => rows ++ l) d)) ->
  (forall l d, R d (on_unified_crypto_data (upsert_all l) d)) ->
  within R (run_all o).
Proof.
  intros Hstart Hcomplete Hcp Hcg Hcsv Hup.
  unfold run_all.
  apply within_bind; [apply within_logger|intros _].
  apply within_bind; [|intros _].
  { unfold run_coinpaprika, load_raw_coinpaprika, transform_batch_coinpaprika.
    apply within_run_source; auto. }
  apply within_bind; [|intros _].
  { unfold run_coingecko, load_raw_coingecko, transform_batch_coingecko.
    apply within_run_source; auto. }
  apply within_bind; [|intros _; apply within_logger].
  unfold run_csv, load_raw_csv, transform_batch_csv.
  apply within_run_source; auto.
Qed.
End Within.

(** The checkpoints of the other sources through [start_run],
    [complete_run] and a run, whatever the storage refuses. *)
Lemma checkpoint_after_start_other (s s' : string) (utcnow : Z)
    (faults : DbFaults) (w : World) :
  s' <> s ->
  checkpoint_of s' (snd (start_run s utcnow faults w)) = checkpoint_of s' w.
Proof.
  intros Hne. destruct (first_fault faults 0 2) as [e|] eqn:E.
  - rewrite (start_run_refused s utcnow faults w e E). reflexivity.
  - cbn [first_fault] in E.
    destruct (faults 0%nat) eqn:E0; [discriminate|].
    destruct (faults 1%nat) eqn:E1; [discriminate|].
    destruct (start_run_found s utcnow faults w E0 E1) as (f & -> & _ & Hf).
    apply Hf. exact Hne.
Qed.

Lemma checkpoint_after_complete_other (s s' : string) (n : Z) (d : Q)
    (success : bool) (err : option string) (faults : DbFaults) (w : World) :
  s' <> s ->
  checkpoint_of s' (snd (complete_run s n d success err faults w))
  = checkpoint_of s' w.
Proof.
  intros Hne. destruct (faults 0%nat) as [e|] eqn:E0.
  - rewrite (complete_run_refused s n d success err faults w e)
      by (left; exact E0).
    reflexivity.
  - destruct (checkpoint_of s w) as [c|] eqn:Ec.
    + destruct (faults 1%nat) as [e|] eqn:E1.
      * rewrite (complete_run_refused s n d success err faults w e)
          by (right; rewrite Ec; repeat split; congruence).
        reflexivity.
      * destruct (complete_run_found s n d success err faults w c E0 E1 Ec)
          as (f & -> & _ & Hf).
        apply Hf. exact Hne.
    + rewrite complete_run_missing by assumption. reflexivity.
Qed.

Lemma run_keeps_others {Raw : Type} (source_name provider provider' : string)
    (bulk : list Raw -> DB -> DB)
    (transform : Raw -> result UnifiedCryptoDataSchema.t)
    (fetched : result (list Raw)) (env : Surroundings) (w : World)
    (s' : string) :
  (forall l d, checkpoints (bulk l d) = checkpoints d) ->
  s' <> source_name ->
  checkpoint_of s'
    (snd (run_source source_name (load_raw provider bulk)
            (transform_batch provider' transform) fetched env w))
  = checkpoint_of s' w.
Proof.
  intros Hbulk Hne.
  apply (within_run_source
           (fun d d' =>
              find (for_source s') (checkpoints d')
              = find (for_source s') (checkpoints d))).
  - reflexivity.
  - intros d1 d2 d3 E1 E2. congruence.
  - intros utcnow faults w0.
    exact (checkpoint_after_start_other source_name s' utcnow faults w0 Hne).
  - intros n d success err faults w0.
    exact (checkpoint_after_complete_other source_name s' n d success err
             faults w0 Hne).
  - intros l d. rewrite Hbulk. reflexivity.
  - intros l d. reflexivity.
Qed.

(** ** The three sources *)

Lemma reports_same_row (s status : string) (n : Z) (err : option string)
    (w w' : World) :
  checkpoint_of s w' = checkpoint_of s w ->
  reports s status n err w -> reports s status n err w'.
Proof.
  intros Hsame (c & Hc & Hrest). exists c. split; [|exact Hrest].
  rewrite get_checkpoint_eq in *. cbn [fst] in *. congruence.
Qed.

Lemma complete_run_returns (s : string) (n : Z) (d : Q) (success : bool)
    (err : option string) (faults : DbFaults) (w : World) :
  faults 0%nat = None -> faults 1%nat = None ->
  fst (complete_run s n d success err faults w) = Ok tt.
Proof.
  intros E0 E1. destruct (checkpoint_of s w) as [c|] eqn:E.
  - destruct (complete_run_found s n d success err faults w c E0 E1 E)
      as (f & -> & _).
    reflexivity.
  - rewrite complete_run_missing by assumption. reflexivity.
Qed.

(** Whatever the loader, the transformer and the fetch do, the handler of
    [run_source] ends the call normally when the storage accepts the two
    statements of its [complete_run]. *)
Lemma run_source_returns {Raw : Type} (source_name : string)
    (load_raw_data : list Raw -> DbFaults -> M Z)
    (transform_batch_data : list Raw -> M (list UnifiedCryptoDataSchema.t))
    (fetched : result (list Raw)) (env : Surroundings) (w : World) :
  checkpoint_faults env 5%nat = None -> checkpoint_faults env 6%nat = None ->
  fst (run_source source_name load_raw_data transform_batch_data fetched env w)
  = Ok tt.
Proof.
  intros E5 E6. unfold run_source, try_except.
  destruct (run_try source_name load_raw_data transform_batch_data fetched env w)
    as [[[]|e] w']; [reflexivity|].
  cbv [bind logger]. apply complete_run_returns; assumption.
Qed.

Lemma bind_returns {A B : Type} (m : M A) (k : A -> M B) (w : World) (a : A) :
  fst (m w) = Ok a -> bind m k w = k a (snd (m w)).
Proof. unfold bind. destruct (m w) as [r w']. simpl. intros ->. reflexivity. Qed.

Ltac as_run_source :=
  unfold run_coinpaprika, run_coingecko, run_csv,
    try_coinpaprika, try_coingecko, try_csv,
    load_raw_coinpaprika, load_raw_coingecko, load_raw_csv,
    transform_batch_coinpaprika, transform_batch_coingecko,
    transform_batch_csv in *.

Ltac by_run_lemma lem :=
  as_run_source;
  first
    [ eapply (lem RawCoinPaprikaSchema.t "coinpaprika" "CoinPaprika"
                "CoinPaprika"
                (fun records => on_raw_coinpaprika (fun rows => rows ++ records))
                transform_coinpaprika (fun _ _ => eq_refl)
                (fun _ _ _ => eq_refl)); eassumption
    | eapply (lem RawCoinGeckoSchema.t "coingecko" "CoinGecko" "CoinGecko"
                (fun records => on_raw_coingecko (fun rows => rows ++ records))
                transform_coingecko (fun _ _ => eq_refl)
                (fun _ _ _ => eq_refl)); eassumption
    | eapply (lem RawCSVSchema.t "csv" "CSV" "CSV"
                (fun records => on_raw_csv (fun rows => rows ++ records))
                transform_csv (fun _ _ => eq_refl) (fun _ _ _ => eq_refl));
      eassumption ].

Section Sources.
Context `{Pydantic} {I1 I2 Row : Type}.
Variable o : Outside I1 I2 Row.

Lemma coinpaprika_keeps_others (w : World) (s' : string) :
  s' <> "coinpaprika" ->
  checkpoint_of s'
    (snd (run_coinpaprika (coinpaprika_api o) (coinpaprika_env o) w))
  = checkpoint_of s' w.
Proof. intros Hne. apply run_keeps_others; [reflexivity|exact Hne]. Qed.

Lemma coingecko_keeps_others (w : World) (s' : string) :
  s' <> "coingecko" ->
  checkpoint_of s'
    (snd (run_coingecko (coingecko_api o) (coingecko_env o) w))
  = checkpoint_of s' w.
Proof. intros Hne. apply run_keeps_others; [reflexivity|exact Hne]. Qed.

Lemma csv_keeps_others (w : World) (s' : string) :
  s' <> "csv" ->
  checkpoint_of s'
    (snd (run_csv (csv_file o) (csv_parse_row o) (csv_env o) w))
  = checkpoint_of s' w.
Proof. intros Hne. apply run_keeps_others; [reflexivity|exact Hne]. Qed.

Lemma coinpaprika_failure_recorded (w : World) (e : exn) :
  checkpoints_answer (coinpaprika_env o) ->
  fst (try_coinpaprika (coinpaprika_api o) (coinpaprika_env o) w) = Raise e ->
  reports "coinpaprika" "failure" 0 (Some (str e))
    (snd (run_coinpaprika (coinpaprika_api o) (coinpaprika_env o) w)).
Proof. intros Hcp Hraise. by_run_lemma @run_failure_recorded. Qed.

Lemma coingecko_failure_recorded (w : World) (e : exn) :
  checkpoints_answer (coingecko_env o) ->
  fst (try_coingecko (coingecko_api o) (coingecko_env o) w) = Raise e ->
  reports "coingecko" "failure" 0 (Some (str e))
    (snd (run_coingecko (coingecko_api o) (coingecko_env o) w)).
Proof. intros Hcp Hraise. by_run_lemma @run_failure_recorded. Qed.

Lemma csv_failure_recorded (w : World) (e : exn) :
  checkpoints_answer (csv_env o) ->
  fst (try_csv (csv_file o) (csv_parse_row o) (csv_env o) w) = Raise e ->
  reports "csv" "failure" 0 (Some (str e))
    (snd (run_csv (csv_file o) (csv_parse_row o) (csv_env o) w)).
Proof. intros Hcp Hraise. by_run_lemma @run_failure_recorded. Qed.
End Sources.

Lemma quiet_answers : checkpoints_answer quiet.
Proof. intros i. reflexivity. Qed.

Lemma raw_load_fails_answers : checkpoints_answer raw_load_fails.
Proof. intros i. reflexivity. Qed.

Lemma unified_load_fails_answers : checkpoints_answer unified_load_fails.
Proof. intros i. reflexivity. Qed.

(** C3, as amended.  [run_all] runs coinpaprika, then coingecko, then csv,
    each from the world that the run before it left.  When the storage
    answers the statements of the checkpoint manager, [run_all] returns
    normally, whatever the providers, the file and the storage do during the
    loads, and an exception that leaves the [try] block of a source is
    caught in that source's run and is, after [run_all], the recorded
    failure of that source (status "failure", count 0, the text of the
    exception), which the later runs do not touch.  The handler of
    [run_source] ends the call normally when its own [complete_run] is
    accepted; it does not guard that call: when the storage refuses the
    query of the handler's [complete_run], or the commit that would write
    the failure, that exception leaves the run and nothing is recorded, and
    an exception that leaves a run leaves [run_all] from the world of that
    run, with no later source run. *)
Theorem run_all_contains_failures :
  forall `{Pydantic} (I1 I2 Row : Type) (o : Outside I1 I2 Row) (w : World),
    let w0 := snd (logger INFO StartingAll w) in
    let w1 :=
      snd (run_coinpaprika (coinpaprika_api o) (coinpaprika_env o) w0) in
    let w2 := snd (run_coingecko (coingecko_api o) (coingecko_env o) w1) in
    let w3 := snd (run_csv (csv_file o) (csv_parse_row o) (csv_env o) w2) in
    let w4 := snd (logger INFO CompletedAll w3) in
    (checkpoints_answer (coinpaprika_env o) ->
     checkpoints_answer (coingecko_env o) ->
     checkpoints_answer (csv_env o) ->
     run_all o w = (Ok tt, w4)
     /\ (forall e,
           fst (try_coinpaprika (coinpaprika_api o) (coinpaprika_env o) w0)
           = Raise e ->
           reports "coinpaprika" "failure" 0 (Some (str e)) w4)
     /\ (forall e,
           fst (try_coingecko (coingecko_api o) (coingecko_env o) w1)
           = Raise e ->
           reports "coingecko" "failure" 0 (Some (str e)) w4)
     /\ (forall e,
           fst (try_csv (csv_file o) (csv_parse_row o) (csv_env o) w2)
           = Raise e ->
           reports "csv" "failure" 0 (Some (str e)) w4))
    /\ (forall (Raw : Type) (source_name : string)
          (load_raw_data : list Raw -> DbFaults -> M Z)
          (transform_batch_data :
             list Raw -> M (list UnifiedCryptoDataSchema.t))
          (fetched : result (list Raw)) (env : Surroundings) (w : World),
          (checkpoint_faults env 5%nat = None ->
           checkpoint_faults env 6%nat = None ->
           fst (run_source source_name load_raw_data transform_batch_data
                  fetched env w) = Ok tt)
          /\ (forall e e',
                fst (run_try source_name load_raw_data transform_batch_data
                       fetched env w) = Raise e ->
                checkpoint_faults env 5%nat = Some e'
                \/ (checkpoint_faults env 5%nat = None
                    /\ checkpoint_faults env 6%nat = Some e'
                    /\ checkpoint_of source_name
                         (snd (run_try source_name load_raw_data
                                 transform_batch_data fetched env w))
                       <> None) ->
                fst (run_source source_name load_raw_data
                       transform_batch_data fetched env w) = Raise e'
                /\ db (snd (run_source source_name load_raw_data
                              transform_batch_data fetched env w))
                   = db (snd (run_try source_name load_raw_data
                                transform_batch_data fetched env w))))
    /\ (forall e,
          fst (run_coinpaprika (coinpaprika_api o) (coinpaprika_env o) w0)
          = Raise e ->
          run_all o w = (Raise e, w1))
    /\ (forall e,
          fst (run_coinpaprika (coinpaprika_api o) (coinpaprika_env o) w0)
          = Ok tt ->
          fst (run_coingecko (coingecko_api o) (coingecko_env o) w1)
          = Raise e ->
          run_all o w = (Raise e, w2))
    /\ (forall e,
          fst (run_coinpaprika (coinpaprika_api o) (coinpaprika_env o) w0)
          = Ok tt ->
          fst (run_coingecko (coingecko_api o) (coingecko_env o) w1)
          = Ok tt ->
          fst (run_csv (csv_file o) (csv_parse_row o) (csv_env o) w2)
          = Raise e ->
          run_all o w = (Raise e, w3)).
Proof.
  intros P I1 I2 Row o w w0 w1 w2 w3 w4.
  split; [|split; [|split; [|split]]].
  - intros Hcp Hcg Hcsv.
    split; [|split; [|split]].
    + unfold run_all.
      rewrite (bind_returns _ _ w tt) by reflexivity. fold w0.
      rewrite (bind_returns _ _ w0 tt)
        by (apply run_source_returns; apply Hcp).
      fold w1.
      rewrite (bind_returns _ _ w1 tt)
        by (apply run_source_returns; apply Hcg).
      fold w2.
      rewrite (bind_returns _ _ w2 tt)
        by (apply run_source_returns; apply Hcsv).
      fold w3. reflexivity.
    + intros e Hraise.
      apply reports_same_row with (w := w1);
        [|apply coinpaprika_failure_recorded; assumption].
      change (checkpoint_of "coinpaprika" w4)
        with (checkpoint_of "coinpaprika" w3).
      unfold w3. rewrite csv_keeps_others by discriminate.
      unfold w2. rewrite coingecko_keeps_others by discriminate.
      reflexivity.
    + intros e Hraise.
      apply reports_same_row with (w := w2);
        [|apply coingecko_failure_recorded; assumption].
      change (checkpoint_of "coingecko" w4)
        with (checkpoint_of "coingecko" w3).
      unfold w3. rewrite csv_keeps_others by discriminate.
      reflexivity.
    + intros e Hraise.
      apply reports_same_row with (w := w3);
        [|apply csv_failure_recorded; assumption].
      reflexivity.
  - intros Raw source_name load_raw_data transform_batch_data fetched env w'.
    split.
    + intros E5 E6. apply run_source_returns; assumption.
    + intros e e' Htry Hrefused. unfold run_source, try_except.
      destruct (run_try source_name load_raw_data transform_batch_data
                  fetched env w') as [r w''].
      cbn [fst snd] in Htry, Hrefused. subst r. cbv [bind logger].
      rewrite (complete_run_refused _ _ _ _ _ _ _ e')
        by (destruct Hrefused as [E5|(E5 & E6 & Hrow)];
            [left; exact E5|right; repeat split; assumption]).
      split; reflexivity.
  - intros e Hraise. unfold run_all.
    rewrite (bind_returns _ _ w tt) by reflexivity. fold w0.
    unfold bind at 1. unfold w1.
    destruct (run_coinpaprika (coinpaprika_api o) (coinpaprika_env o) w0)
      as [r w']. cbn [fst snd] in *. subst r. reflexivity.
  - intros e Hfirst Hraise. unfold run_all.
    rewrite (bind_returns _ _ w tt) by reflexivity. fold w0.
    rewrite (bind_returns _ _ w0 tt) by exact Hfirst. fold w1.
    unfold bind at 1. unfold w2.
    destruct (run_coingecko (coingecko_api o) (coingecko_env o) w1)
      as [r w']. cbn [fst snd] in *. subst r. reflexivity.
  - intros e Hfirst Hsecond Hraise. unfold run_all.
    rewrite (bind_returns _ _ w tt) by reflexivity. fold w0.
    rewrite (bind_returns _ _ w0 tt) by exact Hfirst. fold w1.
    rewrite (bind_returns _ _ w1 tt) by exact Hsecond. fold w2.
    unfold bind at 1. unfold w3.
    destruct (run_csv (csv_file o) (csv_parse_row o) (csv_env o) w2)
      as [r w']. cbn [fst snd] in *. subst r. reflexivity.
Qed.

Lemma run_all_contains_failures_witness :
  (checkpoints_answer (coinpaprika_env first_source_fails)
   /\ checkpoints_answer (coingecko_env first_source_fails)
   /\ checkpoints_answer (csv_env first_source_fails)
   /\ fst (@try_coinpaprika exact_types unit
             (coinpaprika_api first_source_fails)
             (coinpaprika_env first_source_fails)
             (snd (logger INFO StartingAll empty_world)))
      = Raise (Exception "disk full"))
  /\ fst (@run_all exact_types unit unit nat first_source_fails empty_world)
     = Ok tt
  /\ reports "coinpaprika" "failure" 0 (Some "disk full")
       (snd (@run_all exact_types unit unit nat first_source_fails
               empty_world))
  /\ reports "coingecko" "success" 0 None
       (snd (@run_all exact_types unit unit nat first_source_fails
               empty_world))
  /\ reports "csv" "success" 2 None
       (snd (@run_all exact_types unit unit nat first_source_fails
               empty_world)).
Proof.
  split.
  { split; [exact raw_load_fails_answers|].
    split; [exact quiet_answers|]. split; [exact quiet_answers|reflexivity]. }
  split; [reflexivity|]. split.
  - destruct (proj1 (@run_all_contains_failures exact_types unit unit nat
                       first_source_fails empty_world)
                raw_load_fails_answers quiet_answers quiet_answers)
      as (Hall & Hfirst & _).
    rewrite Hall. cbn [snd].
    apply (Hfirst (Exception "disk full")). reflexivity.
  - split; (eexists; split; [vm_compute; reflexivity|repeat split]).
Defined.

(** C3 as stated fails when the storage is lost during a run: the raw load
    of the first source raises, the handler's [complete_run] raises in turn,
    and the exception leaves [run_coinpaprika] and [run_all]; the checkpoint
    of the first source is left in status "running" and the two later
    sources are not run (they have no checkpoint). *)
Lemma storage_loss_stops_run_all :
  fst (@try_coinpaprika exact_types unit
         (coinpaprika_api storage_lost_in_first_run)
         (coinpaprika_env storage_lost_in_first_run)
         (snd (logger INFO StartingAll empty_world)))
  = Raise (Exception "connection lost")
  /\ fst (@run_all exact_types unit unit nat storage_lost_in_first_run
            empty_world)
     = Raise (Exception "connection lost")
  /\ ~ (exists n err,
          reports "coinpaprika" "failure" n err after_storage_loss)
  /\ (exists c,
         fst (get_checkpoint "coinpaprika" after_storage_loss) = Ok (Some c)
         /\ Checkpoint.status c = "running")
  /\ fst (get_checkpoint "coingecko" after_storage_loss) = Ok None
  /\ fst (get_checkpoint "csv" after_storage_loss) = Ok None.
Proof.
  unfold after_storage_loss.
  split; [reflexivity|]. split; [reflexivity|]. split.
  - intros (n & err & c & Hc & Hstatus & _).
    vm_compute in Hc. injection Hc as <-. discriminate.
  - split; [eexists; split; [vm_compute; reflexivity|reflexivity]|].
    split; reflexivity.
Qed.

(** ** The unified upsert *)

Lemma same_key_true (a b : UnifiedCryptoDataSchema.t) :
  same_key a b = true <->
  UnifiedCryptoDataSchema.coin_id a = UnifiedCryptoDataSchema.coin_id b
  /\ UnifiedCryptoDataSchema.source a = UnifiedCryptoDataSchema.source b
  /\ UnifiedCryptoDataSchema.ingested_at a = UnifiedCryptoDataSchema.ingested_at b.
Proof.
  unfold same_key.
  rewrite !andb_true_iff, !String.eqb_eq, Z.eqb_eq. tauto.
Qed.

Lemma same_key_do_update (k data row : UnifiedCryptoDataSchema.t) :
  same_key k (do_update data row) = same_key k row.
Proof. reflexivity. Qed.

(** Updating a row that has the key of the incoming record gives the
    incoming record. *)
Lemma do_update_same_key (data row : UnifiedCryptoDataSchema.t) :
  same_key data row = true -> do_update data row = data.
Proof.
  intros H. apply same_key_true in H. destruct H as (Hc & Hs & Hi).
  destruct data, row. simpl in *. subst. reflexivity.
Qed.

Lemma existsb_same_key (data : UnifiedCryptoDataSchema.t)
    (rows : list UnifiedCryptoDataSchema.t) :
  existsb (same_key data) rows = false <-> rows_with_key data rows = [].
Proof.
  unfold rows_with_key. induction rows as [|row rows IH]; simpl.
  - tauto.
  - destruct (same_key data row); simpl.
    + split; discriminate.
    + exact IH.
Qed.

Lemma rows_with_key_updated (data : UnifiedCryptoDataSchema.t)
    (rows : list UnifiedCryptoDataSchema.t) :
  rows_with_key data
    (map (fun row => if same_key data row then do_update data row else row)
       rows)
  = map (fun _ => data) (rows_with_key data rows).
Proof.
  unfold rows_with_key. induction rows as [|row rows IH]; simpl.
  - reflexivity.
  - destruct (same_key data row) eqn:E.
    + rewrite same_key_do_update, E. simpl.
      rewrite IH, do_update_same_key by assumption. reflexivity.
    + rewrite E. exact IH.
Qed.

(** Rows of another key are left as they are. *)
Lemma rows_with_other_key (k data : UnifiedCryptoDataSchema.t)
    (rows : list UnifiedCryptoDataSchema.t) :
  same_key k data = false ->
  rows_with_key k (insert_on_conflict_do_update data rows)
  = rows_with_key k rows.
Proof.
  intros Hk. unfold insert_on_conflict_do_update, rows_with_key.
  destruct (existsb (same_key data) rows).
  - induction rows as [|row rows IH]; simpl; [reflexivity|].
    destruct (same_key data row) eqn:E.
    + rewrite same_key_do_update.
      assert (Hrow : same_key k row = false).
      { destruct (same_key k row) eqn:E'; [|reflexivity].
        apply same_key_true in E, E'.
        assert (same_key k data = true) by (apply same_key_true; intuition congruence).
        congruence. }
      rewrite Hrow. exact IH.
    + destruct (same_key k row); rewrite IH; reflexivity.
  - rewrite filter_app. simpl. rewrite Hk. apply app_nil_r.
Qed.

(** After an upsert the key of the record is held by the record alone,
    provided the table held the key at most once before. *)
Lemma rows_with_key_upserted (data : UnifiedCryptoDataSchema.t)
    (rows : list UnifiedCryptoDataSchema.t) :
  (List.length (rows_with_key data rows) <= 1)%nat ->
  rows_with_key data (insert_on_conflict_do_update data rows) = [data].
Proof.
  intros Hone. unfold insert_on_conflict_do_update.
  destruct (existsb (same_key data) rows) eqn:E.
  - rewrite rows_with_key_updated.
    destruct (rows_with_key data rows) as [|r [|r' rest]] eqn:Hrows.
    + apply existsb_same_key in Hrows. congruence.
    + reflexivity.
    + simpl in Hone. lia.
  - apply existsb_same_key in E. unfold rows_with_key in *.
    rewrite filter_app, E. simpl.
    assert (Hrefl : same_key data data = true)
      by (apply same_key_true; auto).
    rewrite Hrefl. reflexivity.
Qed.

Lemma insert_when_absent (data : UnifiedCryptoDataSchema.t)
    (rows : list UnifiedCryptoDataSchema.t) :
  rows_with_key data rows = [] ->
  insert_on_conflict_do_update data rows = rows ++ [data].
Proof.
  intros H. apply existsb_same_key in H.
  unfold insert_on_conflict_do_update. rewrite H. reflexivity.
Qed.

Lemma update_when_present (data : UnifiedCryptoDataSchema.t)
    (rows : list UnifiedCryptoDataSchema.t) :
  rows_with_key data rows <> [] ->
  insert_on_conflict_do_update data rows
  = map (fun row => if same_key data row then do_update data row else row)
      rows.
Proof.
  intros H. unfold insert_on_conflict_do_update.
  destruct (existsb (same_key data) rows) eqn:E; [reflexivity|].
  apply existsb_same_key in E. contradiction.
Qed.

Lemma first_fault_no_faults (n : nat) :
  forall i, first_fault no_faults i n = None.
Proof. induction n as [|n IH]; intros i; simpl; auto. Qed.


Lemma rows_with_key_same (a b : UnifiedCryptoDataSchema.t)
    (rows : list UnifiedCryptoDataSchema.t) :
  same_key a b = true -> rows_with_key a rows = rows_with_key b rows.
Proof.
  intros Hab. apply same_key_true in Hab. destruct Hab as (Hc & Hs & Hi).
  unfold rows_with_key. apply filter_ext. intros row.
  unfold same_key. rewrite Hc, Hs, Hi. reflexivity.
Qed.


Lemma upsert_keeps_constraint (data : UnifiedCryptoDataSchema.t)
    (rows : list UnifiedCryptoDataSchema.t) :
  uq_coin_source_time rows ->
  uq_coin_source_time (insert_on_conflict_do_update data rows).
Proof.
  intros Huq k. destruct (same_key k data) eqn:E.
  - rewrite (rows_with_key_same k data) by assumption.
    rewrite rows_with_key_upserted; [simpl; lia|].
    rewrite <- (rows_with_key_same k data) by assumption. apply Huq.
  - rewrite rows_with_other_key by assumption. apply Huq.
Qed.

(** C1.  [load_unified_data] executes one upsert per record, in order, keyed
    on (coin_id, source, ingested_at): a record whose key is absent is
    inserted as a new row; a record whose key is present overwrites name,
    symbol, price_usd, market_cap and volume_24h of the rows with that key
    and leaves their key columns and every other row alone; the unique
    constraint of the table is kept.  Loading a record and then a second
    record with the same key leaves exactly one row for that key, equal to
    the second record: for (btc, csv, T) with price 100 and then 110, the
    one row has price 110. *)
Theorem upsert_on_natural_key :
  forall (data : UnifiedCryptoDataSchema.t) (w : World),
    let rows := unified_crypto_data (db w) in
    (rows_with_key data rows = [] ->
     insert_on_conflict_do_update data rows = rows ++ [data])
    /\ (rows_with_key data rows <> [] ->
        insert_on_conflict_do_update data rows
        = map (fun row =>
                 if same_key data row
                 then {| UnifiedCryptoDataSchema.coin_id :=
                           UnifiedCryptoDataSchema.coin_id row;
                         UnifiedCryptoDataSchema.name :=
                           UnifiedCryptoDataSchema.name data;
                         UnifiedCryptoDataSchema.symbol :=
                           UnifiedCryptoDataSchema.symbol data;
                         UnifiedCryptoDataSchema.price_usd :=
                           UnifiedCryptoDataSchema.price_usd data;
                         UnifiedCryptoDataSchema.market_cap :=
                           UnifiedCryptoDataSchema.market_cap data;
                         UnifiedCryptoDataSchema.volume_24h :=
                           UnifiedCryptoDataSchema.volume_24h data;
                         UnifiedCryptoDataSchema.source :=
                           UnifiedCryptoDataSchema.source row;
                         UnifiedCryptoDataSchema.ingested_at :=
                           UnifiedCryptoDataSchema.ingested_at row |}
                 else row) rows)
    /\ (forall data_list,
          load_unified_data (data :: data_list) no_faults w
          = (Ok (len (data :: data_list)),
             {| db := on_unified_crypto_data
                        (fun rows =>
                           fold_left
                             (fun rows data =>
                                insert_on_conflict_do_update data rows)
                             data_list
                             (insert_on_conflict_do_update data rows))
                        (db w);
                log := log w
                       ++ [(INFO, LoadedUnified (len (data :: data_list)))] |}))
    /\ (uq_coin_source_time rows ->
        uq_coin_source_time (insert_on_conflict_do_update data rows))
    /\ (forall again : UnifiedCryptoDataSchema.t,
          same_key data again = true ->
          (List.length (rows_with_key data rows) <= 1)%nat ->
          let w1 := snd (load_unified_data [data] no_faults w) in
          let w2 := snd (load_unified_data [again] no_faults w1) in
          rows_with_key data (unified_crypto_data (db w2)) = [again])
    /\ (forall T : Z,
          (List.length (rows_with_key (btc T 100) rows) <= 1)%nat ->
          let w1 := snd (load_unified_data [btc T 100] no_faults w) in
          let w2 := snd (load_unified_data [btc T 110] no_faults w1) in
          exists row,
            rows_with_key (btc T 100) (unified_crypto_data (db w2)) = [row]
            /\ UnifiedCryptoDataSchema.price_usd row = Some 110%Q).
Proof.
  assert (Htwice :
    forall (first again : UnifiedCryptoDataSchema.t) (w : World),
      same_key first again = true ->
      (List.length (rows_with_key first (unified_crypto_data (db w))) <= 1)%nat ->
      rows_with_key first
        (unified_crypto_data
           (db (snd (load_unified_data [again] no_faults
                       (snd (load_unified_data [first] no_faults w))))))
      = [again]).
  { intros first again w Hkey Hone.
    rewrite !load_unified_data_eq, !first_fault_no_faults.
    cbn [snd db unified_crypto_data on_unified_crypto_data upsert_all fold_left].
    rewrite (rows_with_key_same first again) by assumption.
    apply rows_with_key_upserted.
    rewrite <- (rows_with_key_same first again) by assumption.
    rewrite rows_with_key_upserted by assumption. simpl. lia. }
  intros data w rows. split; [|split; [|split; [|split; [|split]]]].
  - apply insert_when_absent.
  - apply update_when_present.
  - intros data_list.
    rewrite load_unified_data_eq, first_fault_no_faults. reflexivity.
  - apply upsert_keeps_constraint.
  - intros again Hkey Hone w1 w2. apply Htwice; assumption.
  - intros T Hone w1 w2. exists (btc T 110). split; [|reflexivity].
    apply Htwice; [|assumption].
    apply same_key_true. repeat split.
Qed.

Lemma upsert_on_natural_key_witness :
  (List.length
     (rows_with_key (btc 0 100) (unified_crypto_data (db empty_world))) <= 1)%nat
  /\ exists row,
       rows_with_key (btc 0 100)
         (unified_crypto_data
            (db (snd (load_unified_data [btc 0 110] no_faults
                        (snd (load_unified_data [btc 0 100] no_faults
                                empty_world))))))
       = [row]
       /\ UnifiedCryptoDataSchema.price_usd row = Some 110%Q.
Proof.
  split.
  - simpl. lia.
  - apply (proj2 (proj2 (proj2 (proj2 (proj2
             (upsert_on_natural_key (btc 0 100) empty_world)))))).
    simpl. lia.
Defined.

(** ** The guard *)

Section Guard.
Context `{Pydantic} {I1 I2 Row : Type}.
Variable o : Outside I1 I2 Row.

Lemma coinpaprika_when_running (w : World) :
  checkpoint_faults (coinpaprika_env o) 0%nat = None ->
  fst (is_source_running "coinpaprika" w) = Ok true ->
  run_coinpaprika (coinpaprika_api o) (coinpaprika_env o) w
  = (Ok tt,
     {| db := db w;
        log := log w ++ [(INFO, StartingETL "coinpaprika");
                         (WARNING, AlreadyRunning "coinpaprika")] |}).
Proof.
  intros Hq Hrun. as_run_source. apply run_when_running; assumption.
Qed.

Lemma coingecko_when_running (w : World) :
  checkpoint_faults (coingecko_env o) 0%nat = None ->
  fst (is_source_running "coingecko" w) = Ok true ->
  run_coingecko (coingecko_api o) (coingecko_env o) w
  = (Ok tt,
     {| db := db w;
        log := log w ++ [(INFO, StartingETL "coingecko");
                         (WARNING, AlreadyRunning "coingecko")] |}).
Proof.
  intros Hq Hrun. as_run_source. apply run_when_running; assumption.
Qed.

Lemma csv_when_running (w : World) :
  checkpoint_faults (csv_env o) 0%nat = None ->
  fst (is_source_running "csv" w) = Ok true ->
  run_csv (csv_file o) (csv_parse_row o) (csv_env o) w
  = (Ok tt,
     {| db := db w;
        log := log w ++ [(INFO, StartingETL "csv");
                         (WARNING, AlreadyRunning "csv")] |}).
Proof.
  intros Hq Hrun. as_run_source. apply run_when_running; assumption.
Qed.
End Guard.

(** C4.  [is_source_running] answers true exactly when [get_checkpoint]
    finds a row for the source whose status is "running"; and when it
    answers true in a run (the storage answers the query of the guard, and
    the answer is true), each of the three runs returns normally at once:
    the database (checkpoints, raw and unified records) is as before, and
    the only trace is the two log lines of the guard. *)
Theorem running_guard :
  forall `{Pydantic} (I1 I2 Row : Type) (o : Outside I1 I2 Row) (w : World),
    (forall source,
        fst (is_source_running source w) = Ok true
        <-> exists c,
              fst (get_checkpoint source w) = Ok (Some c)
              /\ Checkpoint.status c = "running")
    /\ (checkpoint_faults (coinpaprika_env o) 0%nat = None ->
        fst (is_source_running "coinpaprika" w) = Ok true ->
        let r := run_coinpaprika (coinpaprika_api o) (coinpaprika_env o) w in
        fst r = Ok tt /\ db (snd r) = db w
        /\ log (snd r) = log w ++ [(INFO, StartingETL "coinpaprika");
                                   (WARNING, AlreadyRunning "coinpaprika")])
    /\ (checkpoint_faults (coingecko_env o) 0%nat = None ->
        fst (is_source_running "coingecko" w) = Ok true ->
        let r := run_coingecko (coingecko_api o) (coingecko_env o) w in
        fst r = Ok tt /\ db (snd r) = db w
        /\ log (snd r) = log w ++ [(INFO, StartingETL "coingecko");
                                   (WARNING, AlreadyRunning "coingecko")])
    /\ (checkpoint_faults (csv_env o) 0%nat = None ->
        fst (is_source_running "csv" w) = Ok true ->
        let r := run_csv (csv_file o) (csv_parse_row o) (csv_env o) w in
        fst r = Ok tt /\ db (snd r) = db w
        /\ log (snd r) = log w ++ [(INFO, StartingETL "csv");
                                   (WARNING, AlreadyRunning "csv")]).
Proof.
  intros P I1 I2 Row o w. split; [|split; [|split]].
  - intros source. rewrite is_source_running_eq, get_checkpoint_eq.
    cbn [fst]. destruct (checkpoint_of source w) as [c|].
    + split.
      * intros Hrun. exists c. split; [reflexivity|].
        apply String.eqb_eq. congruence.
      * intros (c' & Hc' & Hstatus). injection Hc' as <-.
        apply String.eqb_eq in Hstatus. rewrite Hstatus. reflexivity.
    + split; [discriminate|]. intros (c & Hc & _). discriminate.
  - intros Hq Hrun r. unfold r.
    rewrite coinpaprika_when_running by assumption. repeat split.
  - intros Hq Hrun r. unfold r.
    rewrite coingecko_when_running by assumption. repeat split.
  - intros Hq Hrun r. unfold r.
    rewrite csv_when_running by assumption. repeat split.
Qed.


Lemma running_guard_witness :
  (checkpoint_faults (csv_env nothing_outside) 0%nat = None
   /\ fst (is_source_running "csv" csv_running) = Ok true)
  /\ db (snd (@run_csv exact_types unit (csv_file nothing_outside)
                (csv_parse_row nothing_outside) (csv_env nothing_outside)
                csv_running))
     = db csv_running.
Proof.
  split.
  - split; reflexivity.
  - apply (proj2 (proj2 (proj2
             (@running_guard exact_types unit unit unit nothing_outside
                csv_running)))); reflexivity.
Defined.

(** ** The checkpoint transitions *)

(** C5.  After [start_run x], [complete_run] with [success=True] leaves the
    checkpoint of [x] with status "success", the given count and duration
    and no error message; with [success=False] and an error message it
    leaves status "failure" and that message.  When there is no checkpoint
    for the source, [complete_run] logs the error and returns without
    changing the database.  (The storage accepts the statements of the two
    calls: their faults are [no_faults].) *)
Theorem complete_run_transitions :
  forall (x : string) (utcnow : Z) (processed : Z) (duration : Q)
         (e : string) (w : World),
    let w1 := snd (start_run x utcnow no_faults w) in
    (let w2 :=
       snd (complete_run x processed duration true None no_faults w1) in
     exists c,
       fst (get_checkpoint x w2) = Ok (Some c)
       /\ Checkpoint.status c = "success"
       /\ Checkpoint.records_processed c = processed
       /\ Checkpoint.duration_seconds c = Some duration
       /\ Checkpoint.error_message c = None)
    /\ (let w2 :=
          snd (complete_run x processed duration false (Some e) no_faults w1)
        in
        exists c,
          fst (get_checkpoint x w2) = Ok (Some c)
          /\ Checkpoint.status c = "failure"
          /\ Checkpoint.records_processed c = processed
          /\ Checkpoint.duration_seconds c = Some duration
          /\ Checkpoint.error_message c = Some e)
    /\ (forall (success : bool) (error_message : option string),
          fst (get_checkpoint x w) = Ok None ->
          complete_run x processed duration success error_message no_faults w
          = (Ok tt,
             {| db := db w;
                log := log w ++ [(ERROR, NoCheckpointFound x)] |})).
Proof.
  intros x utcnow processed duration e w w1.
  destruct (start_run_found x utcnow no_faults w eq_refl eq_refl)
    as (f1 & E1 & Hf1 & _).
  assert (Hw1 : checkpoint_of x w1
                = Some (started (checkpoint_of x w) x utcnow)).
  { unfold w1. rewrite E1. exact Hf1. }
  split; [|split].
  - intros w2.
    destruct (complete_run_found x processed duration true None no_faults w1 _
                eq_refl eq_refl Hw1)
      as (f2 & E2 & Hf2 & _).
    eexists. split.
    + unfold w2. rewrite E2, get_checkpoint_eq. cbn [fst snd].
      unfold checkpoint_of. cbn [db checkpoints on_checkpoints].
      rewrite Hf2. reflexivity.
    + repeat split.
  - intros w2.
    destruct (complete_run_found x processed duration false (Some e) no_faults
                w1 _ eq_refl eq_refl Hw1)
      as (f2 & E2 & Hf2 & _).
    eexists. split.
    + unfold w2. rewrite E2, get_checkpoint_eq. cbn [fst snd].
      unfold checkpoint_of. cbn [db checkpoints on_checkpoints].
      rewrite Hf2. reflexivity.
    + repeat split.
  - intros success error_message Hnone.
    apply complete_run_missing; [reflexivity|].
    rewrite get_checkpoint_eq in Hnone. cbn [fst] in Hnone. congruence.
Qed.

Lemma complete_run_transitions_witness :
  fst (get_checkpoint "x" empty_world) = Ok None
  /\ complete_run "x" 5 2 true None no_faults empty_world
     = (Ok tt,
        {| db := db empty_world;
           log := log empty_world ++ [(ERROR, NoCheckpointFound "x")] |}).
Proof.
  split.
  - reflexivity.
  - apply (proj2 (proj2
             (complete_run_transitions "x" 0 5 2 "timeout" empty_world))).
    reflexivity.
Defined.

(** C10.  On a source that has a checkpoint, [start_run] sets its status to
    "running", its timestamp to the new one and its error message to
    [None]; the source, [records_processed] and [duration_seconds] of the
    row stay as the previous run left them, the rows of other sources and
    all records stay as they are, and [start_run] returns that row.  (The
    storage accepts the statements of the call: its faults are
    [no_faults].) *)
Theorem start_run_keeps_counts :
  forall (source : string) (utcnow : Z) (w : World) (c : Checkpoint.t),
    fst (get_checkpoint source w) = Ok (Some c) ->
    let w' := snd (start_run source utcnow no_faults w) in
    exists c',
      fst (start_run source utcnow no_faults w) = Ok c'
      /\ fst (get_checkpoint source w') = Ok (Some c')
      /\ Checkpoint.status c' = "running"
      /\ Checkpoint.last_run_timestamp c' = utcnow
      /\ Checkpoint.error_message c' = None
      /\ Checkpoint.source c' = Checkpoint.source c
      /\ Checkpoint.records_processed c' = Checkpoint.records_processed c
      /\ Checkpoint.duration_seconds c' = Checkpoint.duration_seconds c
      /\ (forall s', s' <> source ->
            fst (get_checkpoint s' w') = fst (get_checkpoint s' w))
      /\ same_records w w'.
Proof.
  intros source utcnow w c Hc w'.
  rewrite get_checkpoint_eq in Hc. cbn [fst] in Hc.
  injection Hc as Hc.
  destruct (start_run_found source utcnow no_faults w eq_refl eq_refl)
    as (f & E & Hf & Hframe).
  rewrite Hc in E, Hf. cbn [started] in E, Hf.
  eexists. split; [rewrite E; reflexivity|].
  split.
  - unfold w'. rewrite E, get_checkpoint_eq. cbn [fst snd].
    unfold checkpoint_of. cbn [db checkpoints on_checkpoints].
    rewrite Hf. reflexivity.
  - repeat split.
    intros s' Hne. unfold w'. rewrite E, !get_checkpoint_eq. cbn [fst snd].
    unfold checkpoint_of. cbn [db checkpoints on_checkpoints].
    rewrite Hframe by assumption. reflexivity.
    all: unfold w'; rewrite E; reflexivity.
Qed.


Lemma start_run_keeps_counts_witness :
  exists c,
    fst (get_checkpoint "x" x_succeeded) = Ok (Some c)
    /\ exists c',
         fst (get_checkpoint "x"
                (snd (start_run "x" 2000 no_faults x_succeeded)))
         = Ok (Some c')
         /\ Checkpoint.status c' = "running"
         /\ Checkpoint.records_processed c' = 5
         /\ Checkpoint.duration_seconds c' = Some 2%Q.
Proof.
  eexists. split; [reflexivity|].
  destruct (start_run_keeps_counts "x" 2000 x_succeeded _ eq_refl)
    as (c' & _ & Hget & Hstatus & _ & _ & _ & Hcount & Hduration & _).
  exists c'. repeat split; assumption.
Defined.

(** ** What a run reports, case by case *)

Section RunCases.
Context {Raw : Type}.
Variables source_name provider provider' : string.
Variable bulk : list Raw -> DB -> DB.
Variable transform : Raw -> result UnifiedCryptoDataSchema.t.
Hypothesis bulk_checkpoints :
  forall l d, checkpoints (bulk l d) = checkpoints d.
Hypothesis bulk_commutes :
  forall l f d, bulk l (on_checkpoints f d) = on_checkpoints f (bulk l d).

Local Abbreviation run :=
  (run_source source_name (load_raw provider bulk)
     (transform_batch provider' transform)).

(** Nothing fetched: a success with count 0, and no record written. *)
Lemma run_nothing_fetched (fetched : result (list Raw)) (env : Surroundings)
    (w : World) :
  fetched = Ok [] ->
  not_running source_name w ->
  checkpoints_answer env ->
  reports source_name "success" 0 None (snd (run fetched env w))
  /\ same_records w (snd (run fetched env w)).
Proof.
  intros -> Hguard Hcp. split.
  - exact (run_reports source_name provider provider' bulk transform
             bulk_checkpoints bulk_commutes (Ok []) env w Hguard Hcp).
  - destruct (run_tables source_name provider provider' bulk transform
                bulk_checkpoints bulk_commutes (Ok []) env w Hguard Hcp)
      as (f & Hdb).
    unfold same_records. rewrite Hdb. repeat split.
Qed.

(** A batch fetched and stored without a fault: a success whose count is the
    number of records that the mapping accepted. *)
Lemma run_batch_loaded (fetched : result (list Raw)) (env : Surroundings)
    (w : World) (l : list Raw) :
  fetched = Ok l -> l <> [] ->
  not_running source_name w ->
  checkpoints_answer env ->
  first_fault (raw_faults env) 0 2 = None ->
  first_fault (unified_faults env) 0 (S (List.length (successes transform l)))
  = None ->
  reports source_name "success" (len (successes transform l)) None
    (snd (run fetched env w)).
Proof.
  intros -> Hl Hguard Hcp Hraw Hunified.
  pose proof (run_reports source_name provider provider' bulk transform
                bulk_checkpoints bulk_commutes (Ok l) env w Hguard Hcp)
    as Hrep.
  unfold steps in Hrep. destruct l as [|x l]; [contradiction|].
  rewrite Hraw in Hrep.
  destruct (successes transform (x :: l)) as [|u us]; [exact Hrep|].
  rewrite Hunified in Hrep. exact Hrep.
Qed.

(** The raw batch stored, then a fault while the unified records are
    loaded: a failure with count 0; the raw batch stays, the unified table
    is as before. *)
Lemma run_unified_load_failed (fetched : result (list Raw))
    (env : Surroundings) (w : World) (l : list Raw) (e : exn) :
  fetched = Ok l -> l <> [] ->
  not_running source_name w ->
  checkpoints_answer env ->
  first_fault (raw_faults env) 0 2 = None ->
  successes transform l <> [] ->
  first_fault (unified_faults env) 0 (S (List.length (successes transform l)))
  = Some e ->
  reports source_name "failure" 0 (Some (str e)) (snd (run fetched env w))
  /\ exists f, db (snd (run fetched env w)) = on_checkpoints f (bulk l (db w)).
Proof.
  intros -> Hl Hguard Hcp Hraw Hsome Hunified.
  pose proof (run_reports source_name provider provider' bulk transform
                bulk_checkpoints bulk_commutes (Ok l) env w Hguard Hcp)
    as Hrep.
  destruct (run_tables source_name provider provider' bulk transform
              bulk_checkpoints bulk_commutes (Ok l) env w Hguard Hcp)
    as (f & Hdb).
  unfold steps in Hrep, Hdb. destruct l as [|x l]; [contradiction|].
  rewrite Hraw in Hrep, Hdb.
  destruct (successes transform (x :: l)) as [|u us]; [contradiction|].
  rewrite Hunified in Hrep, Hdb.
  split; [exact Hrep|]. exists f. exact Hdb.
Qed.
End RunCases.

Lemma successes_failures_length {Raw : Type} (provider : string)
    (transform : Raw -> result UnifiedCryptoDataSchema.t) (l : list Raw) :
  (List.length (successes transform l)
   + List.length (failures provider transform l))%nat
  = List.length l.
Proof.
  induction l as [|raw l IH]; simpl; [reflexivity|].
  destruct (transform raw); simpl; lia.
Qed.

Lemma successes_flat_map {Raw : Type}
    (transform : Raw -> result UnifiedCryptoDataSchema.t) (l : list Raw) :
  successes transform l
  = flat_map (fun raw_data =>
                match transform raw_data with
                | Ok unified => [unified]
                | Raise _ => []
                end) l.
Proof.
  induction l as [|raw l IH]; simpl; [reflexivity|].
  destruct (transform raw); simpl; rewrite IH; reflexivity.
Qed.


(** C7.  For each of the three sources: when the source is not marked as
    running and its fetch returns the empty list, the run returns normally,
    the checkpoint of the source has status "success", count 0 and no error
    message, and the raw and unified tables are as before.  (Also,
    [load_unified_data] of the empty list returns 0 and writes nothing.)
    This holds when the storage answers the statements of the checkpoint
    manager ([checkpoints_answer]), which write that checkpoint. *)
Theorem empty_fetch_is_success :
  forall `{Pydantic} (I1 I2 Row : Type) (o : Outside I1 I2 Row) (w : World),
    (fst (fetch_top_coins (coinpaprika_api o) 10) = Ok [] ->
     not_running "coinpaprika" w ->
     checkpoints_answer (coinpaprika_env o) ->
     let r := run_coinpaprika (coinpaprika_api o) (coinpaprika_env o) w in
     fst r = Ok tt
     /\ reports "coinpaprika" "success" 0 None (snd r)
     /\ same_records w (snd r))
    /\ (fst (fetch_markets_data (coingecko_api o) 10) = Ok [] ->
        not_running "coingecko" w ->
        checkpoints_answer (coingecko_env o) ->
        let r := run_coingecko (coingecko_api o) (coingecko_env o) w in
        fst r = Ok tt
        /\ reports "coingecko" "success" 0 None (snd r)
        /\ same_records w (snd r))
    /\ (fetch_data (csv_file o) (csv_parse_row o) = Ok [] ->
        not_running "csv" w ->
        checkpoints_answer (csv_env o) ->
        let r := run_csv (csv_file o) (csv_parse_row o) (csv_env o) w in
        fst r = Ok tt
        /\ reports "csv" "success" 0 None (snd r)
        /\ same_records w (snd r))
    /\ (forall faults, load_unified_data [] faults w = (Ok 0, w)).
Proof.
  intros P I1 I2 Row o w. split; [|split; [|split]].
  - intros Hfetch Hguard Hcp r.
    split; [apply run_source_returns; apply Hcp|].
    unfold r. by_run_lemma @run_nothing_fetched.
  - intros Hfetch Hguard Hcp r.
    split; [apply run_source_returns; apply Hcp|].
    unfold r. by_run_lemma @run_nothing_fetched.
  - intros Hfetch Hguard Hcp r.
    split; [apply run_source_returns; apply Hcp|].
    unfold r. by_run_lemma @run_nothing_fetched.
  - reflexivity.
Qed.

Lemma empty_fetch_is_success_witness :
  (fetch_data (csv_file nothing_outside) (csv_parse_row nothing_outside)
   = Ok []
   /\ not_running "csv" empty_world
   /\ checkpoints_answer (csv_env nothing_outside))
  /\ reports "csv" "success" 0 None
       (snd (@run_csv exact_types unit (csv_file nothing_outside)
               (csv_parse_row nothing_outside) (csv_env nothing_outside)
               empty_world)).
Proof.
  split.
  - split; [reflexivity|]. split; [reflexivity|exact quiet_answers].
  - apply (proj2 (proj2
             (@empty_fetch_is_success exact_types unit unit unit
                nothing_outside empty_world)));
      [reflexivity|reflexivity|exact quiet_answers].
Defined.

(** ** Failed runs *)

(** C9.  For each of the three sources: whenever an exception leaves the
    [try] block, the run completes the checkpoint with status "failure",
    the text of the exception and [records_processed = 0].  In particular,
    when the raw batch has been stored and the load of the unified records
    then fails, the count is 0 although the raw batch is in its table (the
    rows of the batch are appended), and the unified table is as before
    the run.  This holds when the storage answers the statements of the
    checkpoint manager ([checkpoints_answer]), which write that
    checkpoint. *)
Theorem failed_run_reports_zero :
  forall `{Pydantic} (I1 I2 Row : Type) (o : Outside I1 I2 Row) (w : World)
         (e : exn),
    (checkpoints_answer (coinpaprika_env o) ->
     fst (try_coinpaprika (coinpaprika_api o) (coinpaprika_env o) w) = Raise e ->
     reports "coinpaprika" "failure" 0 (Some (str e))
       (snd (run_coinpaprika (coinpaprika_api o) (coinpaprika_env o) w)))
    /\ (checkpoints_answer (coingecko_env o) ->
        fst (try_coingecko (coingecko_api o) (coingecko_env o) w) = Raise e ->
        reports "coingecko" "failure" 0 (Some (str e))
          (snd (run_coingecko (coingecko_api o) (coingecko_env o) w)))
    /\ (checkpoints_answer (csv_env o) ->
        fst (try_csv (csv_file o) (csv_parse_row o) (csv_env o) w) = Raise e ->
        reports "csv" "failure" 0 (Some (str e))
          (snd (run_csv (csv_file o) (csv_parse_row o) (csv_env o) w)))
    /\ (forall l,
          fst (fetch_top_coins (coinpaprika_api o) 10) = Ok l -> l <> [] ->
          not_running "coinpaprika" w ->
          checkpoints_answer (coinpaprika_env o) ->
          first_fault (raw_faults (coinpaprika_env o)) 0 2 = None ->
          successes transform_coinpaprika l <> [] ->
          first_fault (unified_faults (coinpaprika_env o)) 0
            (S (List.length (successes transform_coinpaprika l))) = Some e ->
          let w' :=
            snd (run_coinpaprika (coinpaprika_api o) (coinpaprika_env o) w) in
          reports "coinpaprika" "failure" 0 (Some (str e)) w'
          /\ raw_coinpaprika (db w') = raw_coinpaprika (db w) ++ l
          /\ unified_crypto_data (db w') = unified_crypto_data (db w))
    /\ (forall l,
          fst (fetch_markets_data (coingecko_api o) 10) = Ok l -> l <> [] ->
          not_running "coingecko" w ->
          checkpoints_answer (coingecko_env o) ->
          first_fault (raw_faults (coingecko_env o)) 0 2 = None ->
          successes transform_coingecko l <> [] ->
          first_fault (unified_faults (coingecko_env o)) 0
            (S (List.length (successes transform_coingecko l))) = Some e ->
          let w' :=
            snd (run_coingecko (coingecko_api o) (coingecko_env o) w) in
          reports "coingecko" "failure" 0 (Some (str e)) w'
          /\ raw_coingecko (db w') = raw_coingecko (db w) ++ l
          /\ unified_crypto_data (db w') = unified_crypto_data (db w))
    /\ (forall l,
          fetch_data (csv_file o) (csv_parse_row o) = Ok l -> l <> [] ->
          not_running "csv" w ->
          checkpoints_answer (csv_env o) ->
          first_fault (raw_faults (csv_env o)) 0 2 = None ->
          successes transform_csv l <> [] ->
          first_fault (unified_faults (csv_env o)) 0
            (S (List.length (successes transform_csv l))) = Some e ->
          let w' := snd (run_csv (csv_file o) (csv_parse_row o) (csv_env o) w) in
          reports "csv" "failure" 0 (Some (str e)) w'
          /\ raw_csv (db w') = raw_csv (db w) ++ l
          /\ unified_crypto_data (db w') = unified_crypto_data (db w)).
Proof.
  intros P I1 I2 Row o w e.
  split; [|split; [|split; [|split; [|split]]]].
  - apply coinpaprika_failure_recorded.
  - apply coingecko_failure_recorded.
  - apply csv_failure_recorded.
  - intros l Hfetch Hl Hguard Hcp Hraw Hsome Hunified w'.
    assert (Hrun :
      reports "coinpaprika" "failure" 0 (Some (str e)) w'
      /\ exists f,
           db w' = on_checkpoints f
                     (on_raw_coinpaprika (fun rows => rows ++ l) (db w))).
    { unfold w'. by_run_lemma @run_unified_load_failed. }
    destruct Hrun as (Hrep & f & Hdb).
    split; [exact Hrep|]. rewrite Hdb. split; reflexivity.
  - intros l Hfetch Hl Hguard Hcp Hraw Hsome Hunified w'.
    assert (Hrun :
      reports "coingecko" "failure" 0 (Some (str e)) w'
      /\ exists f,
           db w' = on_checkpoints f
                     (on_raw_coingecko (fun rows => rows ++ l) (db w))).
    { unfold w'. by_run_lemma @run_unified_load_failed. }
    destruct Hrun as (Hrep & f & Hdb).
    split; [exact Hrep|]. rewrite Hdb. split; reflexivity.
  - intros l Hfetch Hl Hguard Hcp Hraw Hsome Hunified w'.
    assert (Hrun :
      reports "csv" "failure" 0 (Some (str e)) w'
      /\ exists f,
           db w' = on_checkpoints f
                     (on_raw_csv (fun rows => rows ++ l) (db w))).
    { unfold w'. by_run_lemma @run_unified_load_failed. }
    destruct Hrun as (Hrep & f & Hdb).
    split; [exact Hrep|]. rewrite Hdb. split; reflexivity.
Qed.

(** ** Batches *)

(** C6.  A batch transformation never raises: it returns the records that
    the per-item mapping accepts, in input order (the mapping applied to
    each item on its own, an item whose mapping raises contributing nothing
    but one ERROR line in the log), and leaves the database alone.
    Accepted and rejected items add up to the input, so a batch of 3 with
    exactly 1 rejected item yields 2 records.  For each of the three
    sources, a run that is let through by the guard, fetches a batch and
    meets no storage fault (in the loads or in the checkpoint manager)
    reports status "success" with [records_processed] the number of accepted
    records. *)
Theorem batch_skips_failed_items :
  forall `{Pydantic} (I1 I2 Row : Type) (o : Outside I1 I2 Row) (w : World),
    (forall (Raw : Type) (provider : string)
            (transform : Raw -> result UnifiedCryptoDataSchema.t)
            (raw_data_list : list Raw),
        transform_batch provider transform raw_data_list w
        = (Ok (successes transform raw_data_list),
           {| db := db w;
              log := log w ++ failures provider transform raw_data_list |})
        /\ successes transform raw_data_list
           = flat_map (fun raw_data =>
                         match transform raw_data with
                         | Ok unified => [unified]
                         | Raise _ => []
                         end) raw_data_list
        /\ (List.length (successes transform raw_data_list)
            + List.length (failures provider transform raw_data_list))%nat
           = List.length raw_data_list
        /\ (List.length raw_data_list = 3%nat ->
            List.length (failures provider transform raw_data_list) = 1%nat ->
            List.length (successes transform raw_data_list) = 2%nat))
    /\ (forall l, fst (transform_batch_coinpaprika l w)
                  = Ok (successes transform_coinpaprika l))
    /\ (forall l, fst (transform_batch_coingecko l w)
                  = Ok (successes transform_coingecko l))
    /\ (forall l, fst (transform_batch_csv l w)
                  = Ok (successes transform_csv l))
    /\ (forall l,
          fst (fetch_top_coins (coinpaprika_api o) 10) = Ok l -> l <> [] ->
          not_running "coinpaprika" w ->
          checkpoints_answer (coinpaprika_env o) ->
          first_fault (raw_faults (coinpaprika_env o)) 0 2 = None ->
          first_fault (unified_faults (coinpaprika_env o)) 0
            (S (List.length (successes transform_coinpaprika l))) = None ->
          reports "coinpaprika" "success"
            (len (successes transform_coinpaprika l)) None
            (snd (run_coinpaprika (coinpaprika_api o) (coinpaprika_env o) w)))
    /\ (forall l,
          fst (fetch_markets_data (coingecko_api o) 10) = Ok l -> l <> [] ->
          not_running "coingecko" w ->
          checkpoints_answer (coingecko_env o) ->
          first_fault (raw_faults (coingecko_env o)) 0 2 = None ->
          first_fault (unified_faults (coingecko_env o)) 0
            (S (List.length (successes transform_coingecko l))) = None ->
          reports "coingecko" "success"
            (len (successes transform_coingecko l)) None
            (snd (run_coingecko (coingecko_api o) (coingecko_env o) w)))
    /\ (forall l,
          fetch_data (csv_file o) (csv_parse_row o) = Ok l -> l <> [] ->
          not_running "csv" w ->
          checkpoints_answer (csv_env o) ->
          first_fault (raw_faults (csv_env o)) 0 2 = None ->
          first_fault (unified_faults (csv_env o)) 0
            (S (List.length (successes transform_csv l))) = None ->
          reports "csv" "success" (len (successes transform_csv l)) None
            (snd (run_csv (csv_file o) (csv_parse_row o) (csv_env o) w))).
Proof.
  intros P I1 I2 Row o w.
  split; [|split; [|split; [|split; [|split; [|split]]]]].
  - intros Raw provider transform raw_data_list.
    split; [apply transform_batch_eq|].
    split; [apply successes_flat_map|].
    pose proof (successes_failures_length provider transform raw_data_list).
    split; [assumption|]. lia.
  - intros l. unfold transform_batch_coinpaprika.
    rewrite transform_batch_eq. reflexivity.
  - intros l. unfold transform_batch_coingecko.
    rewrite transform_batch_eq. reflexivity.
  - intros l. unfold transform_batch_csv.
    rewrite transform_batch_eq. reflexivity.
  - intros l Hfetch Hl Hguard Hcp Hraw Hunified.
    by_run_lemma @run_batch_loaded.
  - intros l Hfetch Hl Hguard Hcp Hraw Hunified.
    by_run_lemma @run_batch_loaded.
  - intros l Hfetch Hl Hguard Hcp Hraw Hunified.
    by_run_lemma @run_batch_loaded.
Qed.

Lemma batch_skips_failed_items_witness :
  (fetch_data (csv_file (three_rows quiet)) (csv_parse_row (three_rows quiet))
   = Ok [csv_row 0; csv_row 1; csv_row 2]
   /\ List.length
        (failures "CSV" (@transform_csv exact_types)
           [csv_row 0; csv_row 1; csv_row 2]) = 1%nat
   /\ checkpoints_answer (csv_env (three_rows quiet)))
  /\ reports "csv" "success" 2 None
       (snd (@run_csv exact_types nat (csv_file (three_rows quiet))
               (csv_parse_row (three_rows quiet)) (csv_env (three_rows quiet))
               empty_world)).
Proof.
  split.
  - split; [reflexivity|]. split; [reflexivity|exact quiet_answers].
  - apply (proj2 (proj2 (proj2 (proj2 (proj2 (proj2
             (@batch_skips_failed_items exact_types unit unit nat
                (three_rows quiet) empty_world)))))))
      with (l := [csv_row 0; csv_row 1; csv_row 2]);
      try exact quiet_answers; try reflexivity.
    discriminate.
Defined.

Lemma failed_run_reports_zero_witness :
  (fetch_data (csv_file (three_rows unified_load_fails))
     (csv_parse_row (three_rows unified_load_fails))
   = Ok [csv_row 0; csv_row 1; csv_row 2]
   /\ first_fault (unified_faults unified_load_fails) 0 3
      = Some (Exception "connection lost")
   /\ checkpoints_answer (csv_env (three_rows unified_load_fails)))
  /\ let w' :=
       snd (@run_csv exact_types nat (csv_file (three_rows unified_load_fails))
              (csv_parse_row (three_rows unified_load_fails))
              (csv_env (three_rows unified_load_fails)) empty_world) in
     reports "csv" "failure" 0 (Some "connection lost") w'
     /\ raw_csv (db w') = [csv_row 0; csv_row 1; csv_row 2]
     /\ unified_crypto_data (db w') = [].
Proof.
  split.
  - split; [reflexivity|].
    split; [reflexivity|exact unified_load_fails_answers].
  - apply (proj2 (proj2 (proj2 (proj2 (proj2
             (@failed_run_reports_zero exact_types unit unit nat
                (three_rows unified_load_fails) empty_world
                (Exception "connection lost")))))))
      with (l := [csv_row 0; csv_row 1; csv_row 2]);
      try exact unified_load_fails_answers; try reflexivity; discriminate.
Defined.

(** ** Exhausted retries *)

Section Exhaustion.
Context {J : Type}.
Variable cfg : Settings.
Variable net : nat -> GetOutcome J.
Hypothesis always_fails : forall attempt, retriable (net attempt) = true.

(** On a failing answer the [try] block returns no body. *)
Lemma try_block_never_returns (attempt : nat) (j : J) :
  fst (try_block cfg net attempt) <> Returned j.
Proof.
  specialize (always_fails attempt). unfold try_block, retriable in *.
  destruct (net attempt) as [[msg|msg]|r]; cbn [fst]; try discriminate.
  destruct (status_code r =? 429); [discriminate|].
  unfold raise_for_status in *.
  destruct ((400 <=? status_code r) && (status_code r <? 600));
    cbn [fst]; [discriminate|].
  destruct (time_sleep (rate_limit_delay cfg)); cbn [fst]; [|discriminate].
  simpl in always_fails.
  destruct (json r) as [j'|[msg|msg]]; cbn [fst]; discriminate.
Qed.

(** When the pause after a request is accepted, it ends in the 429 branch or
    with a request exception. *)
Lemma try_block_retriable (attempt : nat) :
  (0 <= rate_limit_delay cfg)%Q ->
  fst (try_block cfg net attempt) = RateLimited
  \/ exists msg, fst (try_block cfg net attempt) = Failed (RequestException msg).
Proof.
  intros Hpause.
  specialize (always_fails attempt). unfold try_block, retriable in *.
  destruct (net attempt) as [[msg|msg]|r]; cbn [fst].
  - right. eauto.
  - discriminate.
  - destruct (status_code r =? 429); [left; reflexivity|].
    unfold raise_for_status in *.
    destruct ((400 <=? status_code r) && (status_code r <? 600));
      cbn [fst]; [right; eauto|].
    rewrite time_sleep_returns by exact Hpause.
    simpl in always_fails.
    destruct (json r) as [j|[msg|msg]]; cbn [fst];
      [discriminate|right; eauto|discriminate].
Qed.

(** The loop raises, whatever the delays are. *)
Lemma attempts_raise (remaining : nat) :
  forall (attempt : nat) (delay : Q),
    raises (fst (attempts cfg net remaining attempt delay)) = true.
Proof.
  induction remaining as [|remaining IH]; intros attempt delay;
    [reflexivity|].
  specialize (IH (S attempt) (next_delay cfg delay)).
  pose proof (try_block_never_returns attempt) as Hnever.
  cbn [attempts].
  destruct (try_block cfg net attempt) as [[j| |[msg|msg]] evs];
    cbn [fst] in *.
  - exfalso. apply (Hnever j). reflexivity.
  - destruct (time_sleep delay); [|reflexivity].
    destruct (attempts cfg net remaining (S attempt) (next_delay cfg delay));
      exact IH.
  - destruct (Z.of_nat attempt =? max_retries cfg - 1); [reflexivity|].
    destruct (time_sleep delay); [|reflexivity].
    destruct (attempts cfg net remaining (S attempt) (next_delay cfg delay));
      exact IH.
  - reflexivity.
Qed.

(** When no sleep is refused, every attempt is used. *)
Lemma attempts_exhausted (remaining : nat) :
  forall (attempt : nat) (delay : Q),
    (0 <= rate_limit_delay cfg)%Q -> (0 <= max_retry_delay cfg)%Q ->
    (0 <= delay)%Q ->
    (remaining = 0%nat
     \/ Z.of_nat attempt + Z.of_nat remaining = max_retries cfg) ->
    requests_sent (snd (attempts cfg net remaining attempt delay))
    = remaining.
Proof.
  induction remaining as [|remaining IH];
    intros attempt delay Hpause Hmax Hdelay Hinv.
  - reflexivity.
  - destruct Hinv as [Hinv|Hinv]; [discriminate|].
    assert (Hnext : remaining = 0%nat
                    \/ Z.of_nat (S attempt) + Z.of_nat remaining
                       = max_retries cfg) by (right; lia).
    specialize (IH (S attempt) (next_delay cfg delay) Hpause Hmax
                  (next_delay_nonnegative cfg delay Hmax Hdelay) Hnext).
    pose proof (proj2 (try_block_events cfg net attempt)) as Hone.
    assert (Hretry :
      requests_sent (snd (backoff_and_retry cfg net remaining attempt delay))
      = S remaining).
    { unfold backoff_and_retry. cbn [fst snd].
      rewrite requests_sent_app, Hone. cbn [requests_sent]. lia. }
    cbn [attempts]. rewrite time_sleep_returns by exact Hdelay.
    destruct (try_block_retriable attempt Hpause) as [E|[msg E]];
      destruct (try_block cfg net attempt) as [out evs] eqn:Etry;
      cbn [fst snd] in *; subst out.
    + unfold backoff_and_retry in Hretry. rewrite Etry in Hretry.
      cbn [fst snd] in Hretry.
      destruct (attempts cfg net remaining (S attempt) (next_delay cfg delay));
        exact Hretry.
    + destruct (Z.eqb_spec (Z.of_nat attempt) (max_retries cfg - 1))
        as [Hlast|Hlast].
      * cbn [fst snd]. rewrite Hone. lia.
      * unfold backoff_and_retry in Hretry. rewrite Etry in Hretry.
        cbn [fst snd] in Hretry.
        destruct (attempts cfg net remaining (S attempt) (next_delay cfg delay));
          exact Hretry.
Qed.

Lemma make_request_exhausted :
  raises (fst (_make_request cfg net)) = true
  /\ (requests_sent (snd (_make_request cfg net))
      <= Z.to_nat (max_retries cfg))%nat
  /\ (nonnegative_delays cfg ->
      requests_sent (snd (_make_request cfg net))
      = Z.to_nat (max_retries cfg)).
Proof.
  unfold _make_request. split; [apply attempts_raise|].
  split; [apply attempts_requests_sent|].
  intros (Hinitial & Hmax & Hpause).
  apply attempts_exhausted; try assumption.
  destruct (Z.to_nat (max_retries cfg)) eqn:E; [left; reflexivity|right; lia].
Qed.
End Exhaustion.

Lemma fetch_top_coins_returns {Item : Type}
    (api : Provider Item RawCoinPaprikaSchema.t) (limit : Z) :
  raises (fst (fetch_top_coins api limit)) = false
  /\ snd (fetch_top_coins api limit)
     = snd (_make_request (settings api) (session_get api))
  /\ (raises (fst (_make_request (settings api) (session_get api))) = true ->
      fst (fetch_top_coins api limit) = Ok []).
Proof.
  unfold fetch_top_coins.
  destruct (_make_request (settings api) (session_get api)) as [[tickers|e] tr];
    cbn [fst snd raises]; repeat split. discriminate.
Qed.

Lemma fetch_markets_data_returns {Item : Type}
    (api : Provider Item RawCoinGeckoSchema.t) (per_page : Z) :
  raises (fst (fetch_markets_data api per_page)) = false
  /\ snd (fetch_markets_data api per_page)
     = snd (_make_request (settings api) (session_get api))
  /\ (raises (fst (_make_request (settings api) (session_get api))) = true ->
      fst (fetch_markets_data api per_page) = Ok []).
Proof.
  unfold fetch_markets_data.
  destruct (_make_request (settings api) (session_get api)) as [[data|e] tr];
    cbn [fst snd raises]; repeat split. discriminate.
Qed.

Lemma fetch_data_returns {Row : Type} (file : CsvFile Row)
    (parse_row : Row -> result RawCSVSchema.t) :
  raises (fetch_data file parse_row) = false.
Proof. destruct file; reflexivity. Qed.




(** ** The back-off schedule *)

(** With the default delays the schedule is 1, 2, 4, 8, 16, 32 and then 60
    for ever. *)
Lemma default_schedule (cfg : Settings) (k : nat) :
  initial_retry_delay cfg = 1%Q -> max_retry_delay cfg = 60%Q ->
  Nat.iter k (next_delay cfg) (initial_retry_delay cfg)
  = nth k [1; 2; 4; 8; 16; 32]%Q 60%Q.
Proof.
  intros Hi Hm. rewrite Hi.
  assert (Hstep : forall d, next_delay cfg d = Qmin (d * 2) 60)
    by (intros d; unfold next_delay; rewrite Hm; reflexivity).
  assert (Hcap : forall j, Nat.iter (6 + j) (next_delay cfg) 1%Q = 60%Q).
  { induction j as [|j IH].
    - change (6 + 0)%nat with 6%nat.
      rewrite !Nat.iter_succ, !Hstep. reflexivity.
    - rewrite Nat.add_succ_r, Nat.iter_succ, IH, Hstep. reflexivity. }
  do 6 (destruct k as [|k];
        [rewrite ?Nat.iter_succ, ?Hstep; reflexivity|]).
  change (S (S (S (S (S (S k)))))) with (6 + k)%nat at 1.
  rewrite Hcap. destruct k; reflexivity.
Qed.




(** * More properties of the code *)

(** ** More on the retry loop *)

Section RetryPrefix.
Context {J : Type}.
Variable cfg : Settings.
Variable net : nat -> GetOutcome J.

Lemma try_block_of_retriable (attempt : nat) :
  (0 <= rate_limit_delay cfg)%Q ->
  retriable (net attempt) = true ->
  fst (try_block cfg net attempt) = RateLimited
  \/ exists msg, fst (try_block cfg net attempt) = Failed (RequestException msg).
Proof.
  intros Hpause Hret. unfold try_block, retriable in *.
  destruct (net attempt) as [[msg|msg]|r]; cbn [fst].
  - right. eauto.
  - discriminate.
  - destruct (status_code r =? 429); [left; reflexivity|].
    unfold raise_for_status in *.
    destruct ((400 <=? status_code r) && (status_code r <? 600));
      cbn [fst]; [right; eauto|].
    rewrite time_sleep_returns by exact Hpause.
    simpl in Hret.
    destruct (json r) as [j|[msg|msg]]; cbn [fst];
      [discriminate|right; eauto|discriminate].
Qed.

Lemma attempts_retriable (remaining attempt : nat) (delay : Q) :
  (0 <= rate_limit_delay cfg)%Q -> (0 <= delay)%Q ->
  retriable (net attempt) = true ->
  Z.of_nat attempt <> max_retries cfg - 1 ->
  attempts cfg net (S remaining) attempt delay
  = backoff_and_retry cfg net remaining attempt delay.
Proof.
  intros Hpause Hdelay Hret Hlast. unfold backoff_and_retry. cbn [attempts].
  rewrite time_sleep_returns by exact Hdelay.
  destruct (try_block_of_retriable attempt Hpause Hret) as [E|[msg E]];
    destruct (try_block cfg net attempt) as [out evs];
    cbn [fst snd] in *; subst out.
  - destruct (attempts cfg net _ _ _); reflexivity.
  - destruct (Z.eqb_spec (Z.of_nat attempt) (max_retries cfg - 1));
      [contradiction|].
    destruct (attempts cfg net _ _ _); reflexivity.
Qed.

(** After [k] failing answers that leave attempts, and with no sleep
    refused, the loop is where it would be had it started [k] attempts later
    with the [k]-th delay. *)
Lemma attempts_after_retries (k : nat) :
  forall (remaining attempt : nat) (delay : Q),
    (0 <= rate_limit_delay cfg)%Q -> (0 <= max_retry_delay cfg)%Q ->
    (0 <= delay)%Q ->
    (forall i, (i < k)%nat -> retriable (net (attempt + i)%nat) = true) ->
    Z.of_nat attempt + Z.of_nat k < max_retries cfg ->
    let rest :=
      attempts cfg net remaining (attempt + k)
        (Nat.iter k (next_delay cfg) delay) in
    exists before,
      attempts cfg net (k + remaining) attempt delay
      = (fst rest, before ++ snd rest)
      /\ requests_sent before = k
      /\ backoff_delays before = delays_from cfg k delay.
Proof.
  induction k as [|k IH];
    intros remaining attempt delay Hpause Hmax Hdelay Hret Hk rest.
  - exists []. unfold rest. rewrite Nat.add_0_r. cbn [Nat.iter nat_rect app].
    rewrite <- surjective_pairing. repeat split.
  - change (S k + remaining)%nat with (S (k + remaining)).
    rewrite attempts_retriable;
      [|assumption|assumption
       |rewrite <- (Nat.add_0_r attempt); apply Hret; lia|lia].
    unfold backoff_and_retry.
    destruct (IH remaining (S attempt) (next_delay cfg delay) Hpause Hmax
                (next_delay_nonnegative cfg delay Hmax Hdelay))
      as (before & E & Hn & Hd).
    { intros i Hi. replace (S attempt + i)%nat with (attempt + S i)%nat by lia.
      apply Hret. lia. }
    { lia. }
    replace (S attempt + k)%nat with (attempt + S k)%nat in * by lia.
    rewrite <- Nat.iter_succ_r in *.
    fold rest in E. rewrite E. cbn [fst snd].
    exists (snd (try_block cfg net attempt) ++ EvBackoff delay :: before).
    split; [rewrite <- app_assoc; reflexivity|].
    rewrite requests_sent_app, backoff_delays_app.
    rewrite (proj1 (try_block_events cfg net attempt)).
    rewrite (proj2 (try_block_events cfg net attempt)).
    cbn [app backoff_delays requests_sent delays_from].
    rewrite Hn, Hd. split; reflexivity.
Qed.

Lemma delays_from_length (k : nat) :
  forall delay, List.length (delays_from cfg k delay) = k.
Proof. induction k as [|k IH]; intros delay; simpl; auto. Qed.

(** What [_make_request] does up to its attempt [k], when the attempts
    before it fail and leave attempts and no delay is negative. *)
Lemma make_request_after_retries (k : nat) :
  nonnegative_delays cfg ->
  (forall i, (i < k)%nat -> retriable (net i) = true) ->
  Z.of_nat k < max_retries cfg ->
  exists remaining before,
    Z.to_nat (max_retries cfg) = (k + S remaining)%nat
    /\ _make_request cfg net
       = (fst (attempts cfg net (S remaining) k
                 (Nat.iter k (next_delay cfg) (initial_retry_delay cfg))),
          before
          ++ snd (attempts cfg net (S remaining) k
                    (Nat.iter k (next_delay cfg) (initial_retry_delay cfg))))
    /\ requests_sent before = k
    /\ backoff_delays before = delays_from cfg k (initial_retry_delay cfg).
Proof.
  intros (Hinitial & Hmax & Hpause) Hret Hk.
  exists (Z.to_nat (max_retries cfg) - S k)%nat.
  assert (Hn : Z.to_nat (max_retries cfg)
               = (k + S (Z.to_nat (max_retries cfg) - S k))%nat) by lia.
  destruct (attempts_after_retries k (S (Z.to_nat (max_retries cfg) - S k))
              0%nat (initial_retry_delay cfg) Hpause Hmax Hinitial)
    as (before & E & Hsent & Hdelays).
  { intros i Hi. apply Hret. exact Hi. }
  { lia. }
  exists before. split; [exact Hn|].
  unfold _make_request. rewrite Hn at 1. cbn [Nat.add] in E.
  rewrite E. repeat split; assumption.
Qed.
End RetryPrefix.


Lemma default_delays_nonnegative : nonnegative_delays default_settings.
Proof. repeat split; unfold Qle; simpl; lia. Qed.




Section RetryToTheEnd.
Context {J : Type}.
Variable cfg : Settings.
Variable net : nat -> GetOutcome J.

Lemma attempts_always_rate_limited (remaining : nat) :
  (forall i, exists r, net i = GetReturns r /\ status_code r = 429) ->
  (0 <= max_retry_delay cfg)%Q ->
  forall (attempt : nat) (delay : Q),
    (0 <= delay)%Q ->
    fst (attempts cfg net remaining attempt delay)
    = Raise (Exception "Max retries exceeded")
    /\ requests_sent (snd (attempts cfg net remaining attempt delay))
       = remaining
    /\ backoff_delays (snd (attempts cfg net remaining attempt delay))
       = delays_from cfg remaining delay.
Proof.
  intros H429 Hmax.
  induction remaining as [|remaining IH]; intros attempt delay Hdelay.
  - repeat split.
  - destruct (H429 attempt) as (r & Hget & Hstatus).
    rewrite (attempts_rate_limited cfg net remaining attempt delay r Hdelay
               Hget Hstatus).
    unfold backoff_and_retry. cbn [fst snd].
    destruct (IH (S attempt) (next_delay cfg delay)
                (next_delay_nonnegative cfg delay Hmax Hdelay))
      as (Hr & Hn & Hd).
    rewrite requests_sent_app, backoff_delays_app.
    rewrite (proj1 (try_block_events cfg net attempt)).
    rewrite (proj2 (try_block_events cfg net attempt)).
    cbn [app backoff_delays requests_sent delays_from].
    rewrite Hr, Hn, Hd. repeat split.
Qed.

Lemma attempts_always_request_exception (msg : nat -> string)
    (remaining : nat) :
  (forall i, net i = GetRaises (RequestException (msg i))) ->
  (0 <= max_retry_delay cfg)%Q ->
  forall (attempt : nat) (delay : Q),
    (0 <= delay)%Q ->
    Z.of_nat attempt + Z.of_nat (S remaining) = max_retries cfg ->
    fst (attempts cfg net (S remaining) attempt delay)
    = Raise (RequestException (msg (attempt + remaining)%nat))
    /\ requests_sent (snd (attempts cfg net (S remaining) attempt delay))
       = S remaining
    /\ backoff_delays (snd (attempts cfg net (S remaining) attempt delay))
       = delays_from cfg remaining delay.
Proof.
  intros Hexn Hmax.
  induction remaining as [|remaining IH]; intros attempt delay Hdelay Hinv.
  - cbn [attempts]. unfold try_block. rewrite Hexn.
    destruct (Z.eqb_spec (Z.of_nat attempt) (max_retries cfg - 1)); [|lia].
    rewrite Nat.add_0_r. repeat split.
  - rewrite (attempts_request_failed cfg net (S remaining) attempt delay
               (msg attempt) Hdelay (Hexn attempt)) by lia.
    unfold backoff_and_retry. cbn [fst snd].
    destruct (IH (S attempt) (next_delay cfg delay)
                (next_delay_nonnegative cfg delay Hmax Hdelay))
      as (Hr & Hn & Hd); [lia|].
    rewrite requests_sent_app, backoff_delays_app.
    rewrite (proj1 (try_block_events cfg net attempt)).
    rewrite (proj2 (try_block_events cfg net attempt)).
    cbn [app backoff_delays requests_sent delays_from].
    rewrite Hr, Hn, Hd.
    replace (S attempt + remaining)%nat with (attempt + S remaining)%nat by lia.
    repeat split.
Qed.

Lemma attempts_backoffs_bounded (remaining : nat) :
  forall (attempt : nat) (delay : Q),
    (List.length (backoff_delays (snd (attempts cfg net remaining attempt delay)))
     <= remaining)%nat.
Proof.
  induction remaining as [|remaining IH]; intros attempt delay.
  - simpl. lia.
  - destruct (attempts_cases cfg net remaining attempt delay) as [E|E];
      rewrite E.
    + unfold backoff_and_retry. cbn [snd]. rewrite backoff_delays_app.
      rewrite (proj1 (try_block_events cfg net attempt)).
      cbn [app backoff_delays List.length].
      specialize (IH (S attempt) (next_delay cfg delay)). lia.
    + rewrite (proj1 (try_block_events cfg net attempt)). simpl. lia.
Qed.
End RetryToTheEnd.

Lemma total_delay_bounded (delays : list Q) (m : Q) :
  (forall d, In d delays -> (d <= m)%Q) ->
  (total_delay delays <= inject_Z (Z.of_nat (List.length delays)) * m)%Q.
Proof.
  induction delays as [|d delays IH]; intros Hall.
  - change (total_delay []) with 0%Q.
    change (inject_Z (Z.of_nat (List.length (@nil Q)))) with 0%Q. lra.
  - cbn [List.length]. rewrite Nat2Z.inj_succ, <- Z.add_1_r, inject_Z_plus.
    change (total_delay (d :: delays)) with (d + total_delay delays)%Q.
    assert (Hd : (d <= m)%Q) by (apply Hall; left; reflexivity).
    assert (IH' := IH (fun d' H => Hall d' (or_intror H))).
    change (inject_Z 1) with 1%Q. lra.
Qed.





(** X5.  With [0 <= max_retry_delay] and [initial_retry_delay <=
    max_retry_delay], the backoff sleeps of one call of [_make_request] add
    up to at most [max_retries * max_retry_delay] (0 for a negative
    [max_retries]), whatever the provider answers. *)
Theorem total_backoff_bounded :
  forall (J : Type) (cfg : Settings) (net : nat -> GetOutcome J),
    (0 <= max_retry_delay cfg)%Q ->
    (initial_retry_delay cfg <= max_retry_delay cfg)%Q ->
    (total_delay (backoff_delays (snd (_make_request cfg net)))
     <= inject_Z (Z.max 0 (max_retries cfg)) * max_retry_delay cfg)%Q.
Proof.
  intros J cfg net Hmax Hle.
  set (delays := backoff_delays (snd (_make_request cfg net))).
  assert (Hall : forall d, In d delays -> (d <= max_retry_delay cfg)%Q).
  { intros d Hin. apply In_nth_error in Hin. destruct Hin as [k Hk].
    apply attempts_backoff_nth in Hk. subst d.
    rewrite (iter_next_delay cfg k Hle). apply Q.le_min_r. }
  assert (Hlen : (List.length delays <= Z.to_nat (max_retries cfg))%nat)
    by apply attempts_backoffs_bounded.
  eapply Qle_trans; [apply total_delay_bounded; exact Hall|].
  apply Qmult_le_compat_r; [|exact Hmax].
  rewrite <- Zle_Qle. lia.
Qed.

Lemma total_backoff_bounded_witness :
  ((0 <= max_retry_delay eight_attempts)%Q
   /\ (initial_retry_delay eight_attempts <= max_retry_delay eight_attempts)%Q)
  /\ (total_delay
        (backoff_delays (snd (_make_request eight_attempts rate_limited_forever)))
      <= inject_Z 8 * 60)%Q.
Proof.
  assert (H0 : (0 <= max_retry_delay eight_attempts)%Q)
    by (unfold Qle; simpl; lia).
  assert (H1 : (initial_retry_delay eight_attempts
                <= max_retry_delay eight_attempts)%Q)
    by (unfold Qle; simpl; lia).
  split; [split; assumption|].
  exact (total_backoff_bounded (list unit) eight_attempts rate_limited_forever
           H0 H1).
Defined.

(** ** More on the fetchers *)

Lemma parse_items_flat_map {Item Raw : Type} (parse : Item -> result Raw)
    (items : list Item) :
  parse_items parse items
  = flat_map (fun item =>
                match parse item with
                | Ok schema => [schema]
                | Raise _ => []
                end) items.
Proof.
  induction items as [|item items IH]; simpl; [reflexivity|].
  destruct (parse item); simpl; rewrite IH; reflexivity.
Qed.

Lemma parse_items_length {Item Raw : Type} (parse : Item -> result Raw)
    (items : list Item) :
  (List.length (parse_items parse items) <= List.length items)%nat.
Proof.
  induction items as [|item items IH]; simpl; [lia|].
  destruct (parse item); simpl; lia.
Qed.

Lemma parse_items_all {Item Raw : Type} (parse : Item -> result Raw)
    (items : list Item) (f : Item -> Raw) :
  (forall item, In item items -> parse item = Ok (f item)) ->
  parse_items parse items = map f items.
Proof.
  induction items as [|item items IH]; intros Hall; simpl; [reflexivity|].
  rewrite (Hall item) by (left; reflexivity).
  rewrite IH by (intros i Hi; apply Hall; right; exact Hi). reflexivity.
Qed.

(** A malformed item is one that a shorter list can account for. *)
Lemma parse_items_skips {Item Raw : Type} (parse : Item -> result Raw)
    (before after : list Item) (item : Item) (e : exn) :
  parse item = Raise e ->
  parse_items parse (before ++ item :: after)
  = parse_items parse (before ++ after).
Proof.
  intros Hbad. induction before as [|b before IH]; simpl.
  - rewrite Hbad. reflexivity.
  - destruct (parse b); rewrite IH; reflexivity.
Qed.

(** X6.  When the request succeeds, [fetch_top_coins] and [fetch_markets_data]
    return the schema objects of the items of the answer, in order, without
    the items whose construction raises: never more objects than items, the
    same list as for the answer without a rejected item, and one object per
    item when no construction raises. *)
Theorem list_fetchers_keep_well_formed_items :
  forall (I1 I2 : Type) (cp : Provider I1 RawCoinPaprikaSchema.t)
         (cg : Provider I2 RawCoinGeckoSchema.t) (limit : Z),
    (forall tickers,
        fst (_make_request (settings cp) (session_get cp)) = Ok tickers ->
        fst (fetch_top_coins cp limit)
        = Ok (parse_items (parse_item cp) tickers)
        /\ (List.length (parse_items (parse_item cp) tickers)
            <= List.length tickers)%nat
        /\ (forall before item after e,
              tickers = before ++ item :: after ->
              parse_item cp item = Raise e ->
              fst (fetch_top_coins cp limit)
              = Ok (parse_items (parse_item cp) (before ++ after)))
        /\ (forall f,
              (forall item, In item tickers -> parse_item cp item = Ok (f item)) ->
              fst (fetch_top_coins cp limit) = Ok (map f tickers)))
    /\ (forall data,
          fst (_make_request (settings cg) (session_get cg)) = Ok data ->
          fst (fetch_markets_data cg limit)
          = Ok (parse_items (parse_item cg) data)
          /\ (List.length (parse_items (parse_item cg) data)
              <= List.length data)%nat
          /\ (forall before item after e,
                data = before ++ item :: after ->
                parse_item cg item = Raise e ->
                fst (fetch_markets_data cg limit)
                = Ok (parse_items (parse_item cg) (before ++ after)))
          /\ (forall f,
                (forall item, In item data -> parse_item cg item = Ok (f item)) ->
                fst (fetch_markets_data cg limit) = Ok (map f data))).
Proof.
  intros I1 I2 cp cg limit. split.
  - intros tickers Hreq.
    assert (E : fst (fetch_top_coins cp limit)
                = Ok (parse_items (parse_item cp) tickers)).
    { unfold fetch_top_coins.
      destruct (_make_request (settings cp) (session_get cp)) as [r tr].
      cbn [fst] in Hreq. subst r. reflexivity. }
    rewrite E. split; [reflexivity|]. split; [apply parse_items_length|].
    split.
    + intros before item after e -> Hbad.
      rewrite (parse_items_skips _ before after item e Hbad). reflexivity.
    + intros f Hall. rewrite (parse_items_all _ tickers f Hall). reflexivity.
  - intros data Hreq.
    assert (E : fst (fetch_markets_data cg limit)
                = Ok (parse_items (parse_item cg) data)).
    { unfold fetch_markets_data.
      destruct (_make_request (settings cg) (session_get cg)) as [r tr].
      cbn [fst] in Hreq. subst r. reflexivity. }
    rewrite E. split; [reflexivity|]. split; [apply parse_items_length|].
    split.
    + intros before item after e -> Hbad.
      rewrite (parse_items_skips _ before after item e Hbad). reflexivity.
    + intros f Hall. rewrite (parse_items_all _ data f Hall). reflexivity.
Qed.

Lemma list_fetchers_keep_well_formed_items_witness :
  fst (_make_request (settings (coinpaprika_api first_source_fails))
         (session_get (coinpaprika_api first_source_fails))) = Ok [tt]
  /\ fst (fetch_top_coins (coinpaprika_api first_source_fails) 10)
     = Ok [ticker].
Proof.
  split; [reflexivity|].
  exact (proj1 (proj1 (list_fetchers_keep_well_formed_items unit unit
                         (coinpaprika_api first_source_fails)
                         (coingecko_api first_source_fails) 10)
                  [tt] eq_refl)).
Defined.



(** ** More on the transformer *)

Lemma init_source `{Pydantic}
    (coin_id name symbol price_usd market_cap volume_24h : value)
    (source : string) (ingested_at : value) (u : UnifiedCryptoDataSchema.t) :
  UnifiedCryptoDataSchema.init coin_id name symbol price_usd market_cap
    volume_24h source ingested_at = Ok u ->
  UnifiedCryptoDataSchema.validate_source source
  = Some (UnifiedCryptoDataSchema.source u).
Proof.
  unfold UnifiedCryptoDataSchema.init.
  destruct (validate_str coin_id); [|discriminate].
  destruct (validate_str name); [|discriminate].
  destruct (validate_str symbol); [|discriminate].
  destruct (validate_optional_float price_usd); [|discriminate].
  destruct (validate_optional_float market_cap); [|discriminate].
  destruct (validate_optional_float volume_24h); [|discriminate].
  destruct (UnifiedCryptoDataSchema.validate_source source); [|discriminate].
  destruct (validate_datetime ingested_at); [|discriminate].
  intros E. injection E as <-. reflexivity.
Qed.

Lemma successes_in {Raw : Type}
    (transform : Raw -> result UnifiedCryptoDataSchema.t) (l : list Raw)
    (u : UnifiedCryptoDataSchema.t) :
  In u (successes transform l) <->
  exists raw, In raw l /\ transform raw = Ok u.
Proof.
  induction l as [|raw l IH]; simpl.
  - split; [contradiction|]. intros (raw & [] & _).
  - destruct (transform raw) as [u'|e] eqn:E; simpl.
    + rewrite IH. split.
      * intros [<-|(raw' & Hin & Ht)]; eauto.
      * intros (raw' & [<-|Hin] & Ht); [left; congruence|right; eauto].
    + rewrite IH. split.
      * intros (raw' & Hin & Ht). eauto.
      * intros (raw' & [<-|Hin] & Ht); [congruence|eauto].
Qed.

(** X8.  Every record that a batch transformation returns carries the source of
    its mapping: coinpaprika for [transform_batch_coinpaprika], coingecko
    for [transform_batch_coingecko], csv for [transform_batch_csv]. *)
Theorem batch_output_carries_its_source :
  forall `{Pydantic} (w : World) (u : UnifiedCryptoDataSchema.t),
    (forall l us,
        fst (transform_batch_coinpaprika l w) = Ok us -> In u us ->
        UnifiedCryptoDataSchema.source u = "coinpaprika")
    /\ (forall l us,
          fst (transform_batch_coingecko l w) = Ok us -> In u us ->
          UnifiedCryptoDataSchema.source u = "coingecko")
    /\ (forall l us,
          fst (transform_batch_csv l w) = Ok us -> In u us ->
          UnifiedCryptoDataSchema.source u = "csv").
Proof.
  intros P w u. split; [|split]; intros l us Hbatch Hin.
  - unfold transform_batch_coinpaprika in Hbatch.
    rewrite transform_batch_eq in Hbatch. cbn [fst] in Hbatch.
    injection Hbatch as <-. apply successes_in in Hin.
    destruct Hin as (raw & _ & Ht). apply init_source in Ht.
    apply (f_equal (fun o => match o with Some x => x | None => "" end)) in Ht.
    symmetry. exact Ht.
  - unfold transform_batch_coingecko in Hbatch.
    rewrite transform_batch_eq in Hbatch. cbn [fst] in Hbatch.
    injection Hbatch as <-. apply successes_in in Hin.
    destruct Hin as (raw & _ & Ht). apply init_source in Ht.
    apply (f_equal (fun o => match o with Some x => x | None => "" end)) in Ht.
    symmetry. exact Ht.
  - unfold transform_batch_csv in Hbatch.
    rewrite transform_batch_eq in Hbatch. cbn [fst] in Hbatch.
    injection Hbatch as <-. apply successes_in in Hin.
    destruct Hin as (raw & _ & Ht). apply init_source in Ht.
    apply (f_equal (fun o => match o with Some x => x | None => "" end)) in Ht.
    symmetry. exact Ht.
Qed.

Section DeclaredTypes.
Context `{P : Pydantic}.
Hypothesis accepts : accepts_declared_types P.

Lemma validate_declared_str (v : value) :
  is_str v = true -> validate_str v = Some (str_of v).
Proof. destruct v; try discriminate. intros _. apply accepts. Qed.

Lemma validate_declared_optional_str (v : value) :
  is_optional_str v = true ->
  validate_str (py_or v (VStr "")) = Some (str_of v).
Proof.
  destruct v as [|s| | |]; try discriminate; intros _.
  - apply accepts.
  - unfold py_or, truthy. destruct (String.eqb_spec s "") as [->|Hne];
      apply accepts.
Qed.

Lemma validate_declared_optional_float (v : value) :
  is_optional_float v = true ->
  validate_optional_float v = Some (float_of v).
Proof. destruct v; try discriminate; intros _; apply accepts. Qed.

Lemma validate_declared_datetime (v : value) :
  is_datetime v = true -> validate_datetime v = Some (datetime_of v).
Proof. destruct v; try discriminate. intros _. apply accepts. Qed.

Lemma transform_coinpaprika_declared (raw : RawCoinPaprikaSchema.t) :
  declared_coinpaprika raw = true ->
  transform_coinpaprika raw = Ok (unified_of_coinpaprika raw).
Proof.
  unfold declared_coinpaprika. intros H. 
  repeat (apply andb_true_iff in H; destruct H as [H ?]).
  unfold transform_coinpaprika, UnifiedCryptoDataSchema.init.
  rewrite validate_declared_str, !validate_declared_optional_str,
    !validate_declared_optional_float, validate_declared_datetime
    by assumption.
  reflexivity.
Qed.

Lemma transform_coingecko_declared (raw : RawCoinGeckoSchema.t) :
  declared_coingecko raw = true ->
  transform_coingecko raw = Ok (unified_of_coingecko raw).
Proof.
  unfold declared_coingecko. intros H.
  repeat (apply andb_true_iff in H; destruct H as [H ?]).
  unfold transform_coingecko, UnifiedCryptoDataSchema.init.
  rewrite validate_declared_str, !validate_declared_optional_str,
    !validate_declared_optional_float, validate_declared_datetime
    by assumption.
  reflexivity.
Qed.

Lemma transform_csv_declared (raw : RawCSVSchema.t) :
  declared_csv raw = true ->
  transform_csv raw = Ok (unified_of_csv raw).
Proof.
  unfold declared_csv. intros H.
  repeat (apply andb_true_iff in H; destruct H as [H ?]).
  unfold transform_csv, UnifiedCryptoDataSchema.init.
  rewrite !validate_declared_str,
    !validate_declared_optional_float, validate_declared_datetime
    by assumption.
  reflexivity.
Qed.
End DeclaredTypes.

Lemma successes_all {Raw : Type}
    (transform : Raw -> result UnifiedCryptoDataSchema.t)
    (f : Raw -> UnifiedCryptoDataSchema.t) (provider : string) (l : list Raw) :
  (forall raw, In raw l -> transform raw = Ok (f raw)) ->
  successes transform l = map f l /\ failures provider transform l = [].
Proof.
  induction l as [|raw l IH]; intros Hall; simpl; [split; reflexivity|].
  rewrite (Hall raw) by (left; reflexivity).
  destruct IH as [IH1 IH2]; [intros r Hr; apply Hall; right; exact Hr|].
  rewrite IH1, IH2. split; reflexivity.
Qed.

(** X9.  With validators that accept the values of the declared types, a batch
    whose raw objects have their declared types in the attributes that the
    mapping reads is transformed without a loss and without a log line: one
    record per raw object, in order, with an absent name or symbol of a
    provider as the empty string and an absent number as [None]. *)
Theorem declared_batches_lose_nothing :
  forall (P : Pydantic) (w : World),
    accepts_declared_types P ->
    (forall l,
        forallb declared_coinpaprika l = true ->
        transform_batch_coinpaprika l w = (Ok (map unified_of_coinpaprika l), w))
    /\ (forall l,
          forallb declared_coingecko l = true ->
          transform_batch_coingecko l w = (Ok (map unified_of_coingecko l), w))
    /\ (forall l,
          forallb declared_csv l = true ->
          transform_batch_csv l w = (Ok (map unified_of_csv l), w)).
Proof.
  intros P w Hacc. split; [|split]; intros l Hall;
    rewrite forallb_forall in Hall.
  - unfold transform_batch_coinpaprika. rewrite transform_batch_eq.
    destruct (successes_all transform_coinpaprika unified_of_coinpaprika
                "CoinPaprika" l) as [-> ->].
    { intros raw Hin. apply transform_coinpaprika_declared; auto. }
    rewrite app_nil_r. reflexivity.
  - unfold transform_batch_coingecko. rewrite transform_batch_eq.
    destruct (successes_all transform_coingecko unified_of_coingecko
                "CoinGecko" l) as [-> ->].
    { intros raw Hin. apply transform_coingecko_declared; auto. }
    rewrite app_nil_r. reflexivity.
  - unfold transform_batch_csv. rewrite transform_batch_eq.
    destruct (successes_all transform_csv unified_of_csv "CSV" l) as [-> ->].
    { intros raw Hin. apply transform_csv_declared; auto. }
    rewrite app_nil_r. reflexivity.
Qed.

Lemma exact_types_accepts : accepts_declared_types exact_types.
Proof. repeat split. Qed.

Lemma declared_batches_lose_nothing_witness :
  (accepts_declared_types exact_types
   /\ forallb declared_coinpaprika [ticker] = true)
  /\ @transform_batch_coinpaprika exact_types [ticker] empty_world
     = (Ok [unified_of_coinpaprika ticker], empty_world).
Proof.
  split; [split; [exact exact_types_accepts|reflexivity]|].
  exact (proj1 (declared_batches_lose_nothing exact_types empty_world
                  exact_types_accepts) [ticker] eq_refl).
Defined.

Lemma batch_output_carries_its_source_witness :
  fst (@transform_batch_coinpaprika exact_types [ticker] empty_world)
  = Ok [unified_of_coinpaprika ticker]
  /\ UnifiedCryptoDataSchema.source (unified_of_coinpaprika ticker)
     = "coinpaprika".
Proof.
  split; [reflexivity|].
  exact (proj1 (@batch_output_carries_its_source exact_types empty_world
                  (unified_of_coinpaprika ticker))
           [ticker] [unified_of_coinpaprika ticker] eq_refl
           (or_introl eq_refl)).
Defined.

(** ** Nothing is deleted *)

Lemma upsert_keys (data : UnifiedCryptoDataSchema.t)
    (rows : list UnifiedCryptoDataSchema.t) :
  exists l,
    map natural_key (insert_on_conflict_do_update data rows)
    = map natural_key rows ++ l
    /\ (List.length l <= 1)%nat.
Proof.
  unfold insert_on_conflict_do_update.
  destruct (existsb (same_key data) rows).
  - exists []. rewrite app_nil_r, map_map. split; [|simpl; lia].
    apply map_ext. intros row. destruct (same_key data row); reflexivity.
  - exists [natural_key data]. rewrite map_app. split; [reflexivity|simpl; lia].
Qed.

Lemma upsert_all_keys (data_list : list UnifiedCryptoDataSchema.t) :
  forall rows,
    exists l,
      map natural_key (upsert_all data_list rows) = map natural_key rows ++ l
      /\ (List.length l <= List.length data_list)%nat.
Proof.
  induction data_list as [|data data_list IH]; intros rows.
  - exists []. rewrite app_nil_r. split; [reflexivity|simpl; lia].
  - cbn [upsert_all fold_left].
    destruct (IH (insert_on_conflict_do_update data rows)) as (l2 & E2 & H2).
    destruct (upsert_keys data rows) as (l1 & E1 & H1).
    exists (l1 ++ l2). unfold upsert_all in E2. rewrite E2, E1, app_assoc.
    split; [reflexivity|]. rewrite length_app. simpl. lia.
Qed.

Lemma nothing_deleted_refl (d : DB) : nothing_deleted d d.
Proof. repeat split; exists []; rewrite app_nil_r; reflexivity. Qed.

Lemma nothing_deleted_trans (d1 d2 d3 : DB) :
  nothing_deleted d1 d2 -> nothing_deleted d2 d3 -> nothing_deleted d1 d3.
Proof.
  intros ((a1 & A1) & (b1 & B1) & (c1 & C1) & (u1 & U1))
         ((a2 & A2) & (b2 & B2) & (c2 & C2) & (u2 & U2)).
  repeat split.
  - exists (a1 ++ a2). rewrite A2, A1, app_assoc. reflexivity.
  - exists (b1 ++ b2). rewrite B2, B1, app_assoc. reflexivity.
  - exists (c1 ++ c2). rewrite C2, C1, app_assoc. reflexivity.
  - exists (u1 ++ u2). rewrite U2, U1, app_assoc. reflexivity.
Qed.

Lemma nothing_deleted_checkpoints (f : list Checkpoint.t -> list Checkpoint.t)
    (d : DB) :
  nothing_deleted d (on_checkpoints f d).
Proof. repeat split; exists []; rewrite app_nil_r; reflexivity. Qed.

(** X13.  [run_all] deletes nothing: each raw table afterwards is the table
    before followed by new rows, and the unified table keeps the keys of its
    rows in place (a row is overwritten or a row is appended), so that it
    has at least as many rows as before. *)
Theorem run_all_deletes_nothing :
  forall `{Pydantic} (I1 I2 Row : Type) (o : Outside I1 I2 Row) (w : World),
    let d := db w in
    let d' := db (snd (run_all o w)) in
    (exists l, raw_coinpaprika d' = raw_coinpaprika d ++ l)
    /\ (exists l, raw_coingecko d' = raw_coingecko d ++ l)
    /\ (exists l, raw_csv d' = raw_csv d ++ l)
    /\ (exists l,
           map natural_key (unified_crypto_data d')
           = map natural_key (unified_crypto_data d) ++ l)
    /\ (List.length (unified_crypto_data d)
        <= List.length (unified_crypto_data d'))%nat.
Proof.
  intros P I1 I2 Row o w d d'.
  assert (Hnd : nothing_deleted d d').
  { apply (within_run_all nothing_deleted nothing_deleted_refl
             nothing_deleted_trans o).
    - intros s utcnow faults. apply within_start_run.
      exact nothing_deleted_checkpoints.
    - intros s n q success err faults. apply within_complete_run.
      exact nothing_deleted_checkpoints.
    - intros l d0. repeat split; cbn; try (exists []; rewrite app_nil_r; reflexivity).
      exists l. reflexivity.
    - intros l d0. repeat split; cbn; try (exists []; rewrite app_nil_r; reflexivity).
      exists l. reflexivity.
    - intros l d0. repeat split; cbn; try (exists []; rewrite app_nil_r; reflexivity).
      exists l. reflexivity.
    - intros l d0. repeat split; cbn; try (exists []; rewrite app_nil_r; reflexivity).
      destruct (upsert_all_keys l (unified_crypto_data d0)) as (k & E & _).
      exists k. exact E. }
  destruct Hnd as (A & B & C & (u & U)).
  repeat split; try assumption.
  - exists u. exact U.
  - apply (f_equal (@List.length _)) in U.
    rewrite length_app, !length_map in U. lia.
Qed.

(** ** The unique constraints *)

Lemma upsert_all_keeps_constraint (data_list : list UnifiedCryptoDataSchema.t) :
  forall rows,
    uq_coin_source_time rows ->
    uq_coin_source_time (upsert_all data_list rows).
Proof.
  induction data_list as [|data data_list IH]; intros rows Huq; [exact Huq|].
  cbn [upsert_all fold_left]. apply IH. apply upsert_keeps_constraint.
  exact Huq.
Qed.

(** X12.  The unique constraint on (coin_id, source, ingested_at) is kept by
    [load_unified_data] and by a whole [run_all]: when no two stored rows
    share a key before, none do after, whatever is fetched and whatever the
    storage refuses. *)
Theorem run_all_keeps_unique_constraint :
  forall `{Pydantic} (I1 I2 Row : Type) (o : Outside I1 I2 Row) (w : World)
         (l : list UnifiedCryptoDataSchema.t) (faults : DbFaults),
    uq_coin_source_time (unified_crypto_data (db w)) ->
    uq_coin_source_time
      (unified_crypto_data (db (snd (load_unified_data l faults w))))
    /\ uq_coin_source_time (unified_crypto_data (db (snd (run_all o w)))).
Proof.
  intros P I1 I2 Row o w l faults Huq.
  set (R := fun d d' : DB =>
              uq_coin_source_time (unified_crypto_data d) ->
              uq_coin_source_time (unified_crypto_data d')).
  assert (Hrefl : forall d, R d d) by (intros d Hd; exact Hd).
  assert (Htrans : forall d1 d2 d3, R d1 d2 -> R d2 d3 -> R d1 d3)
    by (intros d1 d2 d3 H12 H23 Hd; auto).
  assert (Hup : forall l0 d, R d (on_unified_crypto_data (upsert_all l0) d)).
  { intros l0 d Hd. cbn. apply upsert_all_keeps_constraint. exact Hd. }
  split.
  - apply (within_load_unified_data R Hrefl l faults (Hup l) w Huq).
  - apply (within_run_all R Hrefl Htrans o); try exact Huq; try exact Hup.
    + intros s utcnow faults0. apply within_start_run.
      intros f d Hd. exact Hd.
    + intros s n q success err faults0. apply within_complete_run.
      intros f d Hd. exact Hd.
    + intros l0 d Hd. exact Hd.
    + intros l0 d Hd. exact Hd.
    + intros l0 d Hd. exact Hd.
Qed.

Lemma run_all_keeps_unique_constraint_witness :
  uq_coin_source_time (unified_crypto_data (db empty_world))
  /\ uq_coin_source_time
       (unified_crypto_data
          (db (snd (@run_all exact_types unit unit nat (three_rows quiet)
                      empty_world)))).
Proof.
  assert (Hempty : uq_coin_source_time (unified_crypto_data (db empty_world))).
  { intros k. cbn. lia. }
  split; [exact Hempty|].
  exact (proj2 (@run_all_keeps_unique_constraint exact_types unit unit nat
                  (three_rows quiet) empty_world [btc 1000 100] no_faults
                  Hempty)).
Defined.

Lemma save_row_sources (s : string) (c c' : Checkpoint.t) :
  Checkpoint.source c' = Checkpoint.source c ->
  forall rows,
    find (for_source s) rows = Some c ->
    map Checkpoint.source (save_row s c' rows) = map Checkpoint.source rows.
Proof.
  intros Hsrc. induction rows as [|r rows IH]; simpl; [discriminate|].
  destruct (for_source s r) eqn:E.
  - intros Hr. injection Hr as ->. simpl. rewrite Hsrc. reflexivity.
  - intros Hr. simpl. rewrite IH by assumption. reflexivity.
Qed.

Lemma find_none_sources (s : string) (rows : list Checkpoint.t) :
  find (for_source s) rows = None -> ~ In s (map Checkpoint.source rows).
Proof.
  induction rows as [|r rows IH]; simpl; [tauto|].
  destruct (for_source s r) eqn:E; [discriminate|].
  intros Hnone [Hr|Hin]; [|exact (IH Hnone Hin)].
  apply for_source_true in Hr. congruence.
Qed.

Lemma start_run_sources (s : string) (utcnow : Z) (faults : DbFaults)
    (w : World) :
  sources (db (snd (start_run s utcnow faults w)))
  = match first_fault faults 0 2, checkpoint_of s w with
    | None, None => sources (db w) ++ [s]
    | _, _ => sources (db w)
    end.
Proof.
  destruct (first_fault faults 0 2) as [e|] eqn:E.
  - rewrite (start_run_refused s utcnow faults w e E). reflexivity.
  - cbn [first_fault] in E.
    destruct (faults 0%nat) eqn:E0; [discriminate|].
    destruct (faults 1%nat) eqn:E1; [discriminate|].
    unfold start_run, bind, execute. rewrite E0, E1, get_checkpoint_eq.
    unfold checkpoint_of.
    destruct (find (for_source s) (checkpoints (db w))) as [c|] eqn:Ec.
    + cbn. unfold sources. cbn. eapply save_row_sources; [|exact Ec].
      reflexivity.
    + cbn. unfold sources. cbn. rewrite map_app. reflexivity.
Qed.

Lemma complete_run_sources (s : string) (n : Z) (d : Q) (success : bool)
    (err : option string) (faults : DbFaults) (w : World) :
  sources (db (snd (complete_run s n d success err faults w)))
  = sources (db w).
Proof.
  unfold complete_run, bind, execute.
  destruct (faults 0%nat); [reflexivity|].
  rewrite get_checkpoint_eq. unfold checkpoint_of.
  destruct (find (for_source s) (checkpoints (db w))) as [c|] eqn:E;
    [|reflexivity].
  destruct (faults 1%nat); [reflexivity|].
  cbn. unfold sources. cbn. eapply save_row_sources; [|exact E]. reflexivity.
Qed.

Lemma start_run_keeps_unique (s : string) (utcnow : Z) (faults : DbFaults)
    (w : World) :
  NoDup (sources (db w)) ->
  NoDup (sources (db (snd (start_run s utcnow faults w)))).
Proof.
  intros Hnd. rewrite start_run_sources.
  destruct (first_fault faults 0 2); [exact Hnd|].
  destruct (checkpoint_of s w) eqn:E; [exact Hnd|].
  apply find_none_sources in E.
  apply NoDup_rev in Hnd. rewrite <- (rev_involutive (_ ++ [s])).
  apply NoDup_rev. rewrite rev_app_distr. cbn. constructor; [|exact Hnd].
  rewrite <- in_rev. exact E.
Qed.

(** X14.  One checkpoint per source: when no two checkpoints share a source,
    none do after [start_run], which leaves a checkpoint for its source when
    the storage accepts its query and its commit; [complete_run] leaves the
    list of the sources as it is; and none do after [run_all].  The three
    facts about the list of the sources hold whatever the storage refuses. *)
Theorem checkpoint_sources_stay_unique :
  forall `{Pydantic} (I1 I2 Row : Type) (o : Outside I1 I2 Row) (w : World)
         (s : string) (utcnow : Z) (n : Z) (d : Q) (success : bool)
         (err : option string) (faults : DbFaults),
    NoDup (sources (db w)) ->
    NoDup (sources (db (snd (start_run s utcnow faults w))))
    /\ In s (sources (db (snd (start_run s utcnow no_faults w))))
    /\ sources (db (snd (complete_run s n d success err faults w)))
       = sources (db w)
    /\ NoDup (sources (db (snd (run_all o w)))).
Proof.
  intros P I1 I2 Row o w s utcnow n d success err faults Hnd.
  split; [apply start_run_keeps_unique; exact Hnd|].
  split.
  { rewrite start_run_sources. cbn [first_fault no_faults].
    destruct (checkpoint_of s w) as [c|] eqn:E.
    - unfold checkpoint_of in E. pose proof (find_some _ _ E) as [Hin Hs].
      apply for_source_true in Hs. subst s. unfold sources.
      apply in_map. exact Hin.
    - apply in_or_app. right. left. reflexivity. }
  split; [apply complete_run_sources|].
  set (R := fun d0 d' : DB => NoDup (sources d0) -> NoDup (sources d')).
  assert (Hrefl : forall d0, R d0 d0) by (intros d0 Hd; exact Hd).
  assert (Htrans : forall d1 d2 d3, R d1 d2 -> R d2 d3 -> R d1 d3)
    by (intros d1 d2 d3 H12 H23 Hd; auto).
  apply (within_run_all R Hrefl Htrans o); try exact Hnd.
  - intros s0 t0 faults0 w0 Hd. apply start_run_keeps_unique. exact Hd.
  - intros s0 n0 q0 ok0 err0 faults0 w0 Hd. rewrite complete_run_sources.
    exact Hd.
  - intros l0 d0 Hd. exact Hd.
  - intros l0 d0 Hd. exact Hd.
  - intros l0 d0 Hd. exact Hd.
  - intros l0 d0 Hd. exact Hd.
Qed.

Lemma checkpoint_sources_stay_unique_witness :
  NoDup (sources (db empty_world))
  /\ NoDup (sources (db (snd (start_run "csv" 1000 no_faults empty_world))))
  /\ In "csv" (sources (db (snd (start_run "csv" 1000 no_faults empty_world))))
  /\ NoDup
       (sources
          (db (snd (@run_all exact_types unit unit nat (three_rows quiet)
                      empty_world)))).
Proof.
  assert (Hempty : NoDup (sources (db empty_world))) by constructor.
  split; [exact Hempty|].
  destruct (@checkpoint_sources_stay_unique exact_types unit unit nat
              (three_rows quiet) empty_world "csv" 1000 0 0%Q true None
              no_faults Hempty) as (A & B & _ & C).
  split; [exact A|]. split; [exact B|exact C].
Defined.

(** ** What a run leaves alone *)

(** X17.  A run of one source leaves the raw tables of the two other sources and
    the checkpoint of every other source as they were. *)
Theorem runs_touch_only_their_own :
  forall `{Pydantic} (I1 I2 Row : Type) (o : Outside I1 I2 Row) (w : World)
         (s' : string),
    (let w' := snd (run_coinpaprika (coinpaprika_api o) (coinpaprika_env o) w) in
     raw_coingecko (db w') = raw_coingecko (db w)
     /\ raw_csv (db w') = raw_csv (db w)
     /\ (s' <> "coinpaprika" ->
         fst (get_checkpoint s' w') = fst (get_checkpoint s' w)))
    /\ (let w' := snd (run_coingecko (coingecko_api o) (coingecko_env o) w) in
        raw_coinpaprika (db w') = raw_coinpaprika (db w)
        /\ raw_csv (db w') = raw_csv (db w)
        /\ (s' <> "coingecko" ->
            fst (get_checkpoint s' w') = fst (get_checkpoint s' w)))
    /\ (let w' :=
          snd (run_csv (csv_file o) (csv_parse_row o) (csv_env o) w) in
        raw_coinpaprika (db w') = raw_coinpaprika (db w)
        /\ raw_coingecko (db w') = raw_coingecko (db w)
        /\ (s' <> "csv" ->
            fst (get_checkpoint s' w') = fst (get_checkpoint s' w))).
Proof.
  intros P I1 I2 Row o w s'.
  split; [|split].
  - intros w'.
    set (R := fun d d' : DB =>
                raw_coingecko d' = raw_coingecko d /\ raw_csv d' = raw_csv d).
    assert (HR : R (db w) (db w')).
    { unfold w', run_coinpaprika, load_raw_coinpaprika,
        transform_batch_coinpaprika.
      apply (within_run_source R); unfold R.
      - intros d. split; reflexivity.
      - intros d1 d2 d3 [A1 B1] [A2 B2]. split; congruence.
      - intros utcnow faults. apply within_start_run.
        intros f d. split; reflexivity.
      - intros n q success err faults. apply within_complete_run.
        intros f d. split; reflexivity.
      - intros l d. split; reflexivity.
      - intros l d. split; reflexivity. }
    destruct HR as [A B]. split; [exact A|]. split; [exact B|].
    intros Hne. rewrite !get_checkpoint_eq. cbn [fst]. f_equal.
    apply coinpaprika_keeps_others. exact Hne.
  - intros w'.
    set (R := fun d d' : DB =>
                raw_coinpaprika d' = raw_coinpaprika d
                /\ raw_csv d' = raw_csv d).
    assert (HR : R (db w) (db w')).
    { unfold w', run_coingecko, load_raw_coingecko,
        transform_batch_coingecko.
      apply (within_run_source R); unfold R.
      - intros d. split; reflexivity.
      - intros d1 d2 d3 [A1 B1] [A2 B2]. split; congruence.
      - intros utcnow faults. apply within_start_run.
        intros f d. split; reflexivity.
      - intros n q success err faults. apply within_complete_run.
        intros f d. split; reflexivity.
      - intros l d. split; reflexivity.
      - intros l d. split; reflexivity. }
    destruct HR as [A B]. split; [exact A|]. split; [exact B|].
    intros Hne. rewrite !get_checkpoint_eq. cbn [fst]. f_equal.
    apply coingecko_keeps_others. exact Hne.
  - intros w'.
    set (R := fun d d' : DB =>
                raw_coinpaprika d' = raw_coinpaprika d
                /\ raw_coingecko d' = raw_coingecko d).
    assert (HR : R (db w) (db w')).
    { unfold w', run_csv, load_raw_csv, transform_batch_csv.
      apply (within_run_source R); unfold R.
      - intros d. split; reflexivity.
      - intros d1 d2 d3 [A1 B1] [A2 B2]. split; congruence.
      - intros utcnow faults. apply within_start_run.
        intros f d. split; reflexivity.
      - intros n q success err faults. apply within_complete_run.
        intros f d. split; reflexivity.
      - intros l d. split; reflexivity.
      - intros l d. split; reflexivity. }
    destruct HR as [A B]. split; [exact A|]. split; [exact B|].
    intros Hne. rewrite !get_checkpoint_eq. cbn [fst]. f_equal.
    apply csv_keeps_others. exact Hne.
Qed.

Lemma runs_touch_only_their_own_witness :
  "coinpaprika" <> "csv"
  /\ let w' :=
       snd (@run_csv exact_types nat (csv_file (three_rows quiet))
              (csv_parse_row (three_rows quiet)) (csv_env (three_rows quiet))
              x_succeeded) in
     raw_coinpaprika (db w') = raw_coinpaprika (db x_succeeded)
     /\ raw_coingecko (db w') = raw_coingecko (db x_succeeded)
     /\ fst (get_checkpoint "coinpaprika" w')
        = fst (get_checkpoint "coinpaprika" x_succeeded).
Proof.
  assert (Hne : "coinpaprika" <> "csv") by discriminate.
  split; [exact Hne|].
  destruct (proj2 (proj2 (@runs_touch_only_their_own exact_types unit unit nat
                            (three_rows quiet) x_succeeded "coinpaprika")))
    as (A & B & C).
  split; [exact A|]. split; [exact B|exact (C Hne)].
Defined.

(** ** The guard over a run *)

Section RunEnds.
Context {Raw : Type}.
Variables source_name provider provider' : string.
Variable bulk : list Raw -> DB -> DB.
Variable transform : Raw -> result UnifiedCryptoDataSchema.t.
Hypothesis bulk_checkpoints :
  forall l d, checkpoints (bulk l d) = checkpoints d.
Hypothesis bulk_commutes :
  forall l f d, bulk l (on_checkpoints f d) = on_checkpoints f (bulk l d).

(** When the storage accepts the statements of the checkpoint manager, a
    run leaves the guard of its source as it found it, and leaves a
    checkpoint, which is terminal unless the guard stopped the run. *)
Lemma run_ends (fetched : result (list Raw)) (env : Surroundings) (w : World) :
  checkpoints_answer env ->
  let w' :=
    snd (run_source source_name (load_raw provider bulk)
           (transform_batch provider' transform) fetched env w) in
  fst (is_source_running source_name w') = fst (is_source_running source_name w)
  /\ exists c,
       checkpoint_of source_name w' = Some c
       /\ (not_running source_name w -> terminal c).
Proof.
  intros Hcp w'. unfold w'.
  destruct (fst (is_source_running source_name w)) as [[|]|e] eqn:E.
  - rewrite run_when_running by (try exact (Hcp 0%nat); exact E).
    cbn [snd].
    rewrite is_source_running_eq in *. cbn [fst] in *.
    change (checkpoint_of source_name {| db := db w; log := _ |})
      with (checkpoint_of source_name w).
    split; [exact E|].
    destruct (checkpoint_of source_name w) as [c|] eqn:Ec; [|discriminate].
    exists c. split; [reflexivity|]. unfold not_running.
    rewrite is_source_running_eq. cbn [fst]. rewrite Ec. intros Hnot.
    congruence.
  - destruct (run_reports source_name provider provider' bulk transform
                bulk_checkpoints bulk_commutes fetched env w E Hcp)
      as (c & Hc & Hstatus & _).
    rewrite get_checkpoint_eq in Hc. cbn [fst] in Hc. injection Hc as Hc.
    rewrite is_source_running_eq. cbn [fst]. rewrite Hc.
    assert (Hterm : terminal c).
    { unfold terminal. rewrite Hstatus.
      destruct (raises _); [right|left]; reflexivity. }
    split.
    + destruct Hterm as [-> | ->]; reflexivity.
    + exists c. split; [reflexivity|]. intros _. exact Hterm.
  - rewrite is_source_running_eq in E. discriminate.
Qed.
End RunEnds.

Lemma run_all_worlds `{Pydantic} {I1 I2 Row : Type} (o : Outside I1 I2 Row)
    (w : World) :
  checkpoints_answer (coinpaprika_env o) ->
  checkpoints_answer (coingecko_env o) ->
  checkpoints_answer (csv_env o) ->
  run_all o w
  = (Ok tt,
     snd (logger INFO CompletedAll
            (snd (run_csv (csv_file o) (csv_parse_row o) (csv_env o)
                    (snd (run_coingecko (coingecko_api o) (coingecko_env o)
                            (snd (run_coinpaprika (coinpaprika_api o)
                                    (coinpaprika_env o)
                                    (snd (logger INFO StartingAll w)))))))))).
Proof.
  intros Hcp Hcg Hcsv. unfold run_all.
  rewrite (bind_returns _ _ w tt) by reflexivity.
  rewrite (bind_returns _ _ _ tt) by (apply run_source_returns; apply Hcp).
  rewrite (bind_returns _ _ _ tt) by (apply run_source_returns; apply Hcg).
  rewrite (bind_returns _ _ _ tt) by (apply run_source_returns; apply Hcsv).
  reflexivity.
Qed.

Lemma is_source_running_same_row (s : string) (w w' : World) :
  checkpoint_of s w' = checkpoint_of s w ->
  fst (is_source_running s w') = fst (is_source_running s w).
Proof. intros E. rewrite !is_source_running_eq. cbn [fst]. rewrite E. reflexivity. Qed.

(** X18.  When the storage accepts the statements of the checkpoint manager
    in each of the three runs, [run_all] leaves the guard of each of its
    three sources as it found it and leaves a checkpoint for each of them;
    for a source that was not running, that checkpoint ends as success or as
    failure, never as running.  (Without the condition it does not hold: a
    [complete_run] that raises leaves the checkpoint of its source
    running.) *)
Theorem run_all_ends_every_run :
  forall `{Pydantic} (I1 I2 Row : Type) (o : Outside I1 I2 Row) (w : World)
         (s : string),
    checkpoints_answer (coinpaprika_env o) ->
    checkpoints_answer (coingecko_env o) ->
    checkpoints_answer (csv_env o) ->
    In s ["coinpaprika"; "coingecko"; "csv"] ->
    let w' := snd (run_all o w) in
    fst (is_source_running s w') = fst (is_source_running s w)
    /\ exists c,
         fst (get_checkpoint s w') = Ok (Some c)
         /\ (not_running s w -> terminal c).
Proof.
  intros P I1 I2 Row o w s Hcp Hcg Hcsv Hs w'. unfold w'.
  rewrite run_all_worlds by assumption.
  cbn [snd].
  set (w0 := snd (logger INFO StartingAll w)).
  set (w1 := snd (run_coinpaprika (coinpaprika_api o) (coinpaprika_env o) w0)).
  set (w2 := snd (run_coingecko (coingecko_api o) (coingecko_env o) w1)).
  set (w3 := snd (run_csv (csv_file o) (csv_parse_row o) (csv_env o) w2)).
  assert (H01 : forall s, checkpoint_of s w0 = checkpoint_of s w)
    by reflexivity.
  assert (H34 : forall s, checkpoint_of s (snd (logger INFO CompletedAll w3))
                          = checkpoint_of s w3) by reflexivity.
  assert (Hnr : forall s wa wb,
             checkpoint_of s wa = checkpoint_of s wb ->
             not_running s wa -> not_running s wb).
  { intros s0 wa wb E. unfold not_running.
    rewrite (is_source_running_same_row s0 wa wb) by (symmetry; exact E).
    auto. }
  cbn [In] in Hs. destruct Hs as [<-|[<-|[<-|[]]]].
  - assert (Hends :
              fst (is_source_running "coinpaprika" w1)
              = fst (is_source_running "coinpaprika" w0)
              /\ exists c,
                   checkpoint_of "coinpaprika" w1 = Some c
                   /\ (not_running "coinpaprika" w0 -> terminal c)).
    { exact (run_ends "coinpaprika" "CoinPaprika" "CoinPaprika"
                (fun records => on_raw_coinpaprika (fun rows => rows ++ records))
                transform_coinpaprika (fun _ _ => eq_refl)
                (fun _ _ _ => eq_refl)
                (fst (fetch_top_coins (coinpaprika_api o) 10))
                (coinpaprika_env o) w0 Hcp). }
    destruct Hends as (Hrun & c & Hc & Hterm).
    assert (E : checkpoint_of "coinpaprika" (snd (logger INFO CompletedAll w3))
                = checkpoint_of "coinpaprika" w1).
    { rewrite H34. unfold w3. rewrite csv_keeps_others by discriminate.
      unfold w2. rewrite coingecko_keeps_others by discriminate. reflexivity. }
    split.
    + rewrite (is_source_running_same_row _ _ _ E), Hrun.
      apply is_source_running_same_row. apply H01.
    + exists c. rewrite get_checkpoint_eq. cbn [fst]. rewrite E, Hc.
      split; [reflexivity|]. intros Hnot. apply Hterm.
      apply (Hnr _ w w0); [symmetry; apply H01|exact Hnot].
  - assert (Hends :
              fst (is_source_running "coingecko" w2)
              = fst (is_source_running "coingecko" w1)
              /\ exists c,
                   checkpoint_of "coingecko" w2 = Some c
                   /\ (not_running "coingecko" w1 -> terminal c)).
    { exact (run_ends "coingecko" "CoinGecko" "CoinGecko"
                (fun records => on_raw_coingecko (fun rows => rows ++ records))
                transform_coingecko (fun _ _ => eq_refl)
                (fun _ _ _ => eq_refl)
                (fst (fetch_markets_data (coingecko_api o) 10))
                (coingecko_env o) w1 Hcg). }
    destruct Hends as (Hrun & c & Hc & Hterm).
    assert (E : checkpoint_of "coingecko" (snd (logger INFO CompletedAll w3))
                = checkpoint_of "coingecko" w2).
    { rewrite H34. unfold w3. rewrite csv_keeps_others by discriminate.
      reflexivity. }
    assert (E1 : checkpoint_of "coingecko" w1 = checkpoint_of "coingecko" w).
    { unfold w1. rewrite coinpaprika_keeps_others by discriminate.
      apply H01. }
    split.
    + rewrite (is_source_running_same_row _ _ _ E), Hrun.
      apply is_source_running_same_row. exact E1.
    + exists c. rewrite get_checkpoint_eq. cbn [fst]. rewrite E, Hc.
      split; [reflexivity|]. intros Hnot. apply Hterm.
      apply (Hnr _ w w1); [symmetry; exact E1|exact Hnot].
  - assert (Hends :
              fst (is_source_running "csv" w3)
              = fst (is_source_running "csv" w2)
              /\ exists c,
                   checkpoint_of "csv" w3 = Some c
                   /\ (not_running "csv" w2 -> terminal c)).
    { exact (run_ends "csv" "CSV" "CSV"
                (fun records => on_raw_csv (fun rows => rows ++ records))
                transform_csv (fun _ _ => eq_refl)
                (fun _ _ _ => eq_refl)
                (fetch_data (csv_file o) (csv_parse_row o))
                (csv_env o) w2 Hcsv). }
    destruct Hends as (Hrun & c & Hc & Hterm).
    assert (E : checkpoint_of "csv" (snd (logger INFO CompletedAll w3))
                = checkpoint_of "csv" w3) by apply H34.
    assert (E2 : checkpoint_of "csv" w2 = checkpoint_of "csv" w).
    { unfold w2. rewrite coingecko_keeps_others by discriminate.
      unfold w1. rewrite coinpaprika_keeps_others by discriminate.
      apply H01. }
    split.
    + rewrite (is_source_running_same_row _ _ _ E), Hrun.
      apply is_source_running_same_row. exact E2.
    + exists c. rewrite get_checkpoint_eq. cbn [fst]. rewrite E, Hc.
      split; [reflexivity|]. intros Hnot. apply Hterm.
      apply (Hnr _ w w2); [symmetry; exact E2|exact Hnot].
Qed.

Lemma run_all_ends_every_run_witness :
  (checkpoints_answer (coinpaprika_env (three_rows quiet))
   /\ checkpoints_answer (coingecko_env (three_rows quiet))
   /\ checkpoints_answer (csv_env (three_rows quiet))
   /\ In "csv" ["coinpaprika"; "coingecko"; "csv"]
   /\ not_running "csv" empty_world)
  /\ let w' :=
       snd (@run_all exact_types unit unit nat (three_rows quiet) empty_world)
     in
     fst (is_source_running "csv" w') = Ok false
     /\ exists c,
          fst (get_checkpoint "csv" w') = Ok (Some c) /\ terminal c.
Proof.
  assert (Hin : In "csv" ["coinpaprika"; "coingecko"; "csv"])
    by (right; right; left; reflexivity).
  assert (Hnot : not_running "csv" empty_world) by reflexivity.
  split.
  { split; [exact quiet_answers|]. split; [exact quiet_answers|].
    split; [exact quiet_answers|]. split; [exact Hin|exact Hnot]. }
  destruct (@run_all_ends_every_run exact_types unit unit nat
              (three_rows quiet) empty_world "csv"
              quiet_answers quiet_answers quiet_answers Hin)
    as (A & c & B & C).
  split; [exact A|]. exists c. split; [exact B|exact (C Hnot)].
Defined.

(** ** The checkpoint of a source through [start_run] and [complete_run] *)

Lemma checkpoint_after_start (s : string) (utcnow : Z) (w : World) :
  checkpoint_of s (snd (start_run s utcnow no_faults w))
  = Some (started (checkpoint_of s w) s utcnow).
Proof.
  destruct (start_run_found s utcnow no_faults w eq_refl eq_refl)
    as (f & -> & Hf & _).
  exact Hf.
Qed.

Lemma checkpoint_after_complete (s : string) (n : Z) (d : Q) (success : bool)
    (err : option string) (w : World) :
  checkpoint_of s (snd (complete_run s n d success err no_faults w))
  = match checkpoint_of s w with
    | Some c => Some (completed c success n d err)
    | None => None
    end.
Proof.
  destruct (checkpoint_of s w) as [c|] eqn:E.
  - destruct (complete_run_found s n d success err no_faults w c
                eq_refl eq_refl E) as (f & -> & Hf & _).
    exact Hf.
  - rewrite complete_run_missing by (try reflexivity; exact E). exact E.
Qed.

Lemma get_last_successful_run_eq (s : string) (w : World) :
  get_last_successful_run s w
  = (Ok match checkpoint_of s w with
        | Some c =>
            if (Checkpoint.status c =? "success")%string
            then Some (Checkpoint.last_run_timestamp c)
            else None
        | None => None
        end, w).
Proof.
  unfold get_last_successful_run, bind. rewrite get_checkpoint_eq.
  destruct (checkpoint_of s w) as [c|]; [|reflexivity].
  destruct (Checkpoint.status c =? "success")%string; reflexivity.
Qed.

(** X15.  With a storage that accepts the statements ([no_faults]),
    [is_source_running] is true right after [start_run] for the source and
    false after the [complete_run] that follows, with either outcome; it is
    false after [complete_run] from any state; and neither call changes what
    it answers for another source, whatever the storage refuses. *)
Theorem guard_opens_and_closes :
  forall (s : string) (utcnow : Z) (n : Z) (d : Q) (success : bool)
         (err : option string) (w : World),
    let w1 := snd (start_run s utcnow no_faults w) in
    let w2 := snd (complete_run s n d success err no_faults w1) in
    fst (is_source_running s w1) = Ok true
    /\ fst (is_source_running s w2) = Ok false
    /\ fst (is_source_running s
              (snd (complete_run s n d success err no_faults w)))
       = Ok false
    /\ (forall s', s' <> s ->
          fst (is_source_running s' w1) = fst (is_source_running s' w)
          /\ fst (is_source_running s' w2) = fst (is_source_running s' w))
    /\ (forall s' faults faults', s' <> s ->
          fst (is_source_running s'
                 (snd (complete_run s n d success err faults'
                         (snd (start_run s utcnow faults w)))))
          = fst (is_source_running s' w)).
Proof.
  intros s utcnow n d success err w w1 w2.
  assert (H1 : checkpoint_of s w1 = Some (started (checkpoint_of s w) s utcnow))
    by apply checkpoint_after_start.
  assert (Hclosed : forall w0,
             fst (is_source_running s
                    (snd (complete_run s n d success err no_faults w0)))
             = Ok false).
  { intros w0. rewrite is_source_running_eq. cbn [fst].
    rewrite checkpoint_after_complete.
    destruct (checkpoint_of s w0) as [c|]; [|reflexivity].
    destruct success; reflexivity. }
  split; [|split; [|split; [|split]]].
  - rewrite is_source_running_eq. cbn [fst]. rewrite H1.
    destruct (checkpoint_of s w); reflexivity.
  - apply Hclosed.
  - apply Hclosed.
  - intros s' Hne.
    assert (E1 : checkpoint_of s' w1 = checkpoint_of s' w)
      by (apply checkpoint_after_start_other; exact Hne).
    split.
    + apply is_source_running_same_row. exact E1.
    + apply is_source_running_same_row. unfold w2.
      rewrite checkpoint_after_complete_other by exact Hne. exact E1.
  - intros s' faults faults' Hne. apply is_source_running_same_row.
    rewrite checkpoint_after_complete_other by exact Hne.
    apply checkpoint_after_start_other. exact Hne.
Qed.

Lemma guard_opens_and_closes_witness :
  "csv" <> "x"
  /\ let w1 := snd (start_run "x" 1000 no_faults empty_world) in
     let w2 := snd (complete_run "x" 5 2 true None no_faults w1) in
     fst (is_source_running "x" w1) = Ok true
     /\ fst (is_source_running "x" w2) = Ok false
     /\ fst (is_source_running "csv" w2)
        = fst (is_source_running "csv" empty_world).
Proof.
  assert (Hne : "csv" <> "x") by discriminate.
  split; [exact Hne|].
  destruct (guard_opens_and_closes "x" 1000 5 2 true None empty_world)
    as (A & B & _ & C & _).
  split; [exact A|]. split; [exact B|exact (proj2 (C "csv" Hne))].
Defined.

(** X16.  [get_last_successful_run] answers a time exactly when the checkpoint
    of the source has status success, and then its [last_run_timestamp]:
    with a storage that accepts the statements ([no_faults]), [None] right
    after [start_run], whatever ran before; the time given to [start_run]
    after a successful [complete_run]; [None] after a failed one; and [None]
    without a checkpoint. *)
Theorem last_successful_run_follows_status :
  forall (s : string) (utcnow : Z) (n : Z) (d : Q) (err : option string)
         (w : World),
    let w1 := snd (start_run s utcnow no_faults w) in
    fst (get_last_successful_run s w1) = Ok None
    /\ fst (get_last_successful_run s
              (snd (complete_run s n d true err no_faults w1)))
       = Ok (Some utcnow)
    /\ fst (get_last_successful_run s
              (snd (complete_run s n d false err no_faults w1)))
       = Ok None
    /\ (fst (get_checkpoint s w) = Ok None ->
        fst (get_last_successful_run s w) = Ok None)
    /\ (forall t,
          fst (get_last_successful_run s w) = Ok (Some t) <->
          exists c,
            fst (get_checkpoint s w) = Ok (Some c)
            /\ Checkpoint.status c = "success"
            /\ Checkpoint.last_run_timestamp c = t).
Proof.
  intros s utcnow n d err w w1.
  assert (H1 : checkpoint_of s w1 = Some (started (checkpoint_of s w) s utcnow))
    by apply checkpoint_after_start.
  split; [|split; [|split; [|split]]].
  - rewrite get_last_successful_run_eq. cbn [fst]. rewrite H1.
    destruct (checkpoint_of s w); reflexivity.
  - rewrite get_last_successful_run_eq. cbn [fst].
    rewrite checkpoint_after_complete, H1.
    destruct (checkpoint_of s w); reflexivity.
  - rewrite get_last_successful_run_eq. cbn [fst].
    rewrite checkpoint_after_complete, H1.
    destruct (checkpoint_of s w); reflexivity.
  - rewrite get_checkpoint_eq, get_last_successful_run_eq. cbn [fst].
    intros E. injection E as ->. reflexivity.
  - intros t. rewrite get_checkpoint_eq, get_last_successful_run_eq.
    cbn [fst]. split.
    + destruct (checkpoint_of s w) as [c|]; [|discriminate].
      destruct (Checkpoint.status c =? "success")%string eqn:Es;
        [|discriminate].
      intros E. injection E as <-. exists c.
      apply String.eqb_eq in Es. auto.
    + intros (c & E & Es & <-). injection E as ->.
      rewrite Es. reflexivity.
Qed.

Lemma last_successful_run_follows_status_witness :
  fst (get_checkpoint "x" empty_world) = Ok None
  /\ fst (get_last_successful_run "x" empty_world) = Ok None
  /\ fst (get_last_successful_run "x" x_succeeded) = Ok (Some 1000).
Proof.
  assert (Hnone : fst (get_checkpoint "x" empty_world) = Ok None)
    by reflexivity.
  split; [exact Hnone|].
  destruct (last_successful_run_follows_status "x" 1000 5 2 None empty_world)
    as (_ & A & _ & B & _).
  split; [exact (B Hnone)|exact A].
Defined.

(** ** The loads, as one unit *)

(** X10.  Each of the four loads writes its whole batch or nothing: when it
    returns, it returns the length of the batch and the table holds the
    batch (appended to a raw table, upserted into the unified table); when
    it raises, the batch is not empty, the exception is the first fault of
    the storage among its statements and its commit, and the database is as
    it was on entry. *)
Theorem loads_are_all_or_nothing :
  forall (faults : DbFaults) (w : World),
    (forall l,
        match fst (load_raw_coinpaprika l faults w) with
        | Ok n =>
            n = len l
            /\ db (snd (load_raw_coinpaprika l faults w))
               = on_raw_coinpaprika (fun rows => rows ++ l) (db w)
        | Raise e =>
            l <> [] /\ first_fault faults 0 2 = Some e
            /\ db (snd (load_raw_coinpaprika l faults w)) = db w
        end)
    /\ (forall l,
          match fst (load_raw_coingecko l faults w) with
          | Ok n =>
              n = len l
              /\ db (snd (load_raw_coingecko l faults w))
                 = on_raw_coingecko (fun rows => rows ++ l) (db w)
          | Raise e =>
              l <> [] /\ first_fault faults 0 2 = Some e
              /\ db (snd (load_raw_coingecko l faults w)) = db w
          end)
    /\ (forall l,
          match fst (load_raw_csv l faults w) with
          | Ok n =>
              n = len l
              /\ db (snd (load_raw_csv l faults w))
                 = on_raw_csv (fun rows => rows ++ l) (db w)
          | Raise e =>
              l <> [] /\ first_fault faults 0 2 = Some e
              /\ db (snd (load_raw_csv l faults w)) = db w
          end)
    /\ (forall l,
          match fst (load_unified_data l faults w) with
          | Ok n =>
              n = len l
              /\ db (snd (load_unified_data l faults w))
                 = on_unified_crypto_data (upsert_all l) (db w)
          | Raise e =>
              l <> [] /\ first_fault faults 0 (S (List.length l)) = Some e
              /\ db (snd (load_unified_data l faults w)) = db w
          end).
Proof.
  intros faults w.
  assert (Hraw : forall (Raw : Type) (provider : string)
                        (table : (list Raw -> list Raw) -> DB -> DB)
                        (l : list Raw),
             (forall d, table (fun rows => rows ++ []) d = d) ->
             match fst (load_raw provider
                          (fun records => table (fun rows => rows ++ records))
                          l faults w) with
             | Ok n =>
                 n = len l
                 /\ db (snd (load_raw provider
                               (fun records => table (fun rows => rows ++ records))
                               l faults w))
                    = table (fun rows => rows ++ l) (db w)
             | Raise e =>
                 l <> [] /\ first_fault faults 0 2 = Some e
                 /\ db (snd (load_raw provider
                               (fun records => table (fun rows => rows ++ records))
                               l faults w)) = db w
             end).
  { intros Raw provider table l Hnil. rewrite load_raw_eq.
    destruct l as [|x l].
    - cbn [fst snd]. split; [reflexivity|]. symmetry. apply Hnil.
    - destruct (first_fault faults 0 2) as [e|]; cbn [fst snd db].
      + split; [discriminate|]. split; reflexivity.
      + split; reflexivity. }
  split; [|split; [|split]].
  - intros l. apply (Hraw _ "CoinPaprika" on_raw_coinpaprika).
    intros d. unfold on_raw_coinpaprika. cbn. rewrite app_nil_r. reflexivity.
  - intros l. apply (Hraw _ "CoinGecko" on_raw_coingecko).
    intros d. unfold on_raw_coingecko. cbn. rewrite app_nil_r. reflexivity.
  - intros l. apply (Hraw _ "CSV" on_raw_csv).
    intros d. unfold on_raw_csv. cbn. rewrite app_nil_r. reflexivity.
  - intros l. rewrite load_unified_data_eq. destruct l as [|x l].
    + cbn [fst snd]. split; reflexivity.
    + destruct (first_fault faults 0 (S (List.length (x :: l)))) as [e|];
        cbn [fst snd db].
      * split; [discriminate|]. split; reflexivity.
      * split; reflexivity.
Qed.

(** ** Loading a batch again *)

Lemma same_key_of_same_key (x d r : UnifiedCryptoDataSchema.t) :
  same_key d r = true -> same_key x d = same_key x r.
Proof.
  intros H. apply same_key_true in H. destruct H as (A & B & C).
  apply eq_true_iff_eq. rewrite !same_key_true. rewrite A, B, C. tauto.
Qed.

Lemma same_key_refl (d : UnifiedCryptoDataSchema.t) : same_key d d = true.
Proof. apply same_key_true. auto. Qed.

Lemma same_key_refreshed (x : UnifiedCryptoDataSchema.t)
    (l : list UnifiedCryptoDataSchema.t) :
  forall r, same_key x (refreshed l r) = same_key x r.
Proof.
  unfold refreshed. induction l as [|d l IH]; intros r; [reflexivity|].
  cbn [fold_left]. rewrite IH.
  destruct (same_key d r); [apply same_key_do_update|reflexivity].
Qed.

Lemma refreshed_app (l : list UnifiedCryptoDataSchema.t)
    (d r : UnifiedCryptoDataSchema.t) :
  refreshed (l ++ [d]) r
  = if same_key d (refreshed l r) then do_update d (refreshed l r)
    else refreshed l r.
Proof. unfold refreshed. rewrite fold_left_app. reflexivity. Qed.

Lemma upsert_all_app (l : list UnifiedCryptoDataSchema.t)
    (d : UnifiedCryptoDataSchema.t) (rows : list UnifiedCryptoDataSchema.t) :
  upsert_all (l ++ [d]) rows
  = insert_on_conflict_do_update d (upsert_all l rows).
Proof. unfold upsert_all. rewrite fold_left_app. reflexivity. Qed.

Lemma existsb_same_key_false (d r : UnifiedCryptoDataSchema.t)
    (rows : list UnifiedCryptoDataSchema.t) :
  existsb (same_key d) rows = false -> In r rows -> same_key d r = false.
Proof.
  intros Hex Hin. destruct (same_key d r) eqn:E; [|reflexivity].
  assert (Htrue : existsb (same_key d) rows = true)
    by (apply existsb_exists; exists r; auto).
  congruence.
Qed.

(** Every row that a batch leaves is the one that its last item of that key
    wrote. *)
Lemma upserted_rows_are_refreshed (l : list UnifiedCryptoDataSchema.t) :
  forall rows r, In r (upsert_all l rows) -> refreshed l r = r.
Proof.
  induction l as [|d l IH] using rev_ind; intros rows r; [reflexivity|].
  rewrite upsert_all_app, refreshed_app, same_key_refreshed. intros Hin.
  assert (Hd : forall x, same_key d x = true ->
                         do_update d (refreshed l x) = d).
  { intros x Hx. apply do_update_same_key. rewrite same_key_refreshed.
    exact Hx. }
  unfold insert_on_conflict_do_update in Hin.
  destruct (existsb (same_key d) (upsert_all l rows)) eqn:Eex.
  - apply in_map_iff in Hin. destruct Hin as (r0 & Hr & Hin0).
    destruct (same_key d r0) eqn:E0.
    + rewrite do_update_same_key in Hr by exact E0. subst r.
      rewrite same_key_refl. apply Hd. apply same_key_refl.
    + subst r. rewrite E0. apply (IH rows). exact Hin0.
  - apply in_app_iff in Hin. destruct Hin as [Hin|[<-|[]]].
    + rewrite (existsb_same_key_false d r _ Eex Hin). apply (IH rows).
      exact Hin.
    + rewrite same_key_refl. apply Hd. apply same_key_refl.
Qed.

Lemma existsb_same_key_updated (x d : UnifiedCryptoDataSchema.t)
    (rows : list UnifiedCryptoDataSchema.t) :
  existsb (same_key x)
    (map (fun row => if same_key d row then do_update d row else row) rows)
  = existsb (same_key x) rows.
Proof.
  induction rows as [|r rows IH]; [reflexivity|].
  cbn [map existsb]. rewrite IH. f_equal.
  destruct (same_key d r); [apply same_key_do_update|reflexivity].
Qed.

(** A batch whose keys are all stored updates the rows in place. *)
Lemma upsert_all_present (l : list UnifiedCryptoDataSchema.t) :
  forall rows,
    (forall d, In d l -> existsb (same_key d) rows = true) ->
    upsert_all l rows = map (refreshed l) rows.
Proof.
  induction l as [|d l IH]; intros rows Hkeys.
  - symmetry. apply map_id.
  - change (upsert_all (d :: l) rows)
      with (upsert_all l (insert_on_conflict_do_update d rows)).
    unfold insert_on_conflict_do_update.
    rewrite (Hkeys d (in_eq d l)). rewrite IH.
    + rewrite map_map. reflexivity.
    + intros x Hx. rewrite existsb_same_key_updated. apply Hkeys.
      right. exact Hx.
Qed.

Lemma insert_keeps_keys (x d : UnifiedCryptoDataSchema.t)
    (rows : list UnifiedCryptoDataSchema.t) :
  existsb (same_key x) rows = true ->
  existsb (same_key x) (insert_on_conflict_do_update d rows) = true.
Proof.
  intros Hx. unfold insert_on_conflict_do_update.
  destruct (existsb (same_key d) rows).
  - rewrite existsb_same_key_updated. exact Hx.
  - rewrite existsb_app, Hx. reflexivity.
Qed.

Lemma insert_has_key (d : UnifiedCryptoDataSchema.t)
    (rows : list UnifiedCryptoDataSchema.t) :
  existsb (same_key d) (insert_on_conflict_do_update d rows) = true.
Proof.
  unfold insert_on_conflict_do_update.
  destruct (existsb (same_key d) rows) eqn:E.
  - rewrite existsb_same_key_updated. exact E.
  - rewrite existsb_app. cbn [existsb]. rewrite same_key_refl.
    apply orb_true_iff. right. reflexivity.
Qed.

Lemma upsert_all_keeps_keys (x : UnifiedCryptoDataSchema.t)
    (l : list UnifiedCryptoDataSchema.t) :
  forall rows,
    existsb (same_key x) rows = true ->
    existsb (same_key x) (upsert_all l rows) = true.
Proof.
  induction l as [|d l IH]; intros rows Hx; [exact Hx|].
  apply (IH (insert_on_conflict_do_update d rows)).
  apply insert_keeps_keys. exact Hx.
Qed.

Lemma upsert_all_has_keys (l : list UnifiedCryptoDataSchema.t) :
  forall rows d,
    In d l -> existsb (same_key d) (upsert_all l rows) = true.
Proof.
  induction l as [|d0 l IH]; intros rows d Hin; [contradiction|].
  change (upsert_all (d0 :: l) rows)
    with (upsert_all l (insert_on_conflict_do_update d0 rows)).
  destruct Hin as [<-|Hin].
  - apply upsert_all_keeps_keys. apply insert_has_key.
  - apply IH. exact Hin.
Qed.

Lemma upsert_all_twice (l rows : list UnifiedCryptoDataSchema.t) :
  upsert_all l (upsert_all l rows) = upsert_all l rows.
Proof.
  rewrite upsert_all_present by (intros d Hd; apply upsert_all_has_keys; exact Hd).
  rewrite <- (map_id (upsert_all l rows)) at 2.
  apply map_ext_in. intros r Hin.
  apply (upserted_rows_are_refreshed l rows). exact Hin.
Qed.

(** X11.  Executing the upserts of a batch a second time changes nothing: the
    rows are those that the first time left, and a second
    [load_unified_data] of the same batch without a storage fault returns
    the length of the batch again and leaves the database as the first load
    left it. *)
Theorem unified_load_is_idempotent :
  forall (l rows : list UnifiedCryptoDataSchema.t) (w : World),
    upsert_all l (upsert_all l rows) = upsert_all l rows
    /\ (List.length (upsert_all l (upsert_all l rows))
        = List.length (upsert_all l rows))
    /\ (let w1 := snd (load_unified_data l no_faults w) in
        fst (load_unified_data l no_faults w1) = Ok (len l)
        /\ db (snd (load_unified_data l no_faults w1)) = db w1).
Proof.
  intros l rows w. split; [apply upsert_all_twice|].
  split; [rewrite upsert_all_twice; reflexivity|].
  intros w1. unfold w1. rewrite !load_unified_data_eq.
  destruct l as [|x l]; [split; reflexivity|].
  rewrite first_fault_no_faults. cbn [fst snd db]. split; [reflexivity|].
  unfold on_unified_crypto_data. cbn [raw_coinpaprika raw_coingecko raw_csv
    unified_crypto_data checkpoints].
  rewrite upsert_all_twice. reflexivity.
Qed.

Section RunStores.
Context {Raw : Type}.
Variables source_name provider provider' : string.
Variable table : DB -> list Raw.
Variable bulk : list Raw -> DB -> DB.
Variable transform : Raw -> result UnifiedCryptoDataSchema.t.
Hypothesis bulk_checkpoints :
  forall l d, checkpoints (bulk l d) = checkpoints d.
Hypothesis bulk_commutes :
  forall l f d, bulk l (on_checkpoints f d) = on_checkpoints f (bulk l d).
Hypothesis bulk_table : forall l d, table (bulk l d) = table d ++ l.
Hypothesis bulk_unified :
  forall l d, unified_crypto_data (bulk l d) = unified_crypto_data d.
Hypothesis table_checkpoints :
  forall f d, table (on_checkpoints f d) = table d.
Hypothesis table_unified :
  forall f d, table (on_unified_crypto_data f d) = table d.

Local Abbreviation run :=
  (run_source source_name (load_raw provider bulk)
     (transform_batch provider' transform)).

Lemma run_final_checkpoint (fetched : result (list Raw)) (env : Surroundings)
    (w : World) :
  not_running source_name w ->
  checkpoints_answer env ->
  let outcome := steps bulk transform fetched env in
  checkpoint_of source_name (snd (run fetched env w))
  = Some (final_checkpoint (checkpoint_of source_name w) source_name env
            (fst outcome))
  /\ table (db (snd (run fetched env w))) = table (snd outcome (db w))
  /\ unified_crypto_data (db (snd (run fetched env w)))
     = unified_crypto_data (snd outcome (db w)).
Proof.
  intros Hguard Hcp outcome.
  destruct (run_when_not_running source_name provider provider' bulk transform
              bulk_checkpoints bulk_commutes fetched env w Hguard Hcp)
    as (f & _ & Hdb & Hf & _).
  fold outcome in Hdb, Hf. unfold checkpoint_of. rewrite Hdb.
  split; [|split].
  - cbn [checkpoints on_checkpoints].
    unfold outcome. rewrite steps_checkpoints by assumption. exact Hf.
  - apply table_checkpoints.
  - reflexivity.
Qed.

Lemma run_stored_as_reported (l : list Raw) (env : Surroundings) (w : World) :
  not_running source_name w ->
  checkpoints_answer env ->
  stored_as_reported source_name table transform l w
    (snd (run (Ok l) env w)).
Proof.
  intros Hguard Hcp.
  destruct (run_final_checkpoint (Ok l) env w Hguard Hcp) as (Hc & Ht & Hu).
  unfold stored_as_reported. rewrite get_checkpoint_eq. cbn [fst].
  rewrite Hc, Ht, Hu. eexists. split; [reflexivity|].
  unfold steps, final_checkpoint. destruct l as [|x l].
  - left. cbn [fst snd completed Checkpoint.status Checkpoint.error_message
                 Checkpoint.records_processed successes upsert_all fold_left].
    rewrite app_nil_r. auto.
  - destruct (first_fault (raw_faults env) 0 2) as [e|].
    + right. cbn. repeat split; try discriminate. left. reflexivity.
    + destruct (successes transform (x :: l)) as [|u us] eqn:Es.
      * left. cbn [fst snd completed Checkpoint.status
                     Checkpoint.error_message Checkpoint.records_processed].
        rewrite bulk_table, bulk_unified. repeat split; reflexivity.
      * destruct (first_fault (unified_faults env) 0
                    (S (List.length (u :: us)))) as [e|].
        -- right. cbn [fst snd completed Checkpoint.status
                         Checkpoint.error_message
                         Checkpoint.records_processed].
           rewrite bulk_table, bulk_unified.
           repeat split; try discriminate. right. reflexivity.
        -- left. cbn [fst snd completed Checkpoint.status
                        Checkpoint.error_message
                        Checkpoint.records_processed].
           rewrite table_unified, bulk_table.
           cbn [unified_crypto_data on_unified_crypto_data].
           rewrite bulk_unified. repeat split; reflexivity.
Qed.

Lemma run_stamped (fetched : result (list Raw)) (env : Surroundings)
    (w : World) :
  not_running source_name w ->
  checkpoints_answer env ->
  stamped source_name env (snd (run fetched env w)).
Proof.
  intros Hguard Hcp.
  destruct (run_final_checkpoint fetched env w Hguard Hcp) as (Hc & _ & _).
  unfold stamped. rewrite get_checkpoint_eq, get_last_successful_run_eq.
  cbn [fst]. rewrite Hc. eexists. split; [reflexivity|].
  unfold final_checkpoint.
  destruct (fst (steps bulk transform fetched env));
    destruct (checkpoint_of source_name w); cbn; auto.
Qed.

Lemma steps_effect (fetched : result (list Raw)) (env : Surroundings) :
  exists l u,
    forall d,
      table (snd (steps bulk transform fetched env) d) = table d ++ l
      /\ unified_crypto_data (snd (steps bulk transform fetched env) d)
         = upsert_all u (unified_crypto_data d).
Proof.
  unfold steps. destruct fetched as [[|x l]|e].
  - exists [], []. intros d. cbn. rewrite app_nil_r. auto.
  - destruct (first_fault (raw_faults env) 0 2).
    + exists [], []. intros d. cbn. rewrite app_nil_r. auto.
    + destruct (successes transform (x :: l)) as [|u us].
      * exists (x :: l), []. intros d. cbn [snd].
        rewrite bulk_table, bulk_unified. auto.
      * destruct (first_fault (unified_faults env) 0 _).
        -- exists (x :: l), []. intros d. cbn [snd].
           rewrite bulk_table, bulk_unified. auto.
        -- exists (x :: l), (u :: us). intros d. cbn [snd].
           rewrite table_unified, bulk_table.
           cbn [unified_crypto_data on_unified_crypto_data].
           rewrite bulk_unified. auto.
  - exists [], []. intros d. cbn. rewrite app_nil_r. auto.
Qed.

Lemma run_repeated (fetched : result (list Raw)) (env : Surroundings)
    (w : World) :
  not_running source_name w ->
  checkpoints_answer env ->
  repeated table w (snd (run fetched env w))
    (snd (run fetched env (snd (run fetched env w)))).
Proof.
  intros Hguard Hcp.
  assert (Hguard1 : not_running source_name (snd (run fetched env w))).
  { destruct (run_ends source_name provider provider' bulk transform
                bulk_checkpoints bulk_commutes fetched env w Hcp) as (E & _).
    unfold not_running. rewrite E. exact Hguard. }
  destruct (run_final_checkpoint fetched env w Hguard Hcp) as (_ & Ht & Hu).
  destruct (run_final_checkpoint fetched env _ Hguard1 Hcp)
    as (_ & Ht1 & Hu1).
  destruct (steps_effect fetched env) as (l & u & Heff).
  unfold repeated. rewrite Hu1, Ht1.
  destruct (Heff (db (snd (run fetched env w)))) as (-> & ->).
  rewrite Hu, Ht. destruct (Heff (db w)) as (-> & ->).
  split; [apply upsert_all_twice|]. exists l. auto.
Qed.
End RunStores.

(** X19.  The checkpoint that a run leaves tells what the run stored.  For each
    source, after a run that passed the guard, in which the storage accepted
    the statements of the checkpoint manager, and that fetched the batch l:
    either the status is success, there is no error message, the whole of l
    is appended to the raw table of the source, the records that the mapping
    accepts are upserted and [records_processed] is their number; or the
    status is failure, there is an error message, [records_processed] is 0,
    l is not empty, no unified row is written and the raw table has all of l
    or none of it. *)
Theorem checkpoint_tells_what_was_stored :
  forall `{Pydantic} (I1 I2 Row : Type) (o : Outside I1 I2 Row) (w : World),
    (forall l,
        not_running "coinpaprika" w ->
        checkpoints_answer (coinpaprika_env o) ->
        fst (fetch_top_coins (coinpaprika_api o) 10) = Ok l ->
        stored_as_reported "coinpaprika" raw_coinpaprika transform_coinpaprika
          l w
          (snd (run_coinpaprika (coinpaprika_api o) (coinpaprika_env o) w)))
    /\ (forall l,
          not_running "coingecko" w ->
          checkpoints_answer (coingecko_env o) ->
          fst (fetch_markets_data (coingecko_api o) 10) = Ok l ->
          stored_as_reported "coingecko" raw_coingecko transform_coingecko
            l w
            (snd (run_coingecko (coingecko_api o) (coingecko_env o) w)))
    /\ (forall l,
          not_running "csv" w ->
          checkpoints_answer (csv_env o) ->
          fetch_data (csv_file o) (csv_parse_row o) = Ok l ->
          stored_as_reported "csv" raw_csv transform_csv l w
            (snd (run_csv (csv_file o) (csv_parse_row o) (csv_env o) w))).
Proof.
  intros P I1 I2 Row o w. split; [|split]; intros l Hguard Hcp Hfetch.
  - unfold run_coinpaprika. rewrite Hfetch.
    apply (run_stored_as_reported "coinpaprika" "CoinPaprika" "CoinPaprika"
             raw_coinpaprika
             (fun records => on_raw_coinpaprika (fun rows => rows ++ records)));
      auto.
  - unfold run_coingecko. rewrite Hfetch.
    apply (run_stored_as_reported "coingecko" "CoinGecko" "CoinGecko"
             raw_coingecko
             (fun records => on_raw_coingecko (fun rows => rows ++ records)));
      auto.
  - unfold run_csv. rewrite Hfetch.
    apply (run_stored_as_reported "csv" "CSV" "CSV" raw_csv
             (fun records => on_raw_csv (fun rows => rows ++ records)));
      auto.
Qed.

Lemma checkpoint_tells_what_was_stored_witness :
  (not_running "csv" empty_world
   /\ checkpoints_answer (csv_env (three_rows quiet))
   /\ fetch_data (csv_file (three_rows quiet)) (csv_parse_row (three_rows quiet))
      = Ok [csv_row 0; csv_row 1; csv_row 2])
  /\ stored_as_reported "csv" raw_csv (@transform_csv exact_types)
       [csv_row 0; csv_row 1; csv_row 2] empty_world
       (snd (@run_csv exact_types nat (csv_file (three_rows quiet))
               (csv_parse_row (three_rows quiet)) (csv_env (three_rows quiet))
               empty_world)).
Proof.
  assert (Hnot : not_running "csv" empty_world) by reflexivity.
  split; [split; [exact Hnot|split; [exact quiet_answers|reflexivity]]|].
  exact (proj2 (proj2 (@checkpoint_tells_what_was_stored exact_types unit unit
                         nat (three_rows quiet) empty_world))
           [csv_row 0; csv_row 1; csv_row 2] Hnot quiet_answers eq_refl).
Defined.

(** X20.  A run that passed the guard, and in which the storage accepted the
    statements of the checkpoint manager, stamps its checkpoint:
    [last_run_timestamp] is the time at which the run started,
    [duration_seconds] is the time from the start to the end of the run,
    after a failure as well, and [get_last_successful_run] then answers the
    start time of this run when it succeeded and [None] when it failed. *)
Theorem runs_stamp_their_checkpoint :
  forall `{Pydantic} (I1 I2 Row : Type) (o : Outside I1 I2 Row) (w : World),
    (not_running "coinpaprika" w ->
     checkpoints_answer (coinpaprika_env o) ->
     stamped "coinpaprika" (coinpaprika_env o)
       (snd (run_coinpaprika (coinpaprika_api o) (coinpaprika_env o) w)))
    /\ (not_running "coingecko" w ->
        checkpoints_answer (coingecko_env o) ->
        stamped "coingecko" (coingecko_env o)
          (snd (run_coingecko (coingecko_api o) (coingecko_env o) w)))
    /\ (not_running "csv" w ->
        checkpoints_answer (csv_env o) ->
        stamped "csv" (csv_env o)
          (snd (run_csv (csv_file o) (csv_parse_row o) (csv_env o) w))).
Proof.
  intros P I1 I2 Row o w. split; [|split]; intros Hguard Hcp.
  - apply (run_stamped "coinpaprika" "CoinPaprika" "CoinPaprika"
             raw_coinpaprika
             (fun records => on_raw_coinpaprika (fun rows => rows ++ records)));
      auto.
  - apply (run_stamped "coingecko" "CoinGecko" "CoinGecko" raw_coingecko
             (fun records => on_raw_coingecko (fun rows => rows ++ records)));
      auto.
  - apply (run_stamped "csv" "CSV" "CSV" raw_csv
             (fun records => on_raw_csv (fun rows => rows ++ records)));
      auto.
Qed.

Lemma runs_stamp_their_checkpoint_witness :
  (not_running "csv" x_succeeded
   /\ checkpoints_answer (csv_env (three_rows quiet)))
  /\ stamped "csv" quiet
       (snd (@run_csv exact_types nat (csv_file (three_rows quiet))
               (csv_parse_row (three_rows quiet)) (csv_env (three_rows quiet))
               x_succeeded)).
Proof.
  assert (Hnot : not_running "csv" x_succeeded) by reflexivity.
  split; [split; [exact Hnot|exact quiet_answers]|].
  exact (proj2 (proj2 (@runs_stamp_their_checkpoint exact_types unit unit nat
                         (three_rows quiet) x_succeeded)) Hnot quiet_answers).
Defined.

(** X21.  When the storage accepts the statements of the checkpoint manager,
    a second run of a source over the same fetched records, with the same
    faults of the loads, leaves the unified table as the first run left it and
    appends to the raw table of the source the same rows that the first run
    appended: the raw rows are stored twice, the unified rows once. *)
Theorem rerun_refreshes_unified_and_repeats_raw :
  forall `{Pydantic} (I1 I2 Row : Type) (o : Outside I1 I2 Row) (w : World),
    (not_running "coinpaprika" w ->
     checkpoints_answer (coinpaprika_env o) ->
     let run := run_coinpaprika (coinpaprika_api o) (coinpaprika_env o) in
     repeated raw_coinpaprika w (snd (run w)) (snd (run (snd (run w)))))
    /\ (not_running "coingecko" w ->
        checkpoints_answer (coingecko_env o) ->
        let run := run_coingecko (coingecko_api o) (coingecko_env o) in
        repeated raw_coingecko w (snd (run w)) (snd (run (snd (run w)))))
    /\ (not_running "csv" w ->
        checkpoints_answer (csv_env o) ->
        let run := run_csv (csv_file o) (csv_parse_row o) (csv_env o) in
        repeated raw_csv w (snd (run w)) (snd (run (snd (run w))))).
Proof.
  intros P I1 I2 Row o w. split; [|split]; intros Hguard Hcp run.
  - apply (run_repeated "coinpaprika" "CoinPaprika" "CoinPaprika"
             raw_coinpaprika
             (fun records => on_raw_coinpaprika (fun rows => rows ++ records)));
      auto.
  - apply (run_repeated "coingecko" "CoinGecko" "CoinGecko" raw_coingecko
             (fun records => on_raw_coingecko (fun rows => rows ++ records)));
      auto.
  - apply (run_repeated "csv" "CSV" "CSV" raw_csv
             (fun records => on_raw_csv (fun rows => rows ++ records)));
      auto.
Qed.

Lemma rerun_refreshes_unified_and_repeats_raw_witness :
  (not_running "csv" empty_world
   /\ checkpoints_answer (csv_env (three_rows quiet)))
  /\ let run :=
       @run_csv exact_types nat (csv_file (three_rows quiet))
         (csv_parse_row (three_rows quiet)) (csv_env (three_rows quiet)) in
     repeated raw_csv empty_world (snd (run empty_world))
       (snd (run (snd (run empty_world)))).
Proof.
  assert (Hnot : not_running "csv" empty_world) by reflexivity.
  split; [split; [exact Hnot|exact quiet_answers]|].
  exact (proj2 (proj2 (@rerun_refreshes_unified_and_repeats_raw exact_types
                         unit unit nat (three_rows quiet) empty_world))
           Hnot quiet_answers).
Defined.

(** ** The statistics *)

Lemma stats_loop_spec (rows : list Checkpoint.t) :
  forall acc total,
    map StatsResponse.source (fst (stats_loop rows acc total))
    = map StatsResponse.source acc ++ map Checkpoint.source rows
    /\ snd (stats_loop rows acc total) = total + sum_records rows
    /\ (forall r, In r (fst (stats_loop rows acc total)) ->
          In r acc
          \/ exists c,
               In c rows
               /\ StatsResponse.source r = Checkpoint.source c
               /\ StatsResponse.status r = Checkpoint.status c
               /\ StatsResponse.records_processed r
                  = Checkpoint.records_processed c
               /\ StatsResponse.duration_seconds r
                  = Checkpoint.duration_seconds c
               /\ StatsResponse.last_success_timestamp r
                  = (if (Checkpoint.status c =? "success")%string
                     then Some (Checkpoint.last_run_timestamp c) else None)
               /\ StatsResponse.last_failure_timestamp r
                  = (if (Checkpoint.status c =? "failure")%string
                     then Some (Checkpoint.last_run_timestamp c) else None)).
Proof.
  induction rows as [|c rows IH]; intros acc total.
  - cbn. rewrite app_nil_r. split; [reflexivity|]. split; [lia|]. auto.
  - cbn [stats_loop]. destruct (IH
      (acc ++
       [{| StatsResponse.source := Checkpoint.source c;
           StatsResponse.records_processed := Checkpoint.records_processed c;
           StatsResponse.duration_seconds := Checkpoint.duration_seconds c;
           StatsResponse.last_success_timestamp :=
             if (Checkpoint.status c =? "success")%string
             then Some (Checkpoint.last_run_timestamp c) else None;
           StatsResponse.last_failure_timestamp :=
             if (Checkpoint.status c =? "success")%string then None
             else if (Checkpoint.status c =? "failure")%string
             then Some (Checkpoint.last_run_timestamp c) else None;
           StatsResponse.status := Checkpoint.status c |}])
      (total + Checkpoint.records_processed c)) as (Hs & Ht & Hr).
    split; [|split].
    + rewrite Hs, map_app, <- app_assoc. reflexivity.
    + rewrite Ht. unfold sum_records. cbn [map fold_right]. lia.
    + intros r Hin. destruct (Hr r Hin) as [Hacc|(c' & Hc' & Hrest)].
      * apply in_app_iff in Hacc. destruct Hacc as [Hacc|[<-|[]]];
          [left; exact Hacc|].
        right. exists c. split; [left; reflexivity|].
        cbn. repeat split; try reflexivity.
        destruct (Checkpoint.status c =? "success")%string eqn:E;
          [|reflexivity].
        apply String.eqb_eq in E. rewrite E. reflexivity.
      * right. exists c'. split; [right; exact Hc'|exact Hrest].
Qed.

Lemma get_stats_eq (request : Request) (w : World) :
  get_stats request None w
  = (Ok {| ETLStatsResponse.sources :=
             fst (stats_loop (checkpoints (db w)) [] 0);
           ETLStatsResponse.total_records :=
             snd (stats_loop (checkpoints (db w)) [] 0);
           ETLStatsResponse.request_id := uuid4 request;
           ETLStatsResponse.api_latency_ms := latency_ms request |}, w).
Proof.
  unfold get_stats, try_except, bind, execute, get_all_checkpoints, query.
  destruct (stats_loop (checkpoints (db w)) [] 0). reflexivity.
Qed.

Lemma get_stats_refused (request : Request) (e : exn) (w : World) :
  get_stats request (Some e) w
  = (Raise (Exception "Internal server error"),
     {| db := db w; log := log w ++ [(ERROR, ErrorFetchingStats (str e))] |}).
Proof. reflexivity. Qed.

Lemma sum_records_save_row (s : string) (c c' : Checkpoint.t) :
  Checkpoint.records_processed c' = Checkpoint.records_processed c ->
  forall rows,
    find (for_source s) rows = Some c ->
    sum_records (save_row s c' rows) = sum_records rows.
Proof.
  intros Hsame. induction rows as [|r rows IH]; [discriminate|].
  cbn [find save_row]. destruct (for_source s r).
  - intros E. injection E as ->. unfold sum_records. cbn. lia.
  - intros E. unfold sum_records in *. cbn [map fold_right].
    rewrite IH by exact E. reflexivity.
Qed.

Lemma sum_records_app (rows rows' : list Checkpoint.t) :
  sum_records (rows ++ rows') = sum_records rows + sum_records rows'.
Proof.
  unfold sum_records. induction rows as [|r rows IH]; cbn [app map fold_right].
  - lia.
  - rewrite IH. lia.
Qed.

Lemma start_run_sum_records (s : string) (utcnow : Z) (faults : DbFaults)
    (w : World) :
  sum_records (checkpoints (db (snd (start_run s utcnow faults w))))
  = sum_records (checkpoints (db w)).
Proof.
  destruct (first_fault faults 0 2) as [e|] eqn:Ef.
  { rewrite (start_run_refused s utcnow faults w e Ef). reflexivity. }
  cbn [first_fault] in Ef.
  destruct (faults 0%nat) eqn:E0; [discriminate|].
  destruct (faults 1%nat) eqn:E1; [discriminate|].
  unfold start_run, bind, execute. rewrite E0, E1, get_checkpoint_eq.
  unfold checkpoint_of.
  destruct (find (for_source s) (checkpoints (db w))) as [c|] eqn:E.
  - cbn -[sum_records]. apply (sum_records_save_row s c);
      [reflexivity|exact E].
  - cbn -[sum_records]. rewrite sum_records_app. unfold sum_records. cbn.
    lia.
Qed.

(** X22.  When the query of the checkpoints is answered, [get_stats] returns
    and leaves the database as it is; it lists one entry per checkpoint, in
    the order of the rows; [total_records] is the sum of their
    [records_processed]; an entry has a success time exactly for status
    success and a failure time exactly for status failure, never both
    (neither for a running source); and [start_run] does not change
    [total_records], whatever the storage refuses to it: a running source
    still counts with the records of its previous run.  When the query
    raises, [get_stats] logs the exception and raises the exception of the
    answer 500, with the database as it was. *)
Theorem stats_follow_the_checkpoints :
  forall (request : Request) (w : World),
    (exists response,
        get_stats request None w = (Ok response, w)
        /\ map StatsResponse.source (ETLStatsResponse.sources response)
           = sources (db w)
        /\ ETLStatsResponse.total_records response
           = sum_records (checkpoints (db w))
        /\ (forall r, In r (ETLStatsResponse.sources response) ->
              exists c,
                In c (checkpoints (db w))
                /\ StatsResponse.source r = Checkpoint.source c
                /\ StatsResponse.status r = Checkpoint.status c
                /\ StatsResponse.records_processed r
                   = Checkpoint.records_processed c
                /\ StatsResponse.last_success_timestamp r
                   = (if (Checkpoint.status c =? "success")%string
                      then Some (Checkpoint.last_run_timestamp c) else None)
                /\ StatsResponse.last_failure_timestamp r
                   = (if (Checkpoint.status c =? "failure")%string
                      then Some (Checkpoint.last_run_timestamp c) else None)
                /\ (StatsResponse.last_success_timestamp r = None
                    \/ StatsResponse.last_failure_timestamp r = None))
        /\ (forall s utcnow faults,
              exists response',
                get_stats request None (snd (start_run s utcnow faults w))
                = (Ok response', snd (start_run s utcnow faults w))
                /\ ETLStatsResponse.total_records response'
                   = ETLStatsResponse.total_records response))
    /\ (forall e,
          get_stats request (Some e) w
          = (Raise (Exception "Internal server error"),
             {| db := db w;
                log := log w ++ [(ERROR, ErrorFetchingStats (str e))] |})).
Proof.
  intros request w. split; [|intros e; apply get_stats_refused].
  rewrite get_stats_eq. eexists. split; [reflexivity|].
  destruct (stats_loop_spec (checkpoints (db w)) [] 0) as (Hs & Ht & Hr).
  cbn [ETLStatsResponse.sources ETLStatsResponse.total_records].
  split; [exact Hs|]. split; [rewrite Ht; lia|]. split.
  - intros r Hin. destruct (Hr r Hin) as [[]|(c & Hc & A & B & C & _ & D & E)].
    exists c. repeat split; try assumption.
    rewrite D, E. destruct (Checkpoint.status c =? "success")%string eqn:Es.
    + apply String.eqb_eq in Es. rewrite Es. right. reflexivity.
    + left. reflexivity.
  - intros s utcnow faults. rewrite get_stats_eq. eexists.
    split; [reflexivity|].
    cbn [ETLStatsResponse.total_records].
    destruct (stats_loop_spec
                (checkpoints (db (snd (start_run s utcnow faults w)))) [] 0)
      as (_ & Ht' & _).
    rewrite Ht', Ht, start_run_sum_records. reflexivity.
Qed.

Lemma stats_follow_the_checkpoints_witness :
  exists response,
    get_stats probe None x_succeeded = (Ok response, x_succeeded)
    /\ map StatsResponse.source (ETLStatsResponse.sources response) = ["x"]
    /\ ETLStatsResponse.total_records response = 5.
Proof.
  destruct (proj1 (stats_follow_the_checkpoints probe x_succeeded))
    as (response & E & Hs & Ht & _).
  exists response. split; [exact E|]. split; [exact Hs|exact Ht].
Defined.

(** ** The health check *)

Lemma max_by_last_run_spec (rest : list Checkpoint.t) :
  forall best,
    In (max_by_last_run best rest) (best :: rest)
    /\ (forall c, In c (best :: rest) ->
          Checkpoint.last_run_timestamp c
          <= Checkpoint.last_run_timestamp (max_by_last_run best rest)).
Proof.
  induction rest as [|x rest IH]; intros best.
  - cbn. split; [auto|]. intros c [<-|[]]. lia.
  - cbn [max_by_last_run].
    destruct (IH (if Checkpoint.last_run_timestamp best
                     <? Checkpoint.last_run_timestamp x
                  then x else best)) as (Hin & Hmax).
    destruct (Checkpoint.last_run_timestamp best
              <? Checkpoint.last_run_timestamp x) eqn:E.
    + apply Z.ltb_lt in E. split.
      * destruct Hin as [<-|Hin]; [right; left; reflexivity|].
        right. right. exact Hin.
      * intros c [<-|[<-|Hc]].
        -- specialize (Hmax x (or_introl eq_refl)). lia.
        -- apply Hmax. left. reflexivity.
        -- apply Hmax. right. exact Hc.
    + apply Z.ltb_ge in E. split.
      * destruct Hin as [<-|Hin]; [left; reflexivity|].
        right. right. exact Hin.
      * intros c [<-|[<-|Hc]].
        -- apply Hmax. left. reflexivity.
        -- specialize (Hmax best (or_introl eq_refl)). lia.
        -- apply Hmax. right. exact Hc.
Qed.

(** X23.  [health_check] never raises and leaves the database as it is.  When
    the query of the checkpoints raises, the handler logs the exception and
    the answer is unhealthy, with [database_connected] false and no
    [etl_last_run].  Otherwise nothing is logged, [database_connected] is
    what the connection check answers, and [etl_last_run] is absent exactly
    when there is no checkpoint and otherwise describes a stored checkpoint
    whose [last_run_timestamp] no other checkpoint exceeds.  The status is
    healthy exactly when the connection check answers true and the query is
    answered. *)
Theorem health_check_reports_latest_run :
  forall (request : Request) (fault : option exn) (w : World),
    exists response,
      fst (health_check request fault w) = Ok response
      /\ db (snd (health_check request fault w)) = db w
      /\ (HealthResponse.status response = "healthy" <->
          db_connected request = true /\ fault = None)
      /\ (HealthResponse.status response = "healthy"
          \/ HealthResponse.status response = "unhealthy")
      /\ (forall e,
            fault = Some e ->
            log (snd (health_check request fault w))
            = log w ++ [(ERROR, HealthCheckFailed (str e))]
            /\ HealthResponse.status response = "unhealthy"
            /\ HealthResponse.database_connected response = false
            /\ HealthResponse.etl_last_run response = None)
      /\ (fault = None ->
          snd (health_check request fault w) = w
          /\ HealthResponse.database_connected response = db_connected request
          /\ (HealthResponse.etl_last_run response = None <->
              checkpoints (db w) = [])
          /\ (forall last,
                HealthResponse.etl_last_run response = Some last ->
                exists c,
                  In c (checkpoints (db w))
                  /\ LastRun.source last = Checkpoint.source c
                  /\ LastRun.status last = Checkpoint.status c
                  /\ LastRun.records_processed last
                     = Checkpoint.records_processed c
                  /\ LastRun.timestamp last
                     = isoformat request (Checkpoint.last_run_timestamp c)
                  /\ (forall c', In c' (checkpoints (db w)) ->
                        Checkpoint.last_run_timestamp c'
                        <= Checkpoint.last_run_timestamp c))).
Proof.
  intros request fault w.
  unfold health_check, try_except, bind, execute, get_all_checkpoints, query,
    ret, raise, logger.
  destruct fault as [e|].
  - eexists. split; [reflexivity|]. split; [reflexivity|].
    cbn [HealthResponse.database_connected HealthResponse.status
         HealthResponse.etl_last_run fst snd log].
    split; [split; [discriminate|intros [_ E]; discriminate]|].
    split; [right; reflexivity|].
    split; [|discriminate].
    intros e' E. injection E as <-. repeat split.
  - eexists. split; [reflexivity|]. split; [reflexivity|].
    cbn [HealthResponse.database_connected HealthResponse.status
         HealthResponse.etl_last_run fst snd].
    split.
    { destruct (db_connected request); split; intros E;
        try (split; reflexivity); try discriminate.
      destruct E as [E _]. discriminate. }
    split; [destruct (db_connected request); [left|right]; reflexivity|].
    split; [discriminate|]. intros _.
    split; [reflexivity|]. split; [reflexivity|].
    destruct (checkpoints (db w)) as [|first rest].
    + split; [split; reflexivity|]. intros last E. discriminate.
    + split; [split; intros E; discriminate|].
      intros last E. injection E as <-.
      destruct (max_by_last_run_spec rest first) as (Hin & Hmax).
      exists (max_by_last_run first rest). cbn. repeat split; assumption.
Qed.

Lemma health_check_reports_latest_run_witness :
  exists response,
    health_check probe None x_succeeded = (Ok response, x_succeeded)
    /\ HealthResponse.status response = "healthy"
    /\ HealthResponse.etl_last_run response <> None.
Proof.
  destruct (health_check_reports_latest_run probe None x_succeeded)
    as (response & E & _ & Hs & _ & _ & Hnone).
  destruct (Hnone eq_refl) as (Hw & _ & Hn & _).
  exists response. split; [|split].
  - rewrite (surjective_pairing (health_check probe None x_succeeded)).
    rewrite E, Hw. reflexivity.
  - exact (proj2 Hs (conj eq_refl eq_refl)).
  - intros Habsent. apply (proj1 Hn) in Habsent. discriminate Habsent.
Defined.
